(** * NIST stack: the render-and-hydrate pipeline of [page.interceptor.ts]

  A shallow embedding of the server interceptor ([NistInterceptor]) and of
  the client router, with the properties of the specification stated and
  proved over it.

  Conventions.
  - A JavaScript string whose exact characters matter (the hydration
    codec) is a list of UTF-16 code units, each an [N].  Page names,
    paths and header names are [string]s.
  - A JSON-representable value is the inductive type [json]; an object is
    the list of its own enumerable properties in enumeration order.
    Its numbers are those of the JavaScript engine, which the codec
    takes as a parameter ([Engine]): how a number is written and read is
    the engine's, where it is written and read is the code's.
  - Objects that the source clones, freezes or shares live in an explicit
    store, addressed by location, each with its kind: plain object,
    array or other.  The sanitizer tests a number for truthiness only
    and takes it as an integer. *)

From Stdlib Require Import ZArith NArith Lia List Bool Ascii String.
From Stdlib Require Import DecimalFacts DecimalN DecimalNat DecimalString.
From stdpp Require Import base option list strings gmap.

Set Warnings "-register-all".

Open Scope N_scope.

(** ** UTF-16 code units *)

Module Units.

Definition ustring := list N.

Definition of_ascii_string (s : string) : ustring :=
  map (fun a => N_of_ascii a) (String.list_ascii_of_string s).

Definition LT : N := 60.        (* < *)
Definition GT : N := 62.        (* > *)
Definition SLASH : N := 47.     (* / *)
Definition LS : N := 8232.      (* U+2028 *)
Definition PS : N := 8233.      (* U+2029 *)
Definition QUOTE : N := 34.     (* the double quote *)
Definition BACKSLASH : N := 92.
Definition COMMA : N := 44.
Definition COLON : N := 58.
Definition LBRACKET : N := 91.
Definition RBRACKET : N := 93.
Definition LBRACE : N := 123.
Definition RBRACE : N := 125.
Definition MINUS : N := 45.

Definition is_high_surrogate (c : N) : bool := (55296 <=? c) && (c <=? 56319).
Definition is_low_surrogate (c : N) : bool := (56320 <=? c) && (c <=? 57343).
Definition is_surrogate (c : N) : bool := (55296 <=? c) && (c <=? 57343).

(** One lowercase hexadecimal digit, as [Number.prototype.toString(16)]
    prints it. *)
Definition hex_digit (d : N) : N := if d <? 10 then 48 + d else 87 + d.

Definition hex4 (c : N) : ustring :=
  [hex_digit (c / 4096); hex_digit ((c / 256) mod 16);
   hex_digit ((c / 16) mod 16); hex_digit (c mod 16)].

(** The value of a hexadecimal digit of either case. *)
Definition hex_value (h : N) : option N :=
  if (48 <=? h) && (h <=? 57) then Some (h - 48)
  else if (97 <=? h) && (h <=? 102) then Some (h - 87)
  else if (65 <=? h) && (h <=? 70) then Some (h - 55)
  else None.

Fixpoint strip_prefix (p s : ustring) : option ustring :=
  match p with
  | [] => Some s
  | a :: p' =>
      match s with
      | b :: s' => if a =? b then strip_prefix p' s' else None
      | [] => None
      end
  end.

End Units.

(** ** JSON values and [JSON.stringify] *)

Module Json.
Import Units.

(** *** The numbers of the engine *)

(** [JSON.stringify] and [JSON.parse] leave the numbers to the JavaScript
    engine.  The embedding takes from the engine what the code under
    study calls: the test for a finite number, [ToBoolean] on a number,
    [Number::toString] (radix 10) and the value of a numeric literal
    ([StringToNumber]); [negative_zero] is the number [-0]. *)
Class Engine : Type := MkEngine {
  number : Type;
  Number_isFinite : number -> bool;
  Number_toBoolean : number -> bool;
  Number_toString : number -> ustring;
  StringToNumber : ustring -> number;
  negative_zero : number
}.

Section Values.
Context `{Engine}.

Inductive json : Type :=
| JNull
| JBool (b : bool)
| JNum (x : number)
| JStr (s : ustring)
| JArr (elems : list json)
| JObj (fields : list (ustring * json)).

(** *** Strings: [QuoteJSONString] *)

Definition unicode_escape (c : N) : ustring :=
  BACKSLASH :: 117 :: hex4 c.

(** The code units [JSON.stringify] writes for one code unit that is not
    half of a surrogate pair. *)
Definition quote_unit (c : N) : ustring :=
  if c =? 8 then [BACKSLASH; 98]
  else if c =? 9 then [BACKSLASH; 116]
  else if c =? 10 then [BACKSLASH; 110]
  else if c =? 12 then [BACKSLASH; 102]
  else if c =? 13 then [BACKSLASH; 114]
  else if c =? QUOTE then [BACKSLASH; QUOTE]
  else if c =? BACKSLASH then [BACKSLASH; BACKSLASH]
  else if (c <? 32) || is_surrogate c then unicode_escape c
  else [c].

(** A high surrogate followed by a low surrogate is one code point and is
    written as it is; a lone surrogate is written as an escape. *)
Fixpoint quote_units (s : ustring) : ustring :=
  match s with
  | [] => []
  | c :: t =>
      match t with
      | d :: t' =>
          if is_high_surrogate c && is_low_surrogate d
          then c :: d :: quote_units t'
          else quote_unit c ++ quote_units t
      | [] => quote_unit c
      end
  end.

Definition quote_json_string (s : ustring) : ustring :=
  QUOTE :: quote_units s ++ [QUOTE].

(** *** Values *)

Definition join_with_comma (parts : list ustring) : ustring :=
  match parts with
  | [] => []
  | p :: ps => p ++ flat_map (fun q => COMMA :: q) ps
  end.

(** A finite number is written by [Number::toString]; [NaN] and the
    infinities are written as [null]. *)
Fixpoint JSON_stringify (v : json) : ustring :=
  match v with
  | JNull => of_ascii_string "null"
  | JBool true => of_ascii_string "true"
  | JBool false => of_ascii_string "false"
  | JNum x => if Number_isFinite x then Number_toString x else of_ascii_string "null"
  | JStr s => quote_json_string s
  | JArr elems =>
      LBRACKET :: join_with_comma (map JSON_stringify elems) ++ [RBRACKET]
  | JObj fields =>
      LBRACE ::
      join_with_comma
        (map (fun kv => quote_json_string (fst kv) ++ COLON :: JSON_stringify (snd kv))
             fields)
      ++ [RBRACE]
  end.

(** *** Structure of values *)

(** An object has each key once. *)
Fixpoint json_wf (v : json) : Prop :=
  match v with
  | JArr elems =>
      (fix all (l : list json) : Prop :=
         match l with
         | [] => True
         | x :: l' => json_wf x /\ all l'
         end) elems
  | JObj fields =>
      NoDup (map fst fields) /\
      (fix all (l : list (ustring * json)) : Prop :=
         match l with
         | [] => True
         | kv :: l' => json_wf (snd kv) /\ all l'
         end) fields
  | _ => True
  end.

(** Every number of the value is finite: [JSON.stringify] writes each of
    them as a number. *)
Fixpoint finite_numbers (v : json) : Prop :=
  match v with
  | JNum x => Number_isFinite x = true
  | JArr elems =>
      (fix all (l : list json) : Prop :=
         match l with
         | [] => True
         | x :: l' => finite_numbers x /\ all l'
         end) elems
  | JObj fields =>
      (fix all (l : list (ustring * json)) : Prop :=
         match l with
         | [] => True
         | kv :: l' => finite_numbers (snd kv) /\ all l'
         end) fields
  | _ => True
  end.

(** Every number of the value is finite and is not [-0]. *)
Fixpoint exact_numbers (v : json) : Prop :=
  match v with
  | JNum x => Number_isFinite x = true /\ x <> negative_zero
  | JArr elems =>
      (fix all (l : list json) : Prop :=
         match l with
         | [] => True
         | x :: l' => exact_numbers x /\ all l'
         end) elems
  | JObj fields =>
      (fix all (l : list (ustring * json)) : Prop :=
         match l with
         | [] => True
         | kv :: l' => exact_numbers (snd kv) /\ all l'
         end) fields
  | _ => True
  end.

(** The value with every number taken through its text: a finite number
    is the number its text reads as, any other number is [null]. *)
Fixpoint reread (v : json) : json :=
  match v with
  | JNum x =>
      if Number_isFinite x then JNum (StringToNumber (Number_toString x)) else JNull
  | JArr elems => JArr (map reread elems)
  | JObj fields => JObj (map (fun kv => (fst kv, reread (snd kv))) fields)
  | _ => v
  end.

Fixpoint json_size (v : json) : nat :=
  match v with
  | JArr elems =>
      S ((fix sum (l : list json) : nat :=
            match l with
            | [] => O
            | x :: l' => S (json_size x + sum l')
            end) elems)
  | JObj fields =>
      S ((fix sum (l : list (ustring * json)) : nat :=
            match l with
            | [] => O
            | kv :: l' => S (json_size (snd kv) + sum l')
            end) fields)
  | _ => 1%nat
  end.

Section JsonInd.
Variable P : json -> Prop.
Hypothesis Hnull : P JNull.
Hypothesis Hbool : forall b, P (JBool b).
Hypothesis Hnum : forall x, P (JNum x).
Hypothesis Hstr : forall s, P (JStr s).
Hypothesis Harr : forall elems, Forall P elems -> P (JArr elems).
Hypothesis Hobj : forall fields, Forall (fun kv => P (snd kv)) fields -> P (JObj fields).

Fixpoint json_nested_ind (v : json) : P v :=
  match v with
  | JNull => Hnull
  | JBool b => Hbool b
  | JNum x => Hnum x
  | JStr s => Hstr s
  | JArr elems =>
      Harr elems
        ((fix go (l : list json) : Forall P l :=
            match l with
            | [] => @List.Forall_nil _ P
            | x :: l' => @List.Forall_cons _ P x l' (json_nested_ind x) (go l')
            end) elems)
  | JObj fields =>
      Hobj fields
        ((fix go (l : list (ustring * json)) : Forall (fun kv => P (snd kv)) l :=
            match l with
            | [] => @List.Forall_nil _ _
            | kv :: l' => @List.Forall_cons _ _ kv l' (json_nested_ind (snd kv)) (go l')
            end) fields)
  end.
End JsonInd.

End Values.

End Json.

(** ** The hydration codec, server side *)

Module Codec.
Import Units Json.

(** The callback of [jsonString.replace(re, ...)], where [re] is the
    global one-character class of [<], [>], [/], U+2028 and U+2029: the
    [switch] on the matched character.  Each replacement is a backslash,
    the letter u and four hexadecimal digits. *)
Definition replace_callback (char : N) : ustring :=
  if char =? LT then BACKSLASH :: of_ascii_string "u003c"
  else if char =? GT then BACKSLASH :: of_ascii_string "u003e"
  else if char =? SLASH then BACKSLASH :: of_ascii_string "u002f"
  else if char =? LS then BACKSLASH :: of_ascii_string "u2028"
  else if char =? PS then BACKSLASH :: of_ascii_string "u2029"
  else [char].

Definition matches_escape_class (c : N) : bool :=
  (c =? LT) || (c =? GT) || (c =? SLASH) || (c =? LS) || (c =? PS).

(** A global replace with a one-character class visits every code unit
    once, left to right. *)
Definition replace_all (s : ustring) : ustring :=
  flat_map (fun c => if matches_escape_class c then replace_callback c else [c]) s.

Definition serializeJavaScript `{Engine} (data : json) : ustring :=
  let jsonString := JSON_stringify data in
  replace_all jsonString.

(** The escaping as the specification words it: a table from each of the
    five characters to its six-character escape, applied to every
    occurrence; any other character stays. *)
Definition spec_escape_table : list (N * ustring) :=
  [ (LT, BACKSLASH :: of_ascii_string "u003c");
    (GT, BACKSLASH :: of_ascii_string "u003e");
    (SLASH, BACKSLASH :: of_ascii_string "u002f");
    (LS, BACKSLASH :: of_ascii_string "u2028");
    (PS, BACKSLASH :: of_ascii_string "u2029") ].

Definition spec_escape_unit (c : N) : ustring :=
  match find (fun entry => fst entry =? c) spec_escape_table with
  | Some entry => snd entry
  | None => [c]
  end.

Definition spec_encode (jsonText : ustring) : ustring :=
  flat_map spec_escape_unit jsonText.

End Codec.

(** ** [JSON.parse]

  The client reads the hydration payload back with [JSON.parse].  The
  parser below follows the JSON grammar on code units: insignificant
  white space, the two-character escapes, the four-digit hexadecimal
  escape in either case, numbers with their fraction and exponent, and
  objects built property by property (a repeated key overwrites the
  earlier value and keeps its place).  The value of a number is what the
  engine reads from its literal. *)

Module Parser.
Import Units Json.

Definition is_ws (c : N) : bool :=
  (c =? 32) || (c =? 9) || (c =? 10) || (c =? 13).

Fixpoint skip_ws (s : ustring) : ustring :=
  match s with
  | c :: t => if is_ws c then skip_ws t else s
  | [] => []
  end.

(** The character that follows a backslash in a two-character escape. *)
Definition unescape (e : N) : option N :=
  if e =? QUOTE then Some QUOTE
  else if e =? BACKSLASH then Some BACKSLASH
  else if e =? SLASH then Some SLASH
  else if e =? 98 then Some 8
  else if e =? 102 then Some 12
  else if e =? 110 then Some 10
  else if e =? 114 then Some 13
  else if e =? 116 then Some 9
  else None.

Definition hex4_value (h1 h2 h3 h4 : N) : option N :=
  a ← hex_value h1; b ← hex_value h2; c ← hex_value h3; d ← hex_value h4;
  Some (((a * 16 + b) * 16 + c) * 16 + d).

(** The characters of a string after its opening quote, up to and
    including the closing quote. *)
Fixpoint parse_string_body (s : ustring) : option (ustring * ustring) :=
  match s with
  | [] => None
  | c :: t =>
      if c =? QUOTE then Some ([], t)
      else if c =? BACKSLASH then
        match t with
        | e :: t' =>
            if e =? 117 then
              match t' with
              | h1 :: h2 :: h3 :: h4 :: t'' =>
                  match hex4_value h1 h2 h3 h4 with
                  | Some u =>
                      match parse_string_body t'' with
                      | Some (str, r) => Some (u :: str, r)
                      | None => None
                      end
                  | None => None
                  end
              | _ => None
              end
            else
              match unescape e with
              | Some u =>
                  match parse_string_body t' with
                  | Some (str, r) => Some (u :: str, r)
                  | None => None
                  end
              | None => None
              end
        | [] => None
        end
      else if c <? 32 then None
      else
        match parse_string_body t with
        | Some (str, r) => Some (c :: str, r)
        | None => None
        end
  end.

(** *** The literal of a number *)

Definition is_digit (c : N) : bool := (48 <=? c) && (c <=? 57).

(** The longest run of decimal digits at the head of [s], and what
    follows it. *)
Fixpoint take_digits (s : ustring) : ustring * ustring :=
  match s with
  | c :: t =>
      if is_digit c then let '(ds, r) := take_digits t in (c :: ds, r)
      else ([], s)
  | [] => ([], [])
  end.

(** [int]: a zero, or a digit from 1 to 9 and any digits. *)
Definition scan_int (s : ustring) : option (ustring * ustring) :=
  match s with
  | c :: t =>
      if c =? 48 then Some ([c], t)
      else if is_digit c then let '(ds, r) := take_digits t in Some (c :: ds, r)
      else None
  | [] => None
  end.

(** [frac]: nothing, or a point and one digit or more. *)
Definition scan_frac (s : ustring) : option (ustring * ustring) :=
  match s with
  | c :: t =>
      if c =? 46 then
        match take_digits t with
        | ([], _) => None
        | (d :: ds, r) => Some (c :: d :: ds, r)
        end
      else Some ([], s)
  | [] => Some ([], [])
  end.

(** The sign of an exponent, when there is one. *)
Definition scan_sign (s : ustring) : ustring * ustring :=
  match s with
  | c :: t => if (c =? 43) || (c =? MINUS) then ([c], t) else ([], s)
  | [] => ([], [])
  end.

(** [exp]: nothing, or [e] or [E], an optional sign and one digit or
    more. *)
Definition scan_exp (s : ustring) : option (ustring * ustring) :=
  match s with
  | c :: t =>
      if (c =? 101) || (c =? 69) then
        let '(sign, t') := scan_sign t in
        match take_digits t' with
        | ([], _) => None
        | (d :: ds, r) => Some (c :: sign ++ d :: ds, r)
        end
      else Some ([], s)
  | [] => Some ([], [])
  end.

Definition scan_unsigned (s : ustring) : option (ustring * ustring) :=
  '(i, r1) ← scan_int s;
  '(f, r2) ← scan_frac r1;
  '(e, r3) ← scan_exp r2;
  Some (i ++ f ++ e, r3).

(** The literal of a number at the head of [s], and what follows it:
    an optional minus sign, [int], [frac] and [exp]. *)
Definition scan_number (s : ustring) : option (ustring * ustring) :=
  match s with
  | c :: t =>
      if c =? MINUS then '(literal, r) ← scan_unsigned t; Some (c :: literal, r)
      else scan_unsigned s
  | [] => None
  end.

(** The whole of [t] is the literal of one number. *)
Definition is_json_number (t : ustring) : bool :=
  match scan_number t with
  | Some (_, []) => true
  | _ => false
  end.

Section Values.
Context `{Engine}.

Definition parse_number (s : ustring) : option (json * ustring) :=
  '(literal, r) ← scan_number s; Some (JNum (StringToNumber literal), r).

(** [CreateDataProperty]: a new key goes last, a repeated key keeps its
    place and takes the new value. *)
Fixpoint obj_define (o : list (ustring * json)) (k : ustring) (v : json)
  : list (ustring * json) :=
  match o with
  | [] => [(k, v)]
  | (k', v') :: o' =>
      if decide (k' = k) then (k', v) :: o' else (k', v') :: obj_define o' k v
  end.

Fixpoint parse_value (fuel : nat) (s : ustring) {struct fuel}
  : option (json * ustring) :=
  match fuel with
  | O => None
  | S fuel' =>
      match skip_ws s with
      | [] => None
      | c :: r =>
          if c =? LBRACKET then
            match skip_ws r with
            | c' :: r' =>
                if c' =? RBRACKET then Some (JArr [], r')
                else
                  '(l, r2) ← parse_elements fuel' r; Some (JArr l, r2)
            | [] => None
            end
          else if c =? LBRACE then
            match skip_ws r with
            | c' :: r' =>
                if c' =? RBRACE then Some (JObj [], r')
                else
                  '(o, r2) ← parse_members fuel' [] r; Some (JObj o, r2)
            | [] => None
            end
          else if c =? QUOTE then
            '(str, r') ← parse_string_body r; Some (JStr str, r')
          else if c =? 110 then
            r' ← strip_prefix (of_ascii_string "ull") r; Some (JNull, r')
          else if c =? 116 then
            r' ← strip_prefix (of_ascii_string "rue") r; Some (JBool true, r')
          else if c =? 102 then
            r' ← strip_prefix (of_ascii_string "alse") r; Some (JBool false, r')
          else parse_number (c :: r)
      end
  end
with parse_elements (fuel : nat) (s : ustring) {struct fuel}
  : option (list json * ustring) :=
  match fuel with
  | O => None
  | S fuel' =>
      '(v, r) ← parse_value fuel' s;
      match skip_ws r with
      | c :: r' =>
          if c =? COMMA then
            '(l, r2) ← parse_elements fuel' r'; Some (v :: l, r2)
          else if c =? RBRACKET then Some ([v], r')
          else None
      | [] => None
      end
  end
with parse_members (fuel : nat) (acc : list (ustring * json)) (s : ustring)
  {struct fuel} : option (list (ustring * json) * ustring) :=
  match fuel with
  | O => None
  | S fuel' =>
      match skip_ws s with
      | c :: r =>
          if c =? QUOTE then
            '(k, r1) ← parse_string_body r;
            match skip_ws r1 with
            | c1 :: r2 =>
                if c1 =? COLON then
                  '(v, r3) ← parse_value fuel' r2;
                  let acc' := obj_define acc k v in
                  match skip_ws r3 with
                  | c3 :: r4 =>
                      if c3 =? COMMA then parse_members fuel' acc' r4
                      else if c3 =? RBRACE then Some (acc', r4)
                      else None
                  | [] => None
                  end
                else None
            | [] => None
            end
          else None
      | [] => None
      end
  end.

(** The whole text is one value, white space apart.  Every step of the
    parser consumes a code unit, so the length of the text is fuel
    enough. *)
Definition JSON_parse (text : ustring) : option json :=
  match parse_value (length text) text with
  | Some (v, r) =>
      match skip_ws r with
      | [] => Some v
      | _ :: _ => None
      end
  | None => None
  end.

End Values.

End Parser.


(** ** The client: published hydration state *)

Module Client.
Import Units Json Parser.

Section Values.
Context `{Engine}.

(** The frozen object behind [window.__NIST__]. *)
Record nist_state : Type := MkNist {
  props : option json;
  route : option json;
  page : option json;
  hydrated : bool
}.

(** The globals the server's bootstrap script and the router write;
    [None] is [undefined]. *)
Record window : Type := MkWindow {
  __NIST__ : option nist_state;
  __INITIAL_PROPS__ : option json;
  __PAGE_NAME__ : option json;
  __ROUTE_PARAMS__ : option json;
  __QUERY_PARAMS__ : option json;
  __PATHNAME__ : option json
}.

Definition empty_window : window := MkWindow None None None None None None.

Fixpoint lookup_field (fields : list (ustring * json)) (key : ustring) : option json :=
  match fields with
  | [] => None
  | (k, v) :: rest => if decide (k = key) then Some v else lookup_field rest key
  end.

(** [v.key]: a [TypeError] ([None] on the outside) on [undefined] and
    [null], the property or [undefined] otherwise. *)
Definition member (v : option json) (key : string) : option (option json) :=
  match v with
  | None | Some JNull => None
  | Some (JObj fields) => Some (lookup_field fields (of_ascii_string key))
  | Some _ => Some None
  end.

(** The inline bootstrap script of [createHydrationScripts], given the
    text of the [__NIST_DATA__] element.  The assignments are one comma
    expression inside a [try]: a throw keeps the globals written before
    it. *)
Definition bootstrap (textContent : ustring) (w : window) : window :=
  let text := match textContent with [] => of_ascii_string "{}" | _ :: _ => textContent end in
  match JSON_parse text with
  | None => w
  | Some data =>
      match member (Some data) "props", member (Some data) "route",
            member (Some data) "page" with
      | Some p, Some r, Some pg =>
          let w1 :=
            MkWindow (Some (MkNist p r pg false)) p pg
                     (__ROUTE_PARAMS__ w) (__QUERY_PARAMS__ w) (__PATHNAME__ w) in
          match member r "params", member r "query", member r "pathname" with
          | Some params, Some query, Some pathname =>
              MkWindow (__NIST__ w1) (__INITIAL_PROPS__ w1) (__PAGE_NAME__ w1)
                       params query pathname
          | _, _, _ => w1
          end
      | _, _, _ => w
      end
  end.

(** *** The two patterns of [fetchAndRenderPage] *)

(** The class [\s] of a regular expression. *)
Definition is_regex_space (c : N) : bool :=
  ((9 <=? c) && (c <=? 13)) || (c =? 32) || (c =? 160) || (c =? 5760) ||
  ((8192 <=? c) && (c <=? 8202)) || (c =? 8232) || (c =? 8233) || (c =? 8239) ||
  (c =? 8287) || (c =? 12288) || (c =? 65279).

Fixpoint skip_spaces (s : ustring) : ustring :=
  match s with
  | c :: t => if is_regex_space c then skip_spaces t else s
  | [] => []
  end.

(** The longest prefix free of [stop], and what follows it. *)
Fixpoint take_until (stop : N) (s : ustring) : ustring * ustring :=
  match s with
  | c :: t =>
      if c =? stop then ([], s)
      else let '(body, rest) := take_until stop t in (c :: body, rest)
  | [] => ([], [])
  end.

(** A match anchored at the head of [s] of: the name, optional spaces, an
    equals sign, optional spaces, [opening], one character or more other
    than [closing], [closing] and a semicolon.  The result is the text
    between the two delimiters. *)
Definition match_assignment (name : ustring) (opening closing : N) (s : ustring)
  : option ustring :=
  match strip_prefix name s with
  | Some rest =>
      match skip_spaces rest with
      | eq :: r1 =>
          if eq =? 61 then
            match skip_spaces r1 with
            | o :: r2 =>
                if o =? opening then
                  match take_until closing r2 with
                  | (c :: body, cl :: semi :: _) =>
                      if (cl =? closing) && (semi =? 59) then Some (c :: body) else None
                  | _ => None
                  end
                else None
            | [] => None
            end
          else None
      | [] => None
      end
  | None => None
  end.

(** The leftmost match in [s]. *)
Fixpoint search (pattern : ustring -> option ustring) (s : ustring) : option ustring :=
  match pattern s with
  | Some m => Some m
  | None =>
      match s with
      | _ :: t => search pattern t
      | [] => None
      end
  end.

(** Group 1 of the pattern for [window.__INITIAL_PROPS__]: the braces and
    what is between them. *)
Definition propsMatch (html : ustring) : option ustring :=
  match search (match_assignment (of_ascii_string "window.__INITIAL_PROPS__") LBRACE RBRACE) html with
  | Some body => Some (LBRACE :: body ++ [RBRACE])
  | None => None
  end.

(** Group 1 of the pattern for [window.__PAGE_NAME__]: the text between
    the quotes. *)
Definition pageNameMatch (html : ustring) : option ustring :=
  search (match_assignment (of_ascii_string "window.__PAGE_NAME__") QUOTE QUOTE) html.

Record fetch_response : Type := MkFetch {
  ok : bool;
  text : ustring
}.

Inductive client_event : Type :=
| NistNavigate (detail_props : json) (detail_pageName : ustring).

(** [fetchAndRenderPage(path)], given what [fetch] resolves to ([None]
    when it rejects): the new globals and the events dispatched. *)
Definition fetchAndRenderPage (fetched : option fetch_response) (w : window)
  : window * list client_event :=
  match fetched with
  | None => (w, [])
  | Some response =>
      if negb (ok response) then (w, [])
      else
        match propsMatch (text response), pageNameMatch (text response) with
        | Some propsText, Some pageName =>
            match JSON_parse propsText with
            | Some newProps =>
                (MkWindow (__NIST__ w) (Some newProps) (Some (JStr pageName))
                          (__ROUTE_PARAMS__ w) (__QUERY_PARAMS__ w) (__PATHNAME__ w),
                 [NistNavigate newProps pageName])
            | None => (w, [])
            end
        | _, _ => (w, [])
        end
  end.

(** The canonical object and the aliases describe the same payload. *)
Definition aliases_agree (w : window) : Prop :=
  match __NIST__ w with
  | Some n =>
      __INITIAL_PROPS__ w = props n /\
      __PAGE_NAME__ w = page n /\
      Some (__ROUTE_PARAMS__ w) = member (route n) "params" /\
      Some (__QUERY_PARAMS__ w) = member (route n) "query" /\
      Some (__PATHNAME__ w) = member (route n) "pathname"
  | None => False
  end.

End Values.

End Client.

(** ** Vocabulary of the round trip *)

Module CodecSpec.
Import Units Json Codec Parser.

(** What may follow a value inside a text. *)
Definition delimited (rest : ustring) : Prop :=
  match rest with
  | [] => True
  | c :: _ => c = COMMA \/ c = RBRACKET \/ c = RBRACE
  end.

(** A character of the literal of a number: a digit, a sign, the point
    or the letter of the exponent. *)
Definition number_char (c : N) : bool :=
  is_digit c || (c =? MINUS) || (c =? 43) || (c =? 46) || (c =? 101) || (c =? 69).

(** The first code unit of a serialized value. *)
Definition value_start (c : N) : bool :=
  (c =? LBRACKET) || (c =? LBRACE) || (c =? QUOTE) || (c =? 110) ||
  (c =? 116) || (c =? 102) || (c =? MINUS) || is_digit c.

Section Values.
Context `{Engine}.

(** *** What the round trip takes from the engine *)

(** The text of a finite number is the literal of a JSON number
    ([Number::toString] writes digits, a sign, a point and an exponent
    and nothing else, in the order of the grammar). *)
Definition writes_json_numbers : Prop :=
  forall x : number,
    Number_isFinite x = true -> is_json_number (Number_toString x) = true.

(** The text of a finite number other than [-0] reads as the number
    ([Number::toString], note: for any [x] other than [-0],
    [ToNumber(ToString(x))] is [x]). *)
Definition reads_back_its_numbers : Prop :=
  forall x : number,
    Number_isFinite x = true -> x <> negative_zero ->
    StringToNumber (Number_toString x) = x.

(** [-0] is finite and written as [0], which reads as another number. *)
Definition drops_the_sign_of_zero : Prop :=
  Number_isFinite negative_zero = true /\
  Number_toString negative_zero = [48] /\
  StringToNumber [48] <> negative_zero.

(** *** The induction *)

Definition member_text (kv : ustring * json) : ustring :=
  QUOTE :: replace_all (quote_units (fst kv) ++ [QUOTE]) ++
  COLON :: serializeJavaScript (snd kv).

Definition elems_size (l : list json) : nat :=
  fold_right (fun x n => S (json_size x + n)) O l.

Definition fields_size (l : list (ustring * json)) : nat :=
  fold_right (fun kv n => S (json_size (snd kv) + n)) O l.

(** The statement proved of each value by induction. *)
Definition parses_back (v : json) : Prop :=
  json_wf v ->
  forall (fuel : nat) (rest : ustring),
    (json_size v <= fuel)%nat -> delimited rest ->
    parse_value fuel (serializeJavaScript v ++ rest) = Some (reread v, rest).

End Values.

End CodecSpec.

(** ** Props sanitization: [sanitizeInitialProps]

    The sanitizer clones objects and writes into the clones, so values are
    modelled in a store.  A value is a primitive or a reference; an object
    is its own enumerable properties in enumeration order, with what kind
    of object it is: a plain object, an array with its [length], or any
    other object.  Allocation appends to the store.  Functions, accessor
    properties and symbol keys are outside the embedding. *)

Module Sanitize.

Inductive prim : Type :=
| PUndefined
| PNull
| PBool (b : bool)
| PNum (z : Z)
| PStr (s : string).

Inductive jsval : Type :=
| VPrim (p : prim)
| VRef (l : nat).

(** What [Array.isArray] and the prototype tell of an object. *)
Inductive obj_kind : Type :=
| Plain                    (* made by an object literal or an object spread *)
| Array (length : nat)     (* an array; its slots without a property are holes *)
| Other.                   (* any other object: a [Date], a [Map], an instance of a class *)

Record jsobj : Type := MkObj {
  kind : obj_kind;
  props : list (string * jsval)
}.

Definition is_array (o : jsobj) : bool :=
  match kind o with
  | Array _ => true
  | _ => false
  end.

Abbreviation store := (list jsobj).

(** [!data] is false exactly on these. *)
Definition truthy (v : jsval) : bool :=
  match v with
  | VPrim PUndefined | VPrim PNull => false
  | VPrim (PBool b) => b
  | VPrim (PNum z) => negb (z =? 0)%Z
  | VPrim (PStr s) => negb (String.eqb s EmptyString)
  | VRef _ => true
  end.

(** [typeof data === "object"]. *)
Definition typeof_is_object (v : jsval) : bool :=
  match v with
  | VPrim PNull | VRef _ => true
  | VPrim _ => false
  end.

Definition is_secret_key (key : string) : bool :=
  String.eqb key "password" || String.eqb key "passwordHash".

(** [o[key]] for an own property, [delete o[key]] and [o[key] = v] for an
    existing key. *)
Definition obj_get (fields : list (string * jsval)) (key : string) : option jsval :=
  snd <$> find (fun kv => String.eqb (fst kv) key) fields.

Definition obj_delete (fields : list (string * jsval)) (key : string)
  : list (string * jsval) :=
  filter (fun kv => String.eqb (fst kv) key = false) fields.

Definition obj_set (fields : list (string * jsval)) (key : string) (v : jsval)
  : list (string * jsval) :=
  map (fun kv => if String.eqb (fst kv) key then (fst kv, v) else kv) fields.

Definition with_props (o : jsobj) (fields : list (string * jsval)) : jsobj :=
  MkObj (kind o) fields.

(** The property name of an array index: its decimal digits. *)
Definition index_key (i : nat) : string :=
  NilEmpty.string_of_uint (Nat.to_uint i).

(** [[...data]]: the array iterator reads [data[0]] to
    [data[length - 1]], a hole reads as [undefined], and the new array
    holds one element for each read.  The named properties of [data] are
    not read. *)
Definition spread_array (length : nat) (fields : list (string * jsval))
  : list (string * jsval) :=
  map (fun i => (index_key i, default (VPrim PUndefined) (obj_get fields (index_key i))))
      (seq 0 length).

(** [Array.isArray(data) ? [...data] : { ...data }]: a new array with the
    elements of [data], or a new plain object with the own enumerable
    properties of [data], whatever kind of object [data] is. *)
Definition spread (o : jsobj) : jsobj :=
  match kind o with
  | Array length => MkObj (Array length) (spread_array length (props o))
  | Plain | Other => MkObj Plain (props o)
  end.

(** The new object is allocated at the end of the store. *)
Definition clone (s : store) (o : jsobj) : store * nat :=
  (s ++ [spread o], length s).

(** One turn of the [for (const key in sanitized)] loop; [sanitized] is the
    clone at [l'], [recur] the recursive call at [depth + 1]. *)
Definition visit_key (recur : store -> jsval -> store * jsval) (l' : nat)
           (s : store) (key : string) : store :=
  match s !! l' with
  | Some sanitized =>
      match obj_get (props sanitized) key with
      | Some value =>
          if is_secret_key key then
            <[l' := with_props sanitized (obj_delete (props sanitized) key)]> s
          else if truthy value && typeof_is_object value then
            let '(s1, r) := recur s value in
            match s1 !! l' with
            | Some sanitized1 =>
                <[l' := with_props sanitized1 (obj_set (props sanitized1) key r)]> s1
            | None => s1
            end
          else s
      | None => s
      end
  | None => s
  end.

(** The body of [sanitizeInitialProps] with [levels] levels left before the
    depth limit: [levels = 0] is [depth > 10].  The loop runs over the
    keys of the clone. *)
Fixpoint sanitize_levels (levels : nat) (s : store) (data : jsval) : store * jsval :=
  match levels with
  | O => (s, data)
  | S levels' =>
      if negb (truthy data) || negb (typeof_is_object data) then (s, data)
      else
        match data with
        | VRef l =>
            match s !! l with
            | Some o =>
                let '(s0, l') := clone s o in
                let keys := map fst (props (spread o)) in
                (fold_left (visit_key (sanitize_levels levels') l') keys s0, VRef l')
            | None => (s, data)
            end
        | VPrim _ => (s, data)
        end
  end.

(** [sanitizeInitialProps(data, depth = 0)].  The depth counter of the
    source is the number of levels left: the test [depth > 10] holds
    exactly when [11 - depth] is zero, and [depth + 1] leaves one level
    less. *)
Definition sanitizeInitialProps (s : store) (data : jsval) (depth : nat)
  : store * jsval :=
  sanitize_levels (11 - depth) s data.

(** *** Metadata values *)

(** A value without identity, as the metadata records hold them. *)
Inductive tree : Type :=
| TPrim (p : prim)
| TNode (arr : bool) (fields : list (string * tree))
| TCut.

(** *** Reading a stored value *)

(** What a value looks like from the outside: every object with its kind
    and its fields. *)
Inductive snapshot : Type :=
| SPrim (p : prim)
| SObject (k : obj_kind) (fields : list (string * snapshot))
| SCut.

(** The value at [v], unfolded to [d] levels; deeper objects are cut. *)
Fixpoint reify (d : nat) (s : store) (v : jsval) : snapshot :=
  match v with
  | VPrim p => SPrim p
  | VRef l =>
      match d with
      | O => SCut
      | S d' =>
          match s !! l with
          | Some o => SObject (kind o) (map (fun kv => (fst kv, reify d' s (snd kv))) (props o))
          | None => SCut
          end
      end
  end.

(** The sanitizer as the specification words it, on snapshots: down to
    the depth limit every field named [password] or [passwordHash] is
    removed and every other field is kept, sanitized in turn; below the
    limit the value is returned as it is. *)
Fixpoint spec_sanitize (levels : nat) (t : snapshot) : snapshot :=
  match levels with
  | O => t
  | S levels' =>
      match t with
      | SObject k fields =>
          SObject k
            (map (fun kv => (fst kv, spec_sanitize levels' (snd kv)))
                 (filter (fun kv => is_secret_key (fst kv) = false) fields))
      | _ => t
      end
  end.

(** The field [key] of a snapshot. *)
Definition field_of (fields : list (string * snapshot)) (key : string) : option snapshot :=
  snd <$> find (fun kv => String.eqb (fst kv) key) fields.

(** What the spread of the source makes of an object, seen from the
    outside: of an array, the array of its [length] elements, [undefined]
    where there was a hole and without its named properties; of any other
    object, a plain object with the same fields. *)
Definition spread_snapshot (k : obj_kind) (fields : list (string * snapshot))
  : obj_kind * list (string * snapshot) :=
  match k with
  | Array length =>
      (Array length,
       map (fun i => (index_key i, default (SPrim PUndefined) (field_of fields (index_key i))))
           (seq 0 length))
  | Plain | Other => (Plain, fields)
  end.

(** What the sanitizer does, on snapshots: down to the depth limit every
    object is spread, every field of the spread that is named [password]
    or [passwordHash] is removed, every other one is kept and sanitized
    in turn. *)
Fixpoint spread_sanitize (levels : nat) (t : snapshot) : snapshot :=
  match levels with
  | O => t
  | S levels' =>
      match t with
      | SObject k fields =>
          SObject (fst (spread_snapshot k fields))
            (map (fun kv => (fst kv, spread_sanitize levels' (snd kv)))
                 (filter (fun kv => is_secret_key (fst kv) = false)
                         (snd (spread_snapshot k fields))))
      | _ => t
      end
  end.

(** The objects the two agree on: in the first [levels] levels every
    object is a plain object, or an array that holds exactly its
    elements: no hole and no named property. *)
Fixpoint plain_data (levels : nat) (t : snapshot) : Prop :=
  match levels with
  | O => True
  | S levels' =>
      match t with
      | SObject k fields =>
          match k with
          | Plain => True
          | Array length => map fst fields = map index_key (seq 0 length)
          | Other => False
          end /\
          (fix all (l : list (string * snapshot)) : Prop :=
             match l with
             | [] => True
             | kv :: l' => plain_data levels' (snd kv) /\ all l'
             end) fields
      | _ => True
      end
  end.

(** No secret field in the first [levels] levels of a snapshot. *)
Fixpoint secret_free (levels : nat) (t : snapshot) : Prop :=
  match levels with
  | O => True
  | S levels' =>
      match t with
      | SObject _ fields =>
          (fix all (l : list (string * snapshot)) : Prop :=
             match l with
             | [] => True
             | kv :: l' =>
                 is_secret_key (fst kv) = false /\ secret_free levels' (snd kv) /\ all l'
             end) fields
      | _ => True
      end
  end.

(** *** Well-formed stores *)

Definition val_ok (s : store) (v : jsval) : Prop :=
  match v with
  | VRef l => (l < length s)%nat
  | VPrim _ => True
  end.

(** Every reference points into the store and an object has each key once. *)
Definition store_wf (s : store) : Prop :=
  forall (l : nat) (o : jsobj),
    s !! l = Some o ->
    NoDup (map fst (props o)) /\ Forall (fun kv => val_ok s (snd kv)) (props o).

(** No object of the store holds a reference to [m]. *)
Definition unreferenced (s : store) (m : nat) : Prop :=
  forall (l : nat) (o : jsobj),
    s !! l = Some o -> Forall (fun kv => snd kv <> VRef m) (props o).

(** *** Vocabulary of the correctness proof *)

Definition not_secret (kv : string * jsval) : Prop := is_secret_key (fst kv) = false.

(** [kv'] is the field [kv] after sanitization with [n] levels left:
    the same key, and a value that reads as the sanitized original. *)
Definition field_sanitized (n : nat) (s s' : store) (kv kv' : string * jsval) : Prop :=
  fst kv' = fst kv /\
  forall d, reify d s' (snd kv') = spread_sanitize n (reify d s (snd kv)).

(** What a call with [n] levels left establishes: the store has only
    grown, it is still well formed, the result reads as the sanitized
    input, and no reference to an existing unreferenced object appeared. *)
Definition sanitized_result (n : nat) (s : store) (data : jsval)
           (res : store * jsval) : Prop :=
  exists ext,
    fst res = s ++ ext /\
    store_wf (s ++ ext) /\
    val_ok (s ++ ext) (snd res) /\
    (forall d, reify d (s ++ ext) (snd res) = spread_sanitize n (reify d s data)) /\
    (forall m, (m < length s)%nat -> unreferenced s m -> data <> VRef m ->
               unreferenced (s ++ ext) m /\ snd res <> VRef m).

(** The fields of a fresh clone hold values of the store [s] only. *)
Definition made_of (s : store) (c : jsobj) : Prop :=
  NoDup (map fst (props c)) /\
  Forall (fun kv => val_ok s (snd kv)) (props c) /\
  forall m, unreferenced s m -> Forall (fun kv => snd kv <> VRef m) (props c).

(** The state of the loop over the keys of the clone [c], when the
    fields [done_src] have been visited and [todo] are still to come. *)
Definition loop_inv (n : nat) (s : store) (c : jsobj)
           (done_src todo : list (string * jsval)) (cur : store) : Prop :=
  exists ext done,
    cur = s ++ ext /\
    cur !! length s = Some (with_props c (done ++ todo)) /\
    store_wf cur /\
    Forall2 (field_sanitized n s cur) (filter not_secret done_src) done /\
    (forall m, (m < length s)%nat -> unreferenced s m -> unreferenced cur m) /\
    unreferenced cur (length s).

End Sanitize.

(** ** Page names: [validatePageName] *)

Module PageName.

(** [haystack.includes(needle)] *)
Fixpoint includes (needle haystack : string) : bool :=
  if String.prefix needle haystack then true
  else
    match haystack with
    | String _ rest => includes needle rest
    | EmptyString => false
    end.

(** The class [[a-zA-Z0-9_-]] of [SAFE_PAGE_NAME_PATTERN]. *)
Definition is_safe_char (a : ascii) : bool :=
  let c := N_of_ascii a in
  ((97 <=? c) && (c <=? 122)) || ((65 <=? c) && (c <=? 90)) ||
  ((48 <=? c) && (c <=? 57)) || (c =? 95) || (c =? 45).

Fixpoint all_safe (s : string) : bool :=
  match s with
  | EmptyString => true
  | String a rest => is_safe_char a && all_safe rest
  end.

(** [SAFE_PAGE_NAME_PATTERN.test(pageName)]: the pattern is anchored at
    both ends and asks for one character of the class or more. *)
Definition SAFE_PAGE_NAME_PATTERN_test (pageName : string) : bool :=
  match pageName with
  | EmptyString => false
  | String _ _ => all_safe pageName
  end.

Definition validatePageName (pageName : string) : bool :=
  if includes ".." pageName || includes "/" pageName || includes "\" pageName
  then false
  else SAFE_PAGE_NAME_PATTERN_test pageName.

End PageName.

(** ** Metadata layers *)

Module Metadata.
Import Sanitize.

(** A metadata record: string keys, any value, [undefined] included
    ([TPrim PUndefined]). *)
Abbreviation metadata := (gmap string tree).

(** The object spread [{ ...a, ...b }]: the own properties of [a], then
    those of [b] over them. *)
Definition spread (a b : metadata) : metadata := b ∪ a.

(** [x || {}] for a record that may be missing. *)
Definition or_empty (x : option metadata) : metadata :=
  match x with
  | Some m => m
  | None => ∅
  end.

(** Step 6 of [intercept]:
    [{ ...(rootLayout?.metadata || {}), ...layoutMetadata,
       ...pageModule.metadata, ...controllerMetadata }]. *)
Definition merge_metadata (rootLayout layoutMetadata page controllerMetadata : metadata)
  : metadata :=
  spread (spread (spread (spread ∅ rootLayout) layoutMetadata) page) controllerMetadata.

(** The layer rule as the specification words it: the value of the last
    layer that defines the key. *)
Definition last_defined (layers : list metadata) (k : string) : option tree :=
  fold_left (fun acc layer => match layer !! k with Some v => Some v | None => acc end)
            layers None.

End Metadata.

(** ** The interceptor: state, effects and collaborators *)

Module Pipeline.
Import Sanitize Metadata PageName.

(** *** Thrown values *)

Inductive exn : Type :=
| JsError (message : string)                        (* an [Error] that is not a [NistError] *)
| NistError (message : string)                      (* [class NistError extends Error] *)
| RedirectException (url : string) (statusCode : Z) (* a plain class, not an [Error] *)
| ThrownValue (description : string).               (* anything else *)

Definition instanceof_Error (e : exn) : bool :=
  match e with
  | JsError _ | NistError _ => true
  | RedirectException _ _ | ThrownValue _ => false
  end.

Definition exn_message (e : exn) : string :=
  match e with
  | JsError m | NistError m => m
  | RedirectException url _ => ("Redirecting to " ++ url)%string
  | ThrownValue _ => EmptyString
  end.

(** *** Modules and cached artifacts *)

Definition component := string.

Record page_config : Type := MkConfig {
  revalidate : option Z          (* a truthy [revalidate], when there is one *)
}.

(** What [vite.ssrLoadModule] resolves to: the exports the interceptor
    reads. *)
Record ssr_module : Type := MkModule {
  mod_default : option component;
  mod_metadata : option metadata;
  mod_getMetadata : option (exn + metadata);   (* present when a function; what the call does *)
  mod_config : option page_config;
  mod_default_record : option metadata         (* the default export of a metadata file *)
}.

(** Objects have an identity: [cm_id] is fresh for every object built. *)
Record CachedModule : Type := MkCachedModule {
  cm_id : nat;
  cm_component : option component;
  cm_metadata : metadata;
  cm_config : page_config;
  cm_timestamp : Z
}.

Record CachedLayout : Type := MkCachedLayout {
  cl_id : nat;
  cl_component : option component;
  cl_metadata : metadata;
  cl_timestamp : Z
}.

(** [const CACHE_TTL = process.env.NODE_ENV === "production" ? Infinity : 10000] *)
Inductive ttl : Type :=
| Finite (ms : Z)
| Infinity.

Definition CACHE_TTL (production : bool) : ttl :=
  if production then Infinity else Finite 10000.

(** [elapsed < CACHE_TTL] *)
Definition within_ttl (elapsed : Z) (t : ttl) : bool :=
  match t with
  | Finite ms => (elapsed <? ms)%Z
  | Infinity => true
  end.

(** *** Requests and rendering *)

Record request : Type := MkRequest {
  req_params : jsval;
  req_query : jsval;
  req_path : string;
  req_url : string;
  req_host : string
}.

Record route_data : Type := MkRoute {
  rd_params : jsval;
  rd_query : jsval;
  rd_pathname : string;
  rd_searchParams : jsval
}.

Record hydration_data : Type := MkHydration {
  hd_props : jsval;
  hd_route : route_data;
  hd_page : string;
  hd_timestamp : Z
}.

(** The React elements the interceptor builds. *)
Inductive element : Type :=
| PageElement (page : component) (props : jsval)
| WrappedElement (Layout page : component) (props : jsval)
| AppElement (AppLayout : option component) (props : jsval) (children : element)
             (metaTags : metadata * string) (hydrationScripts : hydration_data)
             (md : metadata) (csrfToken : string).

(** The document handed to [transformIndexHtml]: the root layout's render
    after the doctype, or the built-in template with its holes. *)
Inductive tag : Type :=
| MetaName (name content : string)          (* a [meta] element with [name] and [content] *)
| MetaProperty (property content : string)  (* a [meta] element with [property] and [content] *)
| LinkRel (rel href : string).              (* a [link] element *)

Inductive html : Type :=
| LayoutDocument (rendered : string)
| FallbackDocument (charset viewport : tree) (title : string) (metaTags : list tag)
                   (appHtml : string) (hydration : hydration_data).

(** What the route handler returned, and the two reads the interceptor
    makes of it. *)
Record controller_result : Type := MkResult {
  cr_self : jsval;
  cr_data : option jsval;          (* [result?.data] when it is not [undefined] *)
  cr_metadata : option metadata    (* [result?.metadata] when it is truthy *)
}.

(** The execution context: what the reflector finds on the class and on
    the handler ([None] when the metadata is absent), and the request. *)
Record exec_context : Type := MkContext {
  pageRoot : option string;
  pageName : option string;
  hasPagesDir : option bool;
  customLayout : option string;
  req : request
}.

(** *** Effects *)

Inductive task : Type :=
| PageLoad
| NotFoundLoad
| NestedLayoutLoad
| RootLayoutLoad.

Inductive event : Type :=
| EvHandle                                  (* [next.handle()] *)
| EvExists (path : string)                  (* [existsSync] *)
| EvReaddir (path : string)                 (* [readdirSync] *)
| EvLoad (path : string)                    (* [vite.ssrLoadModule] *)
| EvImportDefaultNotFound                   (* [import("./default-not-found.js")] *)
| EvRender                                  (* [renderToString] *)
| EvTransform                               (* [vite.transformIndexHtml] *)
| EvStatus (code : Z)                       (* [res.status] *)
| EvSetHeader (name value : string)         (* [res.setHeader] *)
| EvEnd (body : string)                     (* [res.end] *)
| EvIssue (t : task)                        (* an asynchronous load is started *)
| EvJoin (ts : list task).                  (* [await]: the started loads are joined *)

Record caches : Type := MkCaches {
  MODULE_CACHE : gmap string CachedModule;
  LAYOUT_CACHE : gmap string CachedLayout;
  LAYOUT_DISCOVERY_CACHE : gmap string (option string);
  ROOT_LAYOUT_CACHE : gmap string CachedLayout
}.

Record response : Type := MkResponse {
  statusCode : Z;
  headers : gmap string string;
  sent : option (Z * string)       (* the status and body that went out *)
}.

Record state : Type := MkState {
  clock : Z;                       (* what [Date.now()] reads *)
  next_id : nat;
  cache : caches;
  heap : list jsobj;
  res : response;
  trace : list event               (* oldest first *)
}.

(** The collaborators, as the interceptor sees them.  The file system and
    the loader may answer differently as time passes. *)
Record env : Type := MkEnv {
  production : bool;
  existsSync : Z -> string -> bool;
  readdirSync : Z -> string -> exn + list string;
  ssrLoadModule : Z -> string -> exn + ssr_module;
  load_time : string -> Z;
  path_join : list string -> string;
  renderToString : element -> exn + string;
  transformIndexHtml : string -> html -> exn + string;
  randomBytes_hex : nat -> string;
  url_searchParams : string -> string -> exn + list (string * string)
}.

(** *** The monad of the interceptor: state that survives a throw *)

Definition M (A : Type) : Type := state -> (exn + A) * state.

#[export] Instance M_ret : MRet M := fun A (x : A) st => (inr x, st).

#[export] Instance M_bind : MBind M := fun A B (f : A -> M B) (c : M A) st =>
  match c st with
  | (inr x, st') => f x st'
  | (inl e, st') => (inl e, st')
  end.

Definition throw {A : Type} (e : exn) : M A := fun st => (inl e, st).

(** [try { c } catch (e) { ... }]: the outcome of [c] as a value. *)
Definition attempt {A : Type} (c : M A) : M (exn + A) := fun st =>
  match c st with
  | (r, st') => (inr r, st')
  end.

Definition settle {A : Type} (r : exn + A) : M A := fun st => (r, st).

Definition gets {A : Type} (f : state -> A) : M A := fun st => (inr (f st), st).

Definition modify (f : state -> state) : M unit := fun st => (inr tt, f st).

Definition with_clock (t : Z) (st : state) : state :=
  MkState t (next_id st) (cache st) (heap st) (res st) (trace st).

Definition with_next_id (n : nat) (st : state) : state :=
  MkState (clock st) n (cache st) (heap st) (res st) (trace st).

Definition with_cache (c : caches) (st : state) : state :=
  MkState (clock st) (next_id st) c (heap st) (res st) (trace st).

Definition with_heap (h : list jsobj) (st : state) : state :=
  MkState (clock st) (next_id st) (cache st) h (res st) (trace st).

Definition with_res (r : response) (st : state) : state :=
  MkState (clock st) (next_id st) (cache st) (heap st) r (trace st).

Definition with_trace (t : list event) (st : state) : state :=
  MkState (clock st) (next_id st) (cache st) (heap st) (res st) t.

Definition emit (e : event) : M unit :=
  modify (fun st => with_trace (trace st ++ [e]) st).

Definition Date_now : M Z := gets clock.

Definition fresh_id : M nat := fun st => (inr (next_id st), with_next_id (S (next_id st)) st).

Definition alloc (o : jsobj) : M jsval := fun st =>
  (inr (VRef (length (heap st))), with_heap (heap st ++ [o]) st).

(** *** The response object *)

Definition res_status (code : Z) : M unit :=
  emit (EvStatus code);;
  modify (fun st => with_res (MkResponse code (headers (res st)) (sent (res st))) st).

Definition res_setHeader (name value : string) : M unit :=
  emit (EvSetHeader name value);;
  modify (fun st =>
    with_res (MkResponse (statusCode (res st)) (<[name := value]> (headers (res st)))
                         (sent (res st))) st).

(** [res.end(body)] sends the body with the status the response holds at
    that moment. *)
Definition res_end (body : string) : M unit :=
  emit (EvEnd body);;
  modify (fun st =>
    with_res (MkResponse (statusCode (res st)) (headers (res st))
                         (Some (statusCode (res st), body))) st).

(** *** The collaborators, with their events *)

Section Collaborators.
Variable E : env.

Definition fs_existsSync (path : string) : M bool :=
  emit (EvExists path);;
  now ← Date_now;
  mret (existsSync E now path).

Definition fs_readdirSync (path : string) : M (list string) :=
  emit (EvReaddir path);;
  now ← Date_now;
  settle (readdirSync E now path).

(** [await this.vite.ssrLoadModule(path)]: time passes while the module
    loads. *)
Definition vite_ssrLoadModule (path : string) : M ssr_module :=
  emit (EvLoad path);;
  now ← Date_now;
  modify (fun st => with_clock (now + load_time E path)%Z st);;
  settle (ssrLoadModule E now path).

Definition react_renderToString (el : element) : M string :=
  emit EvRender;;
  settle (renderToString E el).

Definition vite_transformIndexHtml (url : string) (doc : html) : M string :=
  emit EvTransform;;
  settle (transformIndexHtml E url doc).

End Collaborators.

(** *** Postconditions *)

(** [Q] holds of every result [c] returns normally. *)
Definition returns {A : Type} (c : M A) (Q : A -> state -> Prop) : Prop :=
  forall st x st', c st = (inr x, st') -> Q x st'.

(** The response has gone out with status 200. *)
Definition sent_with_200 (_ : unit) (st : state) : Prop :=
  exists body, sent (res st) = Some (200%Z, body).

(** *** Strings *)

Fixpoint drop_chars (n : nat) (s : string) : string :=
  match n, s with
  | S n', String _ rest => drop_chars n' rest
  | _, _ => s
  end.

(** [s.replace(pattern, replacement)] with a string pattern: the first
    occurrence only. *)
Fixpoint replace_first (pattern replacement s : string) : string :=
  if String.prefix pattern s
  then (replacement ++ drop_chars (String.length pattern) s)%string
  else
    match s with
    | String c rest => String c (replace_first pattern replacement rest)
    | EmptyString => EmptyString
    end.

(** [s.endsWith(suffix)] *)
Fixpoint endsWith (suffix s : string) : bool :=
  if String.eqb s suffix then true
  else
    match s with
    | String _ rest => endsWith suffix rest
    | EmptyString => false
    end.

(** [url.split("?")[0]] *)
Fixpoint before_question (url : string) : string :=
  match url with
  | EmptyString => EmptyString
  | String c rest =>
      if Ascii.eqb c "?"%char then EmptyString else String c (before_question rest)
  end.

Definition is_empty (s : string) : bool :=
  match s with
  | EmptyString => true
  | String _ _ => false
  end.

(** [x || fallback] on strings: the empty string is falsy. *)
Definition or_string (x fallback : string) : string :=
  if is_empty x then fallback else x.

(** A string from the reflector is truthy when present and not empty. *)
Definition truthy_string (x : option string) : option string :=
  match x with
  | Some s => if is_empty s then None else Some s
  | None => None
  end.

Definition string_of_Z (z : Z) : string :=
  DecimalString.NilZero.string_of_int (Z.to_int z).

(** *** The loaders *)

Section Loaders.
Variable E : env.

Definition cache_fresh (now timestamp : Z) : bool :=
  within_ttl (now - timestamp) (CACHE_TTL (production E)).

(** [metadataModule.metadata || metadataModule.default || {}] *)
Definition metadata_export (metadataModule : ssr_module) : metadata :=
  match mod_metadata metadataModule with
  | Some md => md
  | None => or_empty (mod_default_record metadataModule)
  end.

(** The metadata of a module, written out three times in the source (page,
    nested layout, root layout): the companion file when it exists, a
    failure to load it giving the empty record; else [getMetadata()]; else
    the [metadata] export; else the empty record. *)
Definition resolve_metadata (metadataPath : string) (m : ssr_module) : M metadata :=
  found ← fs_existsSync E metadataPath;
  if (found : bool) then
    r ← attempt (vite_ssrLoadModule E metadataPath);
    match r : exn + ssr_module with
    | inr metadataModule => mret (metadata_export metadataModule)
    | inl _ => mret (∅ : metadata)
    end
  else
    match mod_getMetadata m with
    | Some call => settle call
    | None => mret (or_empty (mod_metadata m))
    end.

Definition set_MODULE_CACHE (key : string) (m : CachedModule) : M unit :=
  modify (fun st =>
    with_cache (MkCaches (<[key := m]> (MODULE_CACHE (cache st)))
                         (LAYOUT_CACHE (cache st))
                         (LAYOUT_DISCOVERY_CACHE (cache st))
                         (ROOT_LAYOUT_CACHE (cache st))) st).

Definition set_LAYOUT_CACHE (key : string) (m : CachedLayout) : M unit :=
  modify (fun st =>
    with_cache (MkCaches (MODULE_CACHE (cache st))
                         (<[key := m]> (LAYOUT_CACHE (cache st)))
                         (LAYOUT_DISCOVERY_CACHE (cache st))
                         (ROOT_LAYOUT_CACHE (cache st))) st).

Definition set_LAYOUT_DISCOVERY_CACHE (key : string) (found : option string) : M unit :=
  modify (fun st =>
    with_cache (MkCaches (MODULE_CACHE (cache st))
                         (LAYOUT_CACHE (cache st))
                         (<[key := found]> (LAYOUT_DISCOVERY_CACHE (cache st)))
                         (ROOT_LAYOUT_CACHE (cache st))) st).

Definition set_ROOT_LAYOUT_CACHE (key : string) (m : CachedLayout) : M unit :=
  modify (fun st =>
    with_cache (MkCaches (MODULE_CACHE (cache st))
                         (LAYOUT_CACHE (cache st))
                         (LAYOUT_DISCOVERY_CACHE (cache st))
                         (<[key := m]> (ROOT_LAYOUT_CACHE (cache st)))) st).

(** [loadPageModule(pagePath)] *)
Definition loadPageModule (pagePath : string) : M CachedModule :=
  cached ← gets (fun st => MODULE_CACHE (cache st) !! pagePath);
  now ← Date_now;
  let reload : M CachedModule :=
    pageModule ← vite_ssrLoadModule E pagePath;
    md ← resolve_metadata (replace_first ".page.tsx" ".metadata.ts" pagePath) pageModule;
    timestamp ← Date_now;
    id ← fresh_id;
    let cachedModule :=
      MkCachedModule id (mod_default pageModule) md
                     (default (MkConfig None) (mod_config pageModule)) timestamp in
    set_MODULE_CACHE pagePath cachedModule;;
    mret cachedModule in
  match cached with
  | Some c => if cache_fresh now (cm_timestamp c) then mret c else reload
  | None => reload
  end.

Definition default_not_found_metadata : metadata :=
  {[ "title" := TPrim (PStr "404 - Page Not Found");
     "description" := TPrim (PStr "The page you are looking for does not exist.");
     "robots" := TPrim (PStr "noindex, nofollow") ]}.

(** The default export of [default-not-found.tsx]. *)
Definition DefaultNotFound : component := "DefaultNotFound".

(** [loadNotFoundPage(sourcePath)] *)
Definition loadNotFoundPage (sourcePath : string) : M CachedModule :=
  let cacheKey := (sourcePath ++ ":not-found")%string in
  cached ← gets (fun st => MODULE_CACHE (cache st) !! cacheKey);
  now ← Date_now;
  let build : M CachedModule :=
    let customNotFoundPath := path_join E [sourcePath; "not-found.page.tsx"] in
    custom ← attempt (
      customModule ← vite_ssrLoadModule E customNotFoundPath;
      let metadataPath := path_join E [sourcePath; "not-found.metadata.ts"] in
      found ← fs_existsSync E metadataPath;
      md ← (if (found : bool) then
              r ← attempt (vite_ssrLoadModule E metadataPath);
              match r : exn + ssr_module with
              | inr metadataModule =>
                  mret (spread default_not_found_metadata (metadata_export metadataModule))
              | inl _ => mret default_not_found_metadata
              end
            else mret default_not_found_metadata);
      mret (mod_default (customModule : ssr_module), (md : metadata)));
    picked ← match custom : exn + (option component * metadata) with
             | inr x => mret x
             | inl _ =>
                 emit EvImportDefaultNotFound;;
                 mret (Some DefaultNotFound, default_not_found_metadata)
             end;
    timestamp ← Date_now;
    id ← fresh_id;
    let cachedModule :=
      MkCachedModule id (fst (picked : option component * metadata)) (snd picked)
                     (MkConfig None) timestamp in
    set_MODULE_CACHE cacheKey cachedModule;;
    mret cachedModule in
  match cached with
  | Some c => if cache_fresh now (cm_timestamp c) then mret c else build
  | None => build
  end.

(** [loadRootLayout(sourcePath)] *)
Definition loadRootLayout (sourcePath : string) : M (option CachedLayout) :=
  cached ← gets (fun st => ROOT_LAYOUT_CACHE (cache st) !! sourcePath);
  now ← Date_now;
  let load : M (option CachedLayout) :=
    let rootLayoutPath := path_join E [sourcePath; "app.layout.tsx"] in
    found ← fs_existsSync E rootLayoutPath;
    if negb found then mret None
    else
      r ← attempt (
        layoutModule ← vite_ssrLoadModule E rootLayoutPath;
        md ← resolve_metadata (path_join E [sourcePath; "app.metadata.ts"]) layoutModule;
        timestamp ← Date_now;
        id ← fresh_id;
        let cachedLayout :=
          MkCachedLayout id (mod_default (layoutModule : ssr_module)) md timestamp in
        set_ROOT_LAYOUT_CACHE sourcePath cachedLayout;;
        mret cachedLayout);
      match r : exn + CachedLayout with
      | inr cachedLayout => mret (Some cachedLayout)
      | inl _ => mret None
      end in
  match cached with
  | Some c => if cache_fresh now (cl_timestamp c) then mret (Some c) else load
  | None => load
  end.

(** The first file that ends in [.layout.tsx] and is not the root layout. *)
Definition discover_layout (files : list string) : option string :=
  find (fun f => endsWith ".layout.tsx" f && negb (String.eqb f "app.layout.tsx")) files.

(** [loadLayout(sourcePath, customLayout)] *)
Definition loadLayout (sourcePath : string) (customLayout : option string)
  : M (option CachedLayout) :=
  let cacheKey :=
    (sourcePath ++ ":" ++ default "auto" (truthy_string customLayout))%string in
  cached ← gets (fun st => LAYOUT_CACHE (cache st) !! cacheKey);
  now ← Date_now;
  let load : M (option CachedLayout) :=
    layoutPath ←
      match truthy_string customLayout with
      | Some name => mret (Some (path_join E [sourcePath; (name ++ ".layout.tsx")%string]))
      | None =>
          discoveredPath ← gets (fun st => LAYOUT_DISCOVERY_CACHE (cache st) !! sourcePath);
          match discoveredPath : option (option string) with
          | Some known => mret known
          | None =>
              r ← attempt (fs_readdirSync E sourcePath);
              match r : exn + list string with
              | inr files =>
                  let layoutPath :=
                    match truthy_string (discover_layout files) with
                    | Some layoutFile => Some (path_join E [sourcePath; layoutFile])
                    | None => None
                    end in
                  set_LAYOUT_DISCOVERY_CACHE sourcePath layoutPath;;
                  mret layoutPath
              | inl _ =>
                  set_LAYOUT_DISCOVERY_CACHE sourcePath None;;
                  mret None
              end
          end
      end;
    match truthy_string layoutPath with
    | None => mret None
    | Some path =>
        found ← fs_existsSync E path;
        if negb found then mret None
        else
          layoutModule ← vite_ssrLoadModule E path;
          md ← resolve_metadata (replace_first ".layout.tsx" ".metadata.ts" path) layoutModule;
          timestamp ← Date_now;
          id ← fresh_id;
          let cachedLayout :=
            MkCachedLayout id (mod_default (layoutModule : ssr_module)) md timestamp in
          set_LAYOUT_CACHE cacheKey cachedLayout;;
          mret (Some cachedLayout)
    end in
  match cached with
  | Some c => if cache_fresh now (cl_timestamp c) then mret (Some c) else load
  | None => load
  end.

End Loaders.

(** *** Meta tags of the fallback template *)

(** [HTML_ESCAPE_MAP], applied by [escapeHtml] to every character of the
    class of [HTML_ESCAPE_REGEX]. *)
Definition escape_char (c : ascii) : string :=
  let n := N_of_ascii c in
  if n =? 38 then "&amp;"
  else if n =? 60 then "&lt;"
  else if n =? 62 then "&gt;"
  else if n =? 34 then "&quot;"
  else if n =? 39 then "&#x27;"
  else if n =? 47 then "&#x2F;"
  else String c EmptyString.

Fixpoint escapeHtml (text : string) : string :=
  match text with
  | EmptyString => EmptyString
  | String c rest => (escape_char c ++ escapeHtml rest)%string
  end.

Definition truthy_tree (v : tree) : bool :=
  match v with
  | TPrim p => truthy (VPrim p)
  | TNode _ _ | TCut => true
  end.

(** [m[key]] when it is truthy. *)
Definition truthy_field (m : metadata) (key : string) : option tree :=
  match m !! key with
  | Some v => if truthy_tree v then Some v else None
  | None => None
  end.

(** [this.escapeHtml(v)] on a value read from metadata: only a string has
    a [replace] method that does what the code expects. *)
Definition escapeHtml_value (v : tree) : exn + string :=
  match v with
  | TPrim (PStr text) => inr (escapeHtml text)
  | _ => inl (JsError "text.replace is not a function")
  end.

(** [if (v) tags.push(... this.escapeHtml(v) ...)] *)
Definition push_tag (mk : string -> tag) (v : option tree) (tags : list tag)
  : exn + list tag :=
  match v with
  | Some x =>
      match escapeHtml_value x with
      | inr content => inr (tags ++ [mk content])
      | inl e => inl e
      end
  | None => inr tags
  end.

Definition sub_field (v : tree) (key : string) : option tree :=
  match v with
  | TNode _ fields =>
      match find (fun kv => String.eqb (fst kv) key) fields with
      | Some kv => if truthy_tree (snd kv) then Some (snd kv) else None
      | None => None
      end
  | _ => None
  end.

Definition push_all (steps : list (list tag -> exn + list tag)) (tags : list tag)
  : exn + list tag :=
  fold_left (fun acc step => match acc with inr t => step t | inl e => inl e end)
            steps (inr tags).

(** [buildMetaTags(mergedMetadata, csrfToken)] *)
Definition buildMetaTags (mergedMetadata : metadata) (csrfToken : string)
  : exn + list tag :=
  let top key := truthy_field mergedMetadata key in
  let og key := match top "openGraph" with Some o => sub_field o key | None => None end in
  let tw key := match top "twitter" with Some t => sub_field t key | None => None end in
  match
    push_all
      [ push_tag (MetaName "description") (top "description");
        push_tag (MetaName "keywords") (top "keywords");
        push_tag (MetaName "author") (top "author");
        push_tag (MetaName "robots") (top "robots");
        push_tag (LinkRel "canonical") (top "canonical");
        push_tag (MetaProperty "og:title") (og "title");
        push_tag (MetaProperty "og:description") (og "description");
        push_tag (MetaProperty "og:image") (og "image");
        push_tag (MetaProperty "og:url") (og "url");
        push_tag (MetaProperty "og:type") (og "type");
        push_tag (MetaName "twitter:card") (tw "card");
        push_tag (MetaName "twitter:site") (tw "site");
        push_tag (MetaName "twitter:creator") (tw "creator");
        push_tag (MetaName "twitter:title") (tw "title");
        push_tag (MetaName "twitter:description") (tw "description");
        push_tag (MetaName "twitter:image") (tw "image") ]
      []
  with
  | inr tags => inr (tags ++ [MetaName "csrf-token" csrfToken])
  | inl e => inl e
  end.

(** *** [intercept] *)

Definition SECURITY_HEADERS : list (string * string) :=
  [ ("Content-Security-Policy",
     "default-src 'self'; script-src 'self' 'unsafe-inline' 'unsafe-eval'; style-src 'self' 'unsafe-inline'; img-src 'self' data: https:; font-src 'self' data:; connect-src 'self' ws: wss:; worker-src 'self' blob:; frame-ancestors 'none'");
    ("X-Frame-Options", "DENY");
    ("X-Content-Type-Options", "nosniff");
    ("X-XSS-Protection", "1; mode=block");
    ("Referrer-Policy", "strict-origin-when-cross-origin");
    ("Permissions-Policy", "geolocation=(), microphone=(), camera=()") ]%string.

Fixpoint setHeaders (hs : list (string * string)) : M unit :=
  match hs with
  | [] => mret tt
  | (name, value) :: rest => res_setHeader name value;; setHeaders rest
  end.

Definition setSecurityHeaders : M unit := setHeaders SECURITY_HEADERS.

(** [o[key] = v] on a property list: in place for an existing key, at the
    end for a new one. *)
Definition obj_assign (fields : list (string * jsval)) (key : string) (v : jsval)
  : list (string * jsval) :=
  if existsb (fun kv => String.eqb (fst kv) key) fields
  then obj_set fields key v
  else fields ++ [(key, v)].

(** The own enumerable properties a spread copies. *)
Definition own_props (h : list jsobj) (v : jsval) : list (string * jsval) :=
  match v with
  | VRef l =>
      match h !! l with
      | Some o => props o
      | None => []
      end
  | VPrim (PStr text) =>
      imap (fun i c => (string_of_Z (Z.of_nat i), VPrim (PStr (String c EmptyString))))
           (list_ascii_of_string text)
  | VPrim _ => []
  end.

(** The result of the interceptor, before anyone subscribes. *)
Inductive observable : Type :=
| HandlerObservable                                  (* [next.handle()] itself *)
| Piped (callback : controller_result -> M unit).    (* [next.handle().pipe(switchMap(callback))] *)

Inductive interception : Type :=
| Throws (e : exn)
| Returns (o : observable).

(** What a subscriber of the returned observable sees. *)
Inductive outcome : Type :=
| Emits (value : option controller_result)   (* [None] is [undefined] *)
| Errors (e : exn).

Section Interceptor.
Variable E : env.

Definition generateCSRFToken : M string :=
  n ← fresh_id;
  mret (randomBytes_hex E n).

(** [x || {}] on a request field. *)
Definition or_empty_object (v : jsval) : M jsval :=
  if truthy v then mret v else alloc (MkObj Plain []).

(** [routePool.acquire(req)].  The pool recycles only the container; the
    four fields are assigned on every acquire. *)
Definition extractRouteParams (r : request) : M route_data :=
  params ← or_empty_object (req_params r);
  query ← or_empty_object (req_query r);
  let pathname := or_string (or_string (req_path r) (before_question (req_url r))) "/" in
  entries ← settle (url_searchParams E (or_string (req_url r) "/")
                      ("http://" ++ or_string (req_host r) "localhost")%string);
  searchParams ←
    alloc (MkObj Plain
             (fold_left (fun acc kv => obj_assign acc (fst kv) (VPrim (PStr (snd kv))))
                        (entries : list (string * string)) []));
  mret (MkRoute params query pathname searchParams).

Definition sanitize_in_heap (data : jsval) : M jsval := fun st =>
  let '(h, r) := sanitizeInitialProps (heap st) data 0 in
  (inr r, with_heap h st).

(** The callback of [switchMap], without its [try] and [catch]. *)
Definition render_body (root name : string) (ctx : exec_context)
           (result : controller_result) : M unit :=
  (* 1. route data *)
  routeData ← extractRouteParams (req ctx);
  (* 2. data and metadata of the controller response *)
  let controllerData := default (cr_self result) (cr_data result) in
  let controllerMetadata := or_empty (cr_metadata result) in
  h ← gets heap;
  enrichedResult ←
    alloc (MkObj Plain
             (obj_assign
                (obj_assign
                   (obj_assign
                      (obj_assign (own_props h controllerData)
                                  "params" (rd_params routeData))
                      "query" (rd_query routeData))
                   "pathname" (VPrim (PStr (rd_pathname routeData))))
                "searchParams" (rd_searchParams routeData)));
  (* 3. paths *)
  let candidate :=
    if includes "/dist/" root then replace_first "/dist/src" "/src/" root else root in
  found ← fs_existsSync E candidate;
  let sourcePath := if (found : bool) then candidate else replace_first "/dist/" "/" root in
  let pagesDir := match hasPagesDir ctx with Some true => true | _ => false end in
  let pagesSubdir := if pagesDir then "pages"%string else EmptyString in
  let pagePath := path_join E [sourcePath; pagesSubdir; (name ++ ".page.tsx")%string] in
  (* 4. the page module is awaited first ... *)
  emit (EvIssue PageLoad);;
  loaded ← attempt (loadPageModule E pagePath);
  emit (EvJoin [PageLoad]);;
  found_page ←
    match loaded : exn + CachedModule with
    | inr m => mret (m, false)
    | inl _ =>
        res_status 404;;
        emit (EvIssue NotFoundLoad);;
        m ← loadNotFoundPage E sourcePath;
        emit (EvJoin [NotFoundLoad]);;
        mret (m, true)
    end;
  let pageModule := fst (found_page : CachedModule * bool) in
  let isNotFound := snd found_page in
  (*    ... then [Promise.all] starts the two layout loads and joins them.
        The two loads work on different caches; the model runs the first
        to its end before the second, and reports a rejection at the join. *)
  nested ←
    (if pagesDir
     then emit (EvIssue NestedLayoutLoad);;
          attempt (loadLayout E sourcePath (customLayout ctx))
     else mret (inr None));
  emit (EvIssue RootLayoutLoad);;
  rootLoaded ← attempt (loadRootLayout E sourcePath);
  emit (EvJoin [NestedLayoutLoad; RootLayoutLoad]);;
  cachedLayout ← settle (nested : exn + option CachedLayout);
  rootLayout ← settle (rootLoaded : exn + option CachedLayout);
  match cm_component pageModule with
  | None =>
      throw (NistError
               (if isNotFound
                then "No default export found in not-found.page.tsx"
                else "No default export found in " ++ name ++ ".page.tsx")%string)
  | Some page =>
      match revalidate (cm_config pageModule) with
      | Some seconds =>
          res_setHeader "Cache-Control"
            ("s-maxage=" ++ string_of_Z seconds ++ ", stale-while-revalidate")%string
      | None => mret tt
      end;;
      (* 5. layout wrapper *)
      let layoutMetadata :=
        match cachedLayout : option CachedLayout with
        | Some l => cl_metadata l
        | None => ∅
        end in
      let WrappedComponent (props : jsval) : element :=
        match cachedLayout with
        | Some l =>
            match cl_component l with
            | Some Layout => WrappedElement Layout page props
            | None => PageElement page props
            end
        | None => PageElement page props
        end in
      (* 6. metadata: root layout, nested layout, page, controller *)
      let mergedMetadata :=
        merge_metadata
          (match rootLayout : option CachedLayout with
           | Some r => cl_metadata r
           | None => ∅
           end)
          layoutMetadata (cm_metadata pageModule) controllerMetadata in
      csrfToken ← generateCSRFToken;
      (* 7. hydration data *)
      sanitizedProps ← sanitize_in_heap enrichedResult;
      timestamp ← Date_now;
      let hydrationData := MkHydration sanitizedProps routeData name timestamp in
      (* 8. page content *)
      let pageContent := WrappedComponent enrichedResult in
      doc ←
        match rootLayout with
        | Some r =>
            let AppLayout := cl_component r in
            rendered ←
              react_renderToString E
                (AppElement AppLayout enrichedResult pageContent
                            (mergedMetadata, csrfToken) hydrationData
                            mergedMetadata csrfToken);
            mret (LayoutDocument rendered)
        | None =>
            metaTags ← settle (buildMetaTags mergedMetadata csrfToken);
            appHtml ← react_renderToString E pageContent;
            let charset := default (TPrim (PStr "UTF-8")) (truthy_field mergedMetadata "charset") in
            let viewport :=
              default (TPrim (PStr "width=device-width, initial-scale=1.0"))
                      (truthy_field mergedMetadata "viewport") in
            title ←
              settle (escapeHtml_value
                        (default (TPrim (PStr name)) (truthy_field mergedMetadata "title")));
            mret (FallbackDocument charset viewport title metaTags appHtml hydrationData)
        end;
      (* 9. transform *)
      transformed ← vite_transformIndexHtml E (req_url (req ctx)) doc;
      (* 10. headers and send *)
      setSecurityHeaders;;
      res_setHeader "Content-Type" "text/html";;
      res_status 200;;
      res_end transformed
  end.

(** The callback of [switchMap]: whatever the body throws is replaced by a
    [NistError]. *)
Definition render_callback (root name : string) (ctx : exec_context)
           (result : controller_result) : M unit :=
  r ← attempt (render_body root name ctx result);
  match r : exn + unit with
  | inr _ => mret tt
  | inl err =>
      throw (NistError (if instanceof_Error err then exn_message err
                        else "SSR rendering failed"))
  end.

(** [intercept(context, next)], up to the observable it returns. *)
Definition intercept (ctx : exec_context) : interception :=
  match truthy_string (pageRoot ctx), truthy_string (pageName ctx) with
  | Some root, Some name =>
      if negb (validatePageName name) then
        Throws (NistError ("Invalid page name: " ++ name ++
                           ". Only alphanumeric characters, hyphens, and underscores are allowed.")%string)
      else Returns (Piped (render_callback root name ctx))
  | _, _ => Returns HandlerObservable
  end.

(** Subscribing to an observable, given what the route handler delivers.
    [switchMap] runs its callback on a value and lets an error of the
    source through. *)
Definition subscribe (o : observable) (handler : exn + controller_result)
  : state -> outcome * state :=
  fun st =>
    match (emit EvHandle) st with
    | (_, st0) =>
        match o, handler with
        | HandlerObservable, inr v => (Emits (Some v), st0)
        | HandlerObservable, inl e => (Errors e, st0)
        | Piped _, inl e => (Errors e, st0)
        | Piped callback, inr v =>
            match callback v st0 with
            | (inr _, st1) => (Emits None, st1)
            | (inl e, st1) => (Errors e, st1)
            end
        end
    end.

(** One request through the interceptor. *)
Definition handle_request (ctx : exec_context) (handler : exn + controller_result)
  : state -> outcome * state :=
  fun st =>
    match intercept ctx with
    | Throws e => (Errors e, st)
    | Returns o => subscribe o handler st
    end.

End Interceptor.

End Pipeline.

(** ** Scenarios: concrete collaborators and requests *)

Module Scenario.
Import Units Json Sanitize Metadata Pipeline Client.

(** A [path.join] for the scenarios: the segments that are not empty,
    separated by a slash. *)
Fixpoint join_slash (parts : list string) : string :=
  match parts with
  | [] => EmptyString
  | p :: rest =>
      if is_empty p then join_slash rest
      else if is_empty (join_slash rest) then p
      else (p ++ "/" ++ join_slash rest)%string
  end.

Definition is_robots_tag (t : tag) : bool :=
  match t with
  | MetaName name content =>
      String.eqb name "robots" && String.eqb content "noindex, nofollow"
  | _ => false
  end.

(** A transform that keeps what the checks below look at: the title of
    the fallback document and whether it carries the robots tag. *)
Definition describe_document (doc : html) : string :=
  match doc with
  | LayoutDocument rendered => rendered
  | FallbackDocument _ _ title metaTags appHtml _ =>
      (title ++ " | " ++ appHtml ++
       (if existsb is_robots_tag metaTags then " | robots: noindex, nofollow" else EmptyString))%string
  end.

Definition render_name (el : element) : string :=
  match el with
  | PageElement page _ => page
  | WrappedElement Layout page _ => (Layout ++ "(" ++ page ++ ")")%string
  | AppElement AppLayout _ _ _ _ _ _ => default "undefined"%string AppLayout
  end.

(** A source tree given as the modules it holds: a path exists exactly
    when it has a module. *)
Definition env_of_files (files : list (string * ssr_module)) (prod : bool) : env :=
  let module_at (path : string) : option ssr_module :=
    snd <$> find (fun f => String.eqb (fst f) path) files in
  MkEnv prod
        (fun _ path => match module_at path with Some _ => true | None => false end)
        (fun _ _ => inl (JsError "ENOENT"))
        (fun _ path =>
           match module_at path with
           | Some m => inr m
           | None => inl (JsError "Failed to load module")
           end)
        (fun _ => 5%Z)
        join_slash
        (fun el => inr (render_name el))
        (fun _ doc => inr (describe_document doc))
        (fun _ => "00ff"%string)
        (fun _ _ => inr []).

Definition empty_caches : caches := MkCaches ∅ ∅ ∅ ∅.

(** A process that just started, with a request about to be answered:
    the response holds the default status. *)
Definition initial_state : state :=
  MkState 1000%Z 0%nat empty_caches [] (MkResponse 200%Z ∅ None) [].

Definition plain_request (url : string) : request :=
  MkRequest (VPrim PUndefined) (VPrim PUndefined) url url "localhost".

(** A handler that returns [undefined]. *)
Definition no_result : controller_result :=
  MkResult (VPrim PUndefined) None None.

Definition page_context (root name : string) (pagesDir : bool) (url : string)
  : exec_context :=
  MkContext (Some root) (Some name) (Some pagesDir) None (plain_request url).

Definition is_status_event (e : event) : bool :=
  match e with EvStatus _ => true | _ => false end.

Definition is_schedule_event (e : event) : bool :=
  match e with EvIssue _ | EvJoin _ => true | _ => false end.

Definition is_load_event (e : event) : bool :=
  match e with EvLoad _ => true | _ => false end.

Definition is_io_event (e : event) : bool :=
  match e with
  | EvExists _ | EvReaddir _ | EvLoad _ | EvImportDefaultNotFound => true
  | _ => false
  end.

Definition status_events (tr : list event) : list event := List.filter is_status_event tr.

Definition schedule_events (tr : list event) : list event := List.filter is_schedule_event tr.

Definition load_events (tr : list event) : list event := List.filter is_load_event tr.

Definition io_events (tr : list event) : list event := List.filter is_io_event tr.

(** Every event [c] appends to the trace is accepted by [ok]. *)
Definition emits_only {A : Type} (ok : event -> bool) (c : M A) : Prop :=
  forall st r st', c st = (r, st') ->
    exists evs, trace st' = trace st ++ evs /\ forallb ok evs = true.

Definition not_schedule_event (e : event) : bool := negb (is_schedule_event e).

Definition any_event (_ : event) : bool := true.

(** The schedule of one request: nothing was started, or the load of the
    page was started and joined before any other load was started. *)
Definition page_load_first (evs : list event) : Prop :=
  schedule_events evs = [] \/
  exists rest, schedule_events evs = EvIssue PageLoad :: EvJoin [PageLoad] :: rest.

Definition schedules_page_first {A : Type} (c : M A) : Prop :=
  forall st r st', c st = (r, st') ->
    exists evs, trace st' = trace st ++ evs /\ page_load_first evs.

(** A page component with no metadata of its own. *)
Definition simple_page (name : component) : ssr_module :=
  MkModule (Some name) None None None None.

(** A render that performs a redirect by throwing. *)
Definition redirecting_env : env :=
  let base := env_of_files [("/app/src/home.page.tsx"%string, simple_page "Home")] false in
  MkEnv (production base) (existsSync base) (readdirSync base) (ssrLoadModule base)
        (load_time base) (path_join base)
        (fun _ => inl (RedirectException "/login" 302))
        (transformIndexHtml base) (randomBytes_hex base) (url_searchParams base).

(** A module whose [getMetadata] performs a redirect by throwing. *)
Definition guarded_module (name : component) : ssr_module :=
  MkModule (Some name) None (Some (inl (RedirectException "/login" 302))) None None.

(** Such a module as the page ... *)
Definition guarded_page_env : env :=
  env_of_files [("/app/src/home.page.tsx"%string, guarded_module "Home")] false.

(** ... and as the root layout of a plain page. *)
Definition guarded_root_layout_env : env :=
  env_of_files [ ("/app/src/home.page.tsx"%string, simple_page "Home");
                 ("/app/src/app.layout.tsx"%string, guarded_module "App") ] false.

End Scenario.

(** ** Scenarios for the cache *)

Module CacheScenario.
Import Sanitize Metadata PageName Pipeline Scenario.

(** A page with a companion metadata file. *)
Definition home_with_companion : env :=
  env_of_files
    [ ("/app/src/home.page.tsx"%string, simple_page "Home");
      ("/app/src/home.metadata.ts"%string,
       MkModule None (Some {[ "title"%string := TPrim (PStr "Home") ]}) None None None) ]
    false.

Definition cached_home : CachedModule :=
  MkCachedModule 0 (Some "Home"%string) ∅ (MkConfig None) 1000.

(** A development process whose cache holds the page since time 1000. *)
Definition state_at (now : Z) : state :=
  MkState now 1%nat
          (MkCaches {[ "/app/src/home.page.tsx"%string := cached_home ]} ∅ ∅ ∅)
          [] (MkResponse 200%Z ∅ None) [].

End CacheScenario.

(** ** An engine for the examples

    The examples hold no other numbers than a timestamp and a few small
    integers.  The engine they run on has the numbers that every engine
    writes with all their digits and reads back from them: the safe
    integers, those of magnitude at most 2^53 - 1, with [-0] beside them;
    [NaN] stands for every other number.  It has no fractions: a literal
    that is not a safe integer reads as [NaN] here, and no example holds
    one. *)

Module SmallEngine.
Import Units Json.

Definition is_safe (z : Z) : bool := (Z.abs z <=? 9007199254740991)%Z.

Inductive small_number : Type :=
| NegativeZero
| SafeInteger (z : Z) (safe : Is_true (is_safe z))
| NaN.

(** The number of an integer literal of the examples. *)
Definition small_integer (z : Z) : small_number :=
  match decide (Is_true (is_safe z)) with
  | left safe => SafeInteger z safe
  | right _ => NaN
  end.

Definition small_isFinite (x : small_number) : bool :=
  match x with
  | NegativeZero | SafeInteger _ _ => true
  | NaN => false
  end.

(** [ToBoolean]: false on the two zeros and on [NaN]. *)
Definition small_toBoolean (x : small_number) : bool :=
  match x with
  | NegativeZero | NaN => false
  | SafeInteger z _ => negb (z =? 0)%Z
  end.

Definition digit_unit (d : N) : N := 48 + d.

Fixpoint uint_units (u : Decimal.uint) : ustring :=
  match u with
  | Decimal.Nil => []
  | Decimal.D0 u' => digit_unit 0 :: uint_units u'
  | Decimal.D1 u' => digit_unit 1 :: uint_units u'
  | Decimal.D2 u' => digit_unit 2 :: uint_units u'
  | Decimal.D3 u' => digit_unit 3 :: uint_units u'
  | Decimal.D4 u' => digit_unit 4 :: uint_units u'
  | Decimal.D5 u' => digit_unit 5 :: uint_units u'
  | Decimal.D6 u' => digit_unit 6 :: uint_units u'
  | Decimal.D7 u' => digit_unit 7 :: uint_units u'
  | Decimal.D8 u' => digit_unit 8 :: uint_units u'
  | Decimal.D9 u' => digit_unit 9 :: uint_units u'
  end.

(** [Number::toString] on a safe integer: an optional minus sign and the
    decimal digits, without leading zeros. *)
Definition integer_to_string (z : Z) : ustring :=
  if (z <? 0)%Z then MINUS :: uint_units (N.to_uint (Z.to_N (- z)))
  else uint_units (N.to_uint (Z.to_N z)).

(** [Number::toString]: [-0] is written as [0]. *)
Definition small_toString (x : small_number) : ustring :=
  match x with
  | NegativeZero => [48]
  | SafeInteger z _ => integer_to_string z
  | NaN => of_ascii_string "NaN"
  end.

Definition digit_of (c : N) : option (Decimal.uint -> Decimal.uint) :=
  if c =? 48 then Some Decimal.D0
  else if c =? 49 then Some Decimal.D1
  else if c =? 50 then Some Decimal.D2
  else if c =? 51 then Some Decimal.D3
  else if c =? 52 then Some Decimal.D4
  else if c =? 53 then Some Decimal.D5
  else if c =? 54 then Some Decimal.D6
  else if c =? 55 then Some Decimal.D7
  else if c =? 56 then Some Decimal.D8
  else if c =? 57 then Some Decimal.D9
  else None.

(** The longest run of decimal digits at the head of [s]. *)
Fixpoint read_digits (s : ustring) : Decimal.uint * ustring :=
  match s with
  | c :: t =>
      match digit_of c with
      | Some d => let '(u, r) := read_digits t in (d u, r)
      | None => (Decimal.Nil, s)
      end
  | [] => (Decimal.Nil, [])
  end.

(** The value of a text that is digits and nothing else. *)
Definition digits_value (t : ustring) : option N :=
  match read_digits t with
  | (Decimal.Nil, _) => None
  | (u, []) => Some (N.of_uint u)
  | (_, _ :: _) => None
  end.

(** The value of a literal: [-0] for a zero with a minus sign, the safe
    integer of an integer literal. *)
Definition small_of_literal (t : ustring) : small_number :=
  match t with
  | c :: r =>
      if c =? MINUS then
        match digits_value r with
        | Some n => if n =? 0 then NegativeZero else small_integer (- Z.of_N n)
        | None => NaN
        end
      else
        match digits_value t with
        | Some n => small_integer (Z.of_N n)
        | None => NaN
        end
  | [] => NaN
  end.

#[export] Instance small_engine : Engine :=
  MkEngine small_number small_isFinite small_toBoolean small_toString small_of_literal
           NegativeZero.

End SmallEngine.

(** ** Scenarios for the codec, the sanitizer and the client *)

Module DataScenario.
Import Units Json Codec Parser Sanitize Metadata Client SmallEngine.

Definition ustr (s : string) : ustring := of_ascii_string s.

Definition empty_object : json := JObj [].

(** The hydration payload of a first load of the page [home]. *)
Definition home_payload : json :=
  JObj [ (ustr "props", JObj [(ustr "user", JStr (ustr "ann"))]);
         (ustr "route",
          JObj [ (ustr "params", empty_object);
                 (ustr "query", empty_object);
                 (ustr "pathname", JStr (ustr "/"));
                 (ustr "searchParams", empty_object) ]);
         (ustr "page", JStr (ustr "home"));
         (ustr "timestamp", JNum (small_integer 1700000000000)) ].

(** The same for the page [about]. *)
Definition about_payload : json :=
  JObj [ (ustr "props", JObj [(ustr "user", JStr (ustr "bob"))]);
         (ustr "route",
          JObj [ (ustr "params", empty_object);
                 (ustr "query", empty_object);
                 (ustr "pathname", JStr (ustr "/about"));
                 (ustr "searchParams", empty_object) ]);
         (ustr "page", JStr (ustr "about"));
         (ustr "timestamp", JNum (small_integer 1700000000001)) ].

(** The text of the inline bootstrap script, as [createHydrationScripts]
    writes it. *)
Definition bootstrap_script_text : ustring :=
  ustr "(function(){try{var e=document.getElementById(" ++ [QUOTE] ++
  ustr "__NIST_DATA__" ++ [QUOTE] ++
  ustr "),_=JSON.parse(e.textContent || " ++ [QUOTE] ++ ustr "{}" ++ [QUOTE] ++
  ustr ");window.__NIST__=Object.freeze({props:_.props,route:Object.freeze(_.route),page:_.page,hydrated:!1}),window.__INITIAL_PROPS__=_.props,window.__PAGE_NAME__=_.page,window.__ROUTE_PARAMS__=_.route.params,window.__QUERY_PARAMS__=_.route.query,window.__PATHNAME__=_.route.pathname}catch(o){console.error(" ++
  [QUOTE] ++ ustr "Failed to parse hydration data:" ++ [QUOTE] ++ ustr ",o)}})();".

(** The scripts of a document this server renders for [payload]. *)
Definition server_document (payload : json) : ustring :=
  ustr "<script id=__NIST_DATA__ type=application/json>" ++
  serializeJavaScript payload ++ ustr "</script><script>" ++
  bootstrap_script_text ++ ustr "</script>".

(** A document that assigns the two globals inline, the form the patterns
    of the router look for. *)
Definition inline_document (newProps : json) (name : string) : ustring :=
  ustr "<script>window.__INITIAL_PROPS__ = " ++ JSON_stringify newProps ++
  ustr ";window.__PAGE_NAME__ = " ++ JSON_stringify (JStr (ustr name)) ++
  ustr ";</script>".

(** The claim's example for the sanitizer:
    [{password: "x", nested: {passwordHash: "y", keep: 1}}]. *)
Definition password_store : list jsobj :=
  [ MkObj Plain [("passwordHash"%string, VPrim (PStr "y")); ("keep"%string, VPrim (PNum 1))];
    MkObj Plain [("password"%string, VPrim (PStr "x")); ("nested"%string, VRef 0%nat)] ].

(** [{createdAt: new Date(0)}]: a [Date] has no own enumerable property. *)
Definition dated_store : list jsobj :=
  [ MkObj Other [];
    MkObj Plain [("createdAt"%string, VRef 0%nat)] ].

(** [{tags: t}] for [t = ["a", , "c"]] with [t.note = "x"]: an array with
    a hole and a named property. *)
Definition sparse_store : list jsobj :=
  [ MkObj (Array 3) [ ("0"%string, VPrim (PStr "a")); ("2"%string, VPrim (PStr "c"));
                      ("note"%string, VPrim (PStr "x")) ];
    MkObj Plain [("tags"%string, VRef 0%nat)] ].

(** A payload with markup and a line separator in a string. *)
Definition script_payload : json :=
  JObj [ (ustr "html", JStr (ustr "<script>alert(1)</script>" ++ [LS; PS]));
         (ustr "a/b", JArr [JNum (small_integer (-7)); JBool true; JNull]) ].

End DataScenario.

(** ** The claims that the code does not satisfy, as they are stated *)

Module Stated.
Import Sanitize Metadata PageName Pipeline Scenario.

Definition invalid_page_name_message (name : string) : string :=
  ("Invalid page name: " ++ name ++
   ". Only alphanumeric characters, hyphens, and underscores are allowed.")%string.

(** C5 as stated: every name that fails the pattern, the empty name
    included, is rejected with the invalid-input error, and nothing has
    happened by then. *)
Definition C5_as_stated : Prop :=
  forall (E : env) (ctx : exec_context) (handler : exn + controller_result)
         (st : state) (root name : string),
    truthy_string (pageRoot ctx) = Some root ->
    pageName ctx = Some name ->
    validatePageName name = false ->
    handle_request E ctx handler st =
    (Errors (NistError (invalid_page_name_message name)), st).

(** C2 as stated: a redirect signal raised while the callback runs leaves
    the pipeline as it was raised. *)
Definition C2_as_stated : Prop :=
  forall (E : env) (root name : string) (ctx : exec_context)
         (result : controller_result) (st st' : state) (url : string) (code : Z),
    render_body E root name ctx result st = (inl (RedirectException url code), st') ->
    render_callback E root name ctx result st = (inl (RedirectException url code), st').

(** C3 as stated, its last part, on the engine of the examples: parsing
    the encoded text of a value whose numbers are finite gives the value
    back, whatever those numbers are. *)
Definition C3_as_stated : Prop :=
  forall v : @Json.json SmallEngine.small_engine,
    Json.json_wf v -> Json.finite_numbers v ->
    Parser.JSON_parse (Codec.serializeJavaScript v) = Some v.

(** C4 as stated, its last part: whatever the input, the result reads as
    the input with the two fields removed and every other field kept. *)
Definition C4_as_stated : Prop :=
  forall (s : store) (data : jsval),
    store_wf s -> val_ok s data ->
    forall d,
      reify d (fst (sanitizeInitialProps s data 0)) (snd (sanitizeInitialProps s data 0))
      = spec_sanitize 11 (reify d s data).

(** C8 as stated, its last part: a retrieval after the TTL has elapsed
    invokes the loader exactly once. *)
Definition C8_as_stated : Prop :=
  forall (E : env) (pagePath : string) (st st' : state) (c r : CachedModule),
    MODULE_CACHE (cache st) !! pagePath = Some c ->
    cache_fresh E (clock st) (cm_timestamp c) = false ->
    loadPageModule E pagePath st = (inr r, st') ->
    length (load_events (trace st')) = S (length (load_events (trace st))).

End Stated.

(** ** Vocabulary for [escapeHtml] and the meta tags *)

Module Escaping.
Import Sanitize Metadata Pipeline.

(** The class of [HTML_ESCAPE_REGEX]: the ampersand, the two angle
    brackets, the two quotes and the slash. *)
Definition html_special (c : ascii) : bool :=
  let n := N_of_ascii c in
  (n =? 38) || (n =? 60) || (n =? 62) || (n =? 34) || (n =? 39) || (n =? 47).

(** The characters that open or close an element or an attribute value. *)
Definition is_markup_char (c : ascii) : bool :=
  let n := N_of_ascii c in
  (n =? 60) || (n =? 62) || (n =? 34) || (n =? 39) || (n =? 47).

(** A text that cannot leave the attribute value it is written in. *)
Definition inert (s : string) : Prop :=
  Forall (fun c => is_markup_char c = false) (list_ascii_of_string s).

(** No character of the class of [HTML_ESCAPE_REGEX] in [s]. *)
Definition plain (s : string) : bool :=
  forallb (fun c => negb (html_special c)) (list_ascii_of_string s).

End Escaping.

(** ** The meta tags as elements: [buildMetaTagsComponent] *)

Module MetaTags.
Import Sanitize Metadata Pipeline Escaping.

(** The props of one element of the fragment. *)
Inductive meta_element : Type :=
| ElMetaName (key name : string) (content : tree)
| ElMetaProperty (key property : string) (content : tree)
| ElLinkRel (key rel : string) (href : tree).

(** [if (v) metaElements.push(React.createElement(...))] *)
Definition push_element (mk : tree -> meta_element) (v : option tree)
           (metaElements : list meta_element) : list meta_element :=
  match v with
  | Some x => metaElements ++ [mk x]
  | None => metaElements
  end.

(** [buildMetaTagsComponent(mergedMetadata, csrfToken)]: the children of
    the fragment it returns. *)
Definition buildMetaTagsComponent (mergedMetadata : metadata) (csrfToken : string)
  : list meta_element :=
  let top key := truthy_field mergedMetadata key in
  let og key := match top "openGraph" with Some o => sub_field o key | None => None end in
  let tw key := match top "twitter" with Some t => sub_field t key | None => None end in
  fold_left (fun metaElements step => step metaElements)
    [ push_element (ElMetaName "description" "description") (top "description");
      push_element (ElMetaName "keywords" "keywords") (top "keywords");
      push_element (ElMetaName "author" "author") (top "author");
      push_element (ElMetaName "robots" "robots") (top "robots");
      push_element (ElLinkRel "canonical" "canonical") (top "canonical");
      push_element (ElMetaProperty "og:title" "og:title") (og "title");
      push_element (ElMetaProperty "og:description" "og:description") (og "description");
      push_element (ElMetaProperty "og:image" "og:image") (og "image");
      push_element (ElMetaProperty "og:url" "og:url") (og "url");
      push_element (ElMetaProperty "og:type" "og:type") (og "type");
      push_element (ElMetaName "twitter:card" "twitter:card") (tw "card");
      push_element (ElMetaName "twitter:site" "twitter:site") (tw "site");
      push_element (ElMetaName "twitter:creator" "twitter:creator") (tw "creator");
      push_element (ElMetaName "twitter:title" "twitter:title") (tw "title");
      push_element (ElMetaName "twitter:description" "twitter:description") (tw "description");
      push_element (ElMetaName "twitter:image" "twitter:image") (tw "image") ]
    [] ++
  [ElMetaName "csrf-token" "csrf-token" (TPrim (PStr csrfToken))].

(** *** Comparing the two builders *)

(** The tag of the fallback template that stands for an element: the
    same attribute, the content escaped. *)
Definition tag_of_element (el : meta_element) : exn + tag :=
  match el with
  | ElMetaName _ name content =>
      match escapeHtml_value content with
      | inr text => inr (MetaName name text)
      | inl e => inl e
      end
  | ElMetaProperty _ property content =>
      match escapeHtml_value content with
      | inr text => inr (MetaProperty property text)
      | inl e => inl e
      end
  | ElLinkRel _ rel href =>
      match escapeHtml_value href with
      | inr text => inr (LinkRel rel text)
      | inl e => inl e
      end
  end.

(** The elements one after the other, stopping at the first that cannot
    be escaped. *)
Definition tags_of_elements (els : list meta_element) : exn + list tag :=
  fold_left
    (fun acc el =>
       match acc with
       | inr tags =>
           match tag_of_element el with
           | inr t => inr (tags ++ [t])
           | inl e => inl e
           end
       | inl e => inl e
       end)
    els (inr []).

(** The attribute that names a tag, and its text. *)
Definition tag_name (t : tag) : string :=
  match t with
  | MetaName name _ => name
  | MetaProperty property _ => property
  | LinkRel rel _ => rel
  end.

Definition tag_text (t : tag) : string :=
  match t with
  | MetaName _ content => content
  | MetaProperty _ content => content
  | LinkRel _ href => href
  end.

(** The order in which the source pushes the tags. *)
Definition META_ORDER : list string :=
  [ "description"; "keywords"; "author"; "robots"; "canonical";
    "og:title"; "og:description"; "og:image"; "og:url"; "og:type";
    "twitter:card"; "twitter:site"; "twitter:creator"; "twitter:title";
    "twitter:description"; "twitter:image" ]%string.

(** The fold of [tags_of_elements], from any point on. *)
Definition tags_from (acc : exn + list tag) (els : list meta_element) : exn + list tag :=
  fold_left
    (fun acc el =>
       match acc with
       | inr tags =>
           match tag_of_element el with
           | inr t => inr (tags ++ [t])
           | inl e => inl e
           end
       | inl e => inl e
       end)
    els acc.

(** The steps of the two builders, side by side. *)
Definition step_pair : Type := (tree -> meta_element) * (string -> tag) * option tree.

Definition in_step (p : step_pair) : Prop :=
  forall x, tag_of_element (p.1.1 x) =
            match escapeHtml_value x with
            | inr text => inr (p.1.2 text)
            | inl e => inl e
            end.

(** The steps of the fallback template: the tag each one pushes and its
    name. *)
Definition tag_step : Type := (string -> tag) * option tree.

Definition names_tag (p : tag_step) (n : string) : Prop :=
  forall x, tag_name (p.1 x) = n /\ tag_text (p.1 x) = x.

End MetaTags.

(** ** What a computation of the interceptor keeps *)

Module Conduct.
Import Sanitize Metadata Pipeline.

(** [c] returns normally from every state. *)
Definition never_throws {A : Type} (c : M A) : Prop :=
  forall st, exists x st', c st = (inr x, st').

(** [R] relates the state before [c] to the state after it, however [c]
    ends. *)
Definition preserves {A : Type} (R : state -> state -> Prop) (c : M A) : Prop :=
  forall st r st', c st = (r, st') -> R st st'.

(** The same, when [c] throws. *)
Definition on_error {A : Type} (R : state -> state -> Prop) (c : M A) : Prop :=
  forall st e st', c st = (inl e, st') -> R st st'.

(** Nothing more has been sent. *)
Definition same_sent (st st' : state) : Prop := sent (res st') = sent (res st).

(** The four caches hold what they held. *)
Definition same_caches (st st' : state) : Prop := cache st' = cache st.

(** Every key of [m] is still a key of [m']. *)
Definition keeps_keys {V : Type} (m m' : gmap string V) : Prop :=
  forall k, is_Some (m !! k) -> is_Some (m' !! k).

(** No entry of a cache has been removed. *)
Definition caches_grow (st st' : state) : Prop :=
  keeps_keys (MODULE_CACHE (cache st)) (MODULE_CACHE (cache st')) /\
  keeps_keys (LAYOUT_CACHE (cache st)) (LAYOUT_CACHE (cache st')) /\
  keeps_keys (LAYOUT_DISCOVERY_CACHE (cache st)) (LAYOUT_DISCOVERY_CACHE (cache st')) /\
  keeps_keys (ROOT_LAYOUT_CACHE (cache st)) (ROOT_LAYOUT_CACHE (cache st')).

(** The response holds every header of [hs] with its value. *)
Definition carries_headers (hs : list (string * string)) (st : state) : Prop :=
  Forall (fun kv => headers (res st) !! kv.1 = Some kv.2) hs.

(** What the last step of a render leaves in the response. *)
Definition ready_to_send (_ : unit) (st : state) : Prop :=
  carries_headers SECURITY_HEADERS st /\
  headers (res st) !! "Content-Type"%string = Some "text/html"%string /\
  statusCode (res st) = 200%Z.


Definition is_readdir_event (e : event) : bool :=
  match e with EvReaddir _ => true | _ => false end.

(** The layout discovery cache is as it was and no directory has been
    listed. *)
Definition no_discovery (st st' : state) : Prop :=
  LAYOUT_DISCOVERY_CACHE (cache st') = LAYOUT_DISCOVERY_CACHE (cache st) /\
  exists evs, trace st' = trace st ++ evs /\
              forallb (fun e => negb (is_readdir_event e)) evs = true.

(** The layout discovery cache is as it was. *)
Definition same_discovery (st st' : state) : Prop :=
  LAYOUT_DISCOVERY_CACHE (cache st') = LAYOUT_DISCOVERY_CACHE (cache st).

(** No entry of the layout cache under [key] that is still fresh. *)
Definition layout_cache_miss (E : env) (key : string) (st : state) : Prop :=
  match LAYOUT_CACHE (cache st) !! key with
  | Some c => cache_fresh E (clock st) (cl_timestamp c) = false
  | None => True
  end.

(** What the discovery finds in a directory: the path of the first layout
    file of the listing that is not the root layout, and nothing when the
    listing fails or holds no such file. *)
Definition discovered (E : env) (now : Z) (sourcePath : string) : option string :=
  match readdirSync E now sourcePath with
  | inr files =>
      match truthy_string (discover_layout files) with
      | Some layoutFile => Some (path_join E [sourcePath; layoutFile])
      | None => None
      end
  | inl _ => None
  end.

(** A process whose discovery cache knows that [/app/src] has no nested
    layout. *)
Definition discovery_known : state :=
  MkState 50000%Z 0%nat
          (MkCaches ∅ ∅ {[ "/app/src"%string := None ]} ∅)
          [] (MkResponse 200%Z ∅ None) [].

(** A directory that holds the root layout, a page and a nested layout. *)
Definition listing_env : env :=
  let base :=
    Scenario.env_of_files
      [("/app/src/main.layout.tsx"%string, Scenario.simple_page "Main")] false in
  MkEnv (production base) (existsSync base)
        (fun _ _ => inr ["app.layout.tsx"; "home.page.tsx"; "main.layout.tsx"]%string)
        (ssrLoadModule base) (load_time base) (path_join base) (renderToString base)
        (transformIndexHtml base) (randomBytes_hex base) (url_searchParams base).

(** A process that rendered a page of [/app/src] four seconds ago: the
    nested layout and the root layout are in their caches. *)
Definition cached_main_layout : CachedLayout :=
  MkCachedLayout 1 (Some "Main"%string) ∅ 1000.

Definition cached_app_layout : CachedLayout :=
  MkCachedLayout 2 (Some "App"%string) ∅ 1000.

Definition warm_state : state :=
  MkState 5000%Z 3%nat
          (MkCaches ∅ {[ "/app/src:auto"%string := cached_main_layout ]}
                    {[ "/app/src"%string := Some "/app/src/main.layout.tsx"%string ]}
                    {[ "/app/src"%string := cached_app_layout ]})
          [] (MkResponse 200%Z ∅ None) [].

End Conduct.

(** ** The CSRF token, byte by byte *)

Module Csrf.
Import Units.

(** [buf.toString("hex")]: two lowercase hexadecimal digits for each
    byte. *)
Definition hex_of_byte (b : Byte.byte) : string :=
  let n := Byte.to_N b in
  String (ascii_of_N (hex_digit (n / 16)))
         (String (ascii_of_N (hex_digit (n mod 16))) EmptyString).

Fixpoint Buffer_toString_hex (buf : list Byte.byte) : string :=
  match buf with
  | [] => EmptyString
  | b :: rest => (hex_of_byte b ++ Buffer_toString_hex rest)%string
  end.

(** [source.copy(target)]: the bytes of the source over the start of the
    target, as many as fit. *)
Definition Buffer_copy (source target : list Byte.byte) : list Byte.byte :=
  take (length target) source ++ drop (length source) target.

(** [generateCSRFToken()] on the bytes: given what [randomBytes(32)] returned
    and the buffer the interceptor keeps: the token, and the buffer
    afterwards.  The token is what [randomBytes_hex] stands for in the
    pipeline. *)
Definition generateCSRFToken_bytes (random csrfTokenBuffer : list Byte.byte)
  : string * list Byte.byte :=
  let buffer := Buffer_copy random csrfTokenBuffer in
  (Buffer_toString_hex buffer, buffer).

Definition is_hex_digit (c : ascii) : bool :=
  let n := N_of_ascii c in
  ((48 <=? n) && (n <=? 57)) || ((97 <=? n) && (n <=? 102)).

End Csrf.

(** ** The pool of route data objects: [RouteDataPool] *)

Module RoutePool.
Import Sanitize Metadata Pipeline.

(** The objects of the process and the array [pool] of the pool. *)
Record pool_state : Type := MkPool {
  ps_heap : list jsobj;
  ps_pool : list jsval
}.

Definition P (A : Type) : Type := pool_state -> (exn + A) * pool_state.

#[export] Instance P_ret : MRet P := fun A (x : A) s => (inr x, s).

#[export] Instance P_bind : MBind P := fun A B (f : A -> P B) (c : P A) s =>
  match c s with
  | (inr x, s') => f x s'
  | (inl e, s') => (inl e, s')
  end.

Definition p_settle {A : Type} (r : exn + A) : P A := fun s => (r, s).

Definition p_alloc (o : jsobj) : P jsval := fun s =>
  (inr (VRef (length (ps_heap s))), MkPool (ps_heap s ++ [o]) (ps_pool s)).

(** [this.pool.pop()]: the last element, [undefined] on an empty array. *)
Definition p_pop : P (option jsval) := fun s =>
  (inr (last (ps_pool s)), MkPool (ps_heap s) (removelast (ps_pool s))).

(** [this.pool.push(v)] *)
Definition p_push (v : jsval) : P unit := fun s =>
  (inr tt, MkPool (ps_heap s) (ps_pool s ++ [v])).

(** [obj[key] = v] in strict code: a [TypeError] on a primitive. *)
Definition p_assign (obj : jsval) (key : string) (v : jsval) : P unit := fun s =>
  match obj with
  | VRef l =>
      match ps_heap s !! l with
      | Some o =>
          (inr tt,
           MkPool (<[l := with_props o (obj_assign (props o) key v)]> (ps_heap s))
                  (ps_pool s))
      | None => (inr tt, s)
      end
  | VPrim _ => (inl (JsError "Cannot create property"), s)
  end.

(** [x || {}] *)
Definition or_new (v : jsval) : P jsval :=
  if truthy v then mret v else p_alloc (MkObj Plain []).

(** [req.path || req.url?.split("?")[0] || "/"] *)
Definition pathname_of (req : request) : string :=
  or_string (or_string (req_path req) (before_question (req_url req))) "/".

(** [Object.fromEntries(entries)] on pairs of strings. *)
Definition from_entries (entries : list (string * string)) : list (string * jsval) :=
  fold_left (fun acc kv => obj_assign acc (fst kv) (VPrim (PStr (snd kv)))) entries [].

Section Pool.
Variable E : env.

(** [acquire(req)] *)
Definition acquire (req : request) : P jsval :=
  popped ← p_pop;
  obj ← or_new (default (VPrim PUndefined) (popped : option jsval));
  params ← or_new (req_params req);
  p_assign obj "params" params;;
  query ← or_new (req_query req);
  p_assign obj "query" query;;
  p_assign obj "pathname" (VPrim (PStr (pathname_of req)));;
  entries ← p_settle (url_searchParams E (or_string (req_url req) "/")
                        ("http://" ++ or_string (req_host req) "localhost")%string);
  searchParams ← p_alloc (MkObj Plain (from_entries entries));
  p_assign obj "searchParams" searchParams;;
  mret obj.

End Pool.

(** [release(obj)] *)
Definition release (obj : jsval) : P unit :=
  p_assign obj "params" (VPrim PNull);;
  p_assign obj "query" (VPrim PNull);;
  p_assign obj "pathname" (VPrim PNull);;
  p_assign obj "searchParams" (VPrim PNull);;
  p_push obj.

(** [o[key]] for the object at [obj]. *)
Definition field (h : list jsobj) (obj : jsval) (key : string) : option jsval :=
  match obj with
  | VRef l =>
      match h !! l with
      | Some o => obj_get (props o) key
      | None => None
      end
  | VPrim _ => None
  end.

(** [v] is [wanted] when that is truthy, and else an empty object that
    [old] did not hold. *)
Definition or_fresh_object (old h : list jsobj) (wanted v : jsval) : Prop :=
  if truthy wanted then v = wanted
  else exists l, v = VRef l /\ (length old <= l)%nat /\ h !! l = Some (MkObj Plain []).

(** What a step leaves of the heap: it has not shrunk, and its objects
    other than the one at [l] are as they were. *)
Definition frames (l : nat) (h h' : list jsobj) : Prop :=
  (length h <= length h')%nat /\
  forall l' o, l' <> l -> h !! l' = Some o -> h' !! l' = Some o.

(** The four fields of the object at [l] after [acquire(req)], [o] being
    the object before: the route data of the request and nothing of what
    the fields held, the other fields as they were. *)
Definition holds_route_of (E : env) (req : request) (old h' : list jsobj)
           (o o' : jsobj) : Prop :=
  is_array o' = is_array o /\
  obj_get (props o') "pathname" = Some (VPrim (PStr (pathname_of req))) /\
  (exists p, obj_get (props o') "params" = Some p /\
             or_fresh_object old h' (req_params req) p) /\
  (exists q, obj_get (props o') "query" = Some q /\
             or_fresh_object old h' (req_query req) q) /\
  (exists sp entries,
      url_searchParams E (or_string (req_url req) "/")
        ("http://" ++ or_string (req_host req) "localhost")%string = inr entries /\
      obj_get (props o') "searchParams" = Some (VRef sp) /\
      (length old <= sp)%nat /\
      h' !! sp = Some (MkObj Plain (from_entries entries))) /\
  (forall k, k ∉ ["params"; "query"; "pathname"; "searchParams"]%string ->
             obj_get (props o') k = obj_get (props o) k).

(** The value of the last entry of a query string that has the key. *)
Definition last_value_of (entries : list (string * string)) (k : string) : option string :=
  fold_left (fun acc kv => if String.eqb (fst kv) k then Some (snd kv) else acc)
            entries None.

Definition ROUTE_FIELDS : list string :=
  ["params"; "query"; "pathname"; "searchParams"]%string.

(** A request for [/users?tab=1], and a pool that holds the object of the
    previous request. *)
Definition users_request : request :=
  MkRequest (VPrim PUndefined) (VPrim PUndefined) "/users" "/users?tab=1" "localhost".

Definition previous_route : pool_state :=
  MkPool [ MkObj Plain [("id"%string, VPrim (PStr "7"))];
           MkObj Plain [("params"%string, VRef 0%nat);
                        ("query"%string, VPrim PNull);
                        ("pathname"%string, VPrim (PStr "/account/7"));
                        ("searchParams"%string, VPrim PNull)] ]
         [].

Definition tab_env : env :=
  let base := Scenario.env_of_files [] false in
  MkEnv (production base) (existsSync base) (readdirSync base) (ssrLoadModule base)
        (load_time base) (path_join base) (renderToString base)
        (transformIndexHtml base) (randomBytes_hex base)
        (fun _ _ => inr [("tab", "1")]%string).

(** A query string that repeats a parameter: [?a=1&b=2&a=3]. *)
Definition repeated_env : env :=
  let base := Scenario.env_of_files [] false in
  MkEnv (production base) (existsSync base) (readdirSync base) (ssrLoadModule base)
        (load_time base) (path_join base) (renderToString base)
        (transformIndexHtml base) (randomBytes_hex base)
        (fun _ _ => inr [("a", "1"); ("b", "2"); ("a", "3")]%string).

End RoutePool.

(** ** The client: the hooks that read the published state *)

Module Hooks.
Import Units Json Codec Parser Client.

Section Values.
Context `{Engine}.









End Values.

End Hooks.

(** ** The redirect filter *)

Module RedirectFilter.
Import Sanitize Metadata Pipeline.

(** [new RedirectException(url, statusCode = 302)] *)
Definition RedirectException_new (url : string) (statusCode : option Z) : exn :=
  RedirectException url (default 302%Z statusCode).

(** [RedirectExceptionFilter.catch(exception, host)], on the fields of the
    exception. *)
Definition RedirectExceptionFilter_catch (url : string) (statusCode : Z) : M unit :=
  res_status statusCode;;
  res_setHeader "Location" url;;
  res_end EmptyString.

End RedirectFilter.

(** * Properties *)

(** ** The codec round trip *)

Module CodecFacts.
Import Units Json Codec Parser CodecSpec.

Lemma replace_all_app (a b : ustring) :
  replace_all (a ++ b) = replace_all a ++ replace_all b.
Proof. unfold replace_all. apply flat_map_app. Qed.

Lemma replace_all_cons_plain (c : N) (t : ustring) :
  matches_escape_class c = false -> replace_all (c :: t) = c :: replace_all t.
Proof. intros H. unfold replace_all. simpl. now rewrite H. Qed.

(** *** Hexadecimal escapes *)

Lemma hex_value_hex_digit (d : N) :
  d < 16 -> hex_value (hex_digit d) = Some d.
Proof.
  intros Hd. unfold hex_value, hex_digit.
  destruct (N.ltb_spec d 10).
  - replace ((48 <=? 48 + d) && (48 + d <=? 57)) with true.
    + f_equal. lia.
    + symmetry. apply andb_true_iff. split; apply N.leb_le; lia.
  - replace ((48 <=? 87 + d) && (87 + d <=? 57)) with false.
    + replace ((97 <=? 87 + d) && (87 + d <=? 102)) with true.
      * f_equal. lia.
      * symmetry. apply andb_true_iff. split; apply N.leb_le; lia.
    + symmetry. apply andb_false_iff. right. apply N.leb_gt. lia.
Qed.

Lemma hex_digit_plain (d : N) :
  d < 16 -> matches_escape_class (hex_digit d) = false.
Proof.
  intros Hd. unfold matches_escape_class, hex_digit, LT, GT, SLASH, LS, PS.
  destruct (N.ltb_spec d 10);
    repeat (apply orb_false_iff; split); apply N.eqb_neq; lia.
Qed.

Lemma hex4_digits (c : N) :
  c < 65536 ->
  c / 4096 < 16 /\ (c / 256) mod 16 < 16 /\ (c / 16) mod 16 < 16 /\ c mod 16 < 16.
Proof.
  intros Hc. repeat split; try (apply N.mod_lt; lia).
  apply N.Div0.div_lt_upper_bound; lia.
Qed.

Lemma hex4_recompose (c : N) :
  ((c / 4096 * 16 + (c / 256) mod 16) * 16 + (c / 16) mod 16) * 16 + c mod 16 = c.
Proof.
  assert (H1 := N.div_mod c 16 ltac:(lia)).
  assert (H2 := N.div_mod (c / 16) 16 ltac:(lia)).
  assert (H3 := N.div_mod (c / 256) 16 ltac:(lia)).
  rewrite !N.Div0.div_div in H2, H3.
  change (16 * 16) with 256 in *. change (256 * 16) with 4096 in *.
  lia.
Qed.

Lemma hex4_value_hex4 (c : N) (k : ustring) :
  c < 65536 ->
  parse_string_body (replace_all (unicode_escape c) ++ k) =
  match parse_string_body k with
  | Some (str, r) => Some (c :: str, r)
  | None => None
  end.
Proof.
  intros Hc. destruct (hex4_digits c Hc) as (H1 & H2 & H3 & H4).
  unfold unicode_escape, hex4.
  rewrite !replace_all_cons_plain by (reflexivity || now apply hex_digit_plain).
  cbn [replace_all flat_map app parse_string_body].
  change (BACKSLASH =? QUOTE) with false.
  change (BACKSLASH =? BACKSLASH) with true.
  change (117 =? 117) with true. cbv iota.
  unfold hex4_value. rewrite !hex_value_hex_digit by assumption.
  cbn [mbind option_bind]. now rewrite hex4_recompose.
Qed.

(** *** Strings *)

Lemma parse_raw_unit (c : N) (k : ustring) :
  (c =? QUOTE) = false -> (c =? BACKSLASH) = false -> (c <? 32) = false ->
  parse_string_body (c :: k) =
  match parse_string_body k with
  | Some (str, r) => Some (c :: str, r)
  | None => None
  end.
Proof. intros H1 H2 H3. simpl. now rewrite H1, H2, H3. Qed.

Lemma surrogate_bound (c : N) : is_surrogate c = true -> 55296 <= c <= 57343.
Proof.
  unfold is_surrogate. intros [H1 H2]%andb_true_iff.
  apply N.leb_le in H1, H2. lia.
Qed.

Lemma parse_quote_unit (c : N) (k : ustring) :
  parse_string_body (replace_all (quote_unit c) ++ k) =
  match parse_string_body k with
  | Some (str, r) => Some (c :: str, r)
  | None => None
  end.
Proof.
  unfold quote_unit.
  destruct (N.eqb_spec c 8) as [->|?]; [reflexivity|].
  destruct (N.eqb_spec c 9) as [->|?]; [reflexivity|].
  destruct (N.eqb_spec c 10) as [->|?]; [reflexivity|].
  destruct (N.eqb_spec c 12) as [->|?]; [reflexivity|].
  destruct (N.eqb_spec c 13) as [->|?]; [reflexivity|].
  destruct (N.eqb_spec c QUOTE) as [->|?]; [reflexivity|].
  destruct (N.eqb_spec c BACKSLASH) as [->|?]; [reflexivity|].
  destruct ((c <? 32) || is_surrogate c) eqn:Hesc.
  - apply hex4_value_hex4.
    apply orb_true_iff in Hesc as [H|H].
    + apply N.ltb_lt in H. lia.
    + apply surrogate_bound in H. lia.
  - apply orb_false_iff in Hesc as [Hlow _].
    unfold replace_all, flat_map, matches_escape_class.
    destruct (N.eqb_spec c LT) as [->|?]; [reflexivity|].
    destruct (N.eqb_spec c GT) as [->|?]; [reflexivity|].
    destruct (N.eqb_spec c SLASH) as [->|?]; [reflexivity|].
    destruct (N.eqb_spec c LS) as [->|?]; [reflexivity|].
    destruct (N.eqb_spec c PS) as [->|?]; [reflexivity|].
    cbn [orb app]. apply parse_raw_unit; [now apply N.eqb_neq ..|assumption].
Qed.

Lemma parse_surrogate_pair (c d : N) (k : ustring) :
  is_high_surrogate c && is_low_surrogate d = true ->
  parse_string_body (replace_all [c; d] ++ k) =
  match parse_string_body k with
  | Some (str, r) => Some (c :: d :: str, r)
  | None => None
  end.
Proof.
  unfold is_high_surrogate, is_low_surrogate.
  intros [[H1 H2]%andb_true_iff [H3 H4]%andb_true_iff]%andb_true_iff.
  apply N.leb_le in H1, H2, H3, H4.
  assert (Hplain : forall x, 55296 <= x -> matches_escape_class x = false).
  { intros x Hx. unfold matches_escape_class, LT, GT, SLASH, LS, PS.
    repeat (apply orb_false_iff; split); apply N.eqb_neq; lia. }
  rewrite !replace_all_cons_plain by (apply Hplain; lia).
  cbn [replace_all flat_map app].
  unfold QUOTE, BACKSLASH in *.
  rewrite !parse_raw_unit
    by (try apply N.eqb_neq; try apply N.ltb_ge; unfold QUOTE, BACKSLASH; lia).
  now destruct (parse_string_body k) as [[? ?]|].
Qed.

Lemma quote_units_cons2 (c d : N) (t : ustring) :
  quote_units (c :: d :: t) =
  if is_high_surrogate c && is_low_surrogate d
  then c :: d :: quote_units t
  else quote_unit c ++ quote_units (d :: t).
Proof. reflexivity. Qed.

Lemma parse_quote_units (n : nat) :
  forall (s rest : ustring),
    (length s <= n)%nat ->
    parse_string_body (replace_all (quote_units s) ++ QUOTE :: rest) = Some (s, rest).
Proof.
  induction n as [|n IH]; intros s rest Hlen.
  - destruct s; [reflexivity | simpl in Hlen; lia].
  - destruct s as [|c t]; [reflexivity|].
    destruct t as [|d t'].
    + simpl quote_units. now rewrite parse_quote_unit.
    + simpl in Hlen. rewrite quote_units_cons2.
      destruct (is_high_surrogate c && is_low_surrogate d) eqn:Hpair.
      * change (c :: d :: quote_units t') with ([c; d] ++ quote_units t').
        rewrite replace_all_app, <- app_assoc.
        rewrite parse_surrogate_pair by assumption.
        rewrite (IH t' rest) by lia. reflexivity.
      * rewrite replace_all_app, <- app_assoc, parse_quote_unit.
        rewrite (IH (d :: t') rest) by (simpl; lia). reflexivity.
Qed.

(** The text of a quoted string, as the serializer embeds it. *)
Lemma parse_quoted_string (s rest : ustring) :
  parse_string_body (replace_all (quote_units s ++ [QUOTE]) ++ rest) = Some (s, rest).
Proof.
  rewrite replace_all_app, <- app_assoc.
  apply (parse_quote_units (length s)). lia.
Qed.

(** *** The literal of a number *)

Lemma is_digit_cases (c : N) : is_digit c = true -> 48 <= c <= 57.
Proof.
  unfold is_digit. intros [H1 H2]%andb_true_iff. apply N.leb_le in H1, H2. lia.
Qed.

Lemma number_char_plain (c : N) :
  number_char c = true -> matches_escape_class c = false.
Proof.
  unfold number_char. rewrite !orb_true_iff, !N.eqb_eq. intros Hc.
  assert (Hcases : 48 <= c <= 57 \/ c = 45 \/ c = 43 \/ c = 46 \/ c = 101 \/ c = 69).
  { destruct Hc as [[[[[Hc|Hc]|Hc]|Hc]|Hc]|Hc];
      [apply is_digit_cases in Hc|unfold MINUS in Hc|..]; lia. }
  unfold matches_escape_class, LT, GT, SLASH, LS, PS.
  repeat (apply orb_false_iff; split); apply N.eqb_neq; lia.
Qed.

Lemma number_chars_plain (t : ustring) :
  Forall (fun c => number_char c = true) t -> replace_all t = t.
Proof.
  induction 1 as [|c t Hc _ IH]; [reflexivity|].
  rewrite replace_all_cons_plain by now apply number_char_plain. now rewrite IH.
Qed.

Lemma digit_is_number_char (c : N) : is_digit c = true -> number_char c = true.
Proof. intros Hc. unfold number_char. now rewrite Hc. Qed.

Lemma delimited_head (c : N) (r : ustring) :
  delimited (c :: r) ->
  is_digit c = false /\ (c =? 46) = false /\ (c =? 101) = false /\ (c =? 69) = false /\
  (c =? 43) = false /\ (c =? MINUS) = false.
Proof. intros [-> | [-> | ->]]; repeat split; reflexivity. Qed.

Lemma take_digits_split (s : ustring) :
  fst (take_digits s) ++ snd (take_digits s) = s /\
  Forall (fun c => number_char c = true) (fst (take_digits s)).
Proof.
  induction s as [|c t [IH1 IH2]]; [split; [reflexivity|constructor]|].
  cbn [take_digits]. destruct (is_digit c) eqn:Hc; [|split; [reflexivity|constructor]].
  destruct (take_digits t) as [ds r]. cbn [fst snd app] in *.
  split; [now rewrite IH1|]. constructor; [now apply digit_is_number_char | exact IH2].
Qed.

Lemma take_digits_app (s rest : ustring) :
  delimited rest ->
  take_digits (s ++ rest) = (fst (take_digits s), snd (take_digits s) ++ rest).
Proof.
  intros Hd. induction s as [|c t IH].
  - destruct rest as [|c r]; [reflexivity|].
    destruct (delimited_head c r Hd) as (Hc & _). cbn [app take_digits]. now rewrite Hc.
  - cbn [app take_digits]. destruct (is_digit c); [|reflexivity].
    rewrite IH. now destruct (take_digits t).
Qed.

Lemma scan_int_split (s a b : ustring) :
  scan_int s = Some (a, b) ->
  s = a ++ b /\ Forall (fun c => number_char c = true) a /\
  exists c a', a = c :: a' /\ is_digit c = true.
Proof.
  destruct s as [|c t]; [discriminate|]. cbn [scan_int].
  destruct (N.eqb_spec c 48) as [->|_].
  { intros [= <- <-]. split; [reflexivity|]. split; [now repeat constructor|].
    now exists 48, []. }
  destruct (is_digit c) eqn:Hc; [|discriminate].
  destruct (take_digits_split t) as [H1 H2].
  destruct (take_digits t) as [ds r]. cbn [fst snd] in *. intros [= <- <-].
  split; [cbn [app]; now rewrite H1|].
  split; [constructor; [now apply digit_is_number_char | exact H2]|].
  now exists c, ds.
Qed.

Lemma scan_int_app (s a b rest : ustring) :
  scan_int s = Some (a, b) -> delimited rest ->
  scan_int (s ++ rest) = Some (a, b ++ rest).
Proof.
  destruct s as [|c t]; [discriminate|]. cbn [scan_int app].
  destruct (c =? 48); [now intros [= <- <-]|].
  destruct (is_digit c); [|discriminate]. intros Hs Hd.
  rewrite take_digits_app by assumption.
  destruct (take_digits t) as [ds r]. cbn [fst snd]. now injection Hs as <- <-.
Qed.

Lemma scan_frac_split (s a b : ustring) :
  scan_frac s = Some (a, b) ->
  s = a ++ b /\ Forall (fun c => number_char c = true) a.
Proof.
  destruct s as [|c t]; [intros [= <- <-]; split; [reflexivity|constructor]|].
  cbn [scan_frac]. destruct (N.eqb_spec c 46) as [->|_].
  2: { intros [= <- <-]. split; [reflexivity|constructor]. }
  destruct (take_digits_split t) as [H1 H2].
  destruct (take_digits t) as [[|d ds] r]; [discriminate|].
  cbn [fst snd] in *. intros [= <- <-].
  split; [cbn [app] in *; now rewrite H1|]. now constructor.
Qed.

Lemma scan_frac_app (s a b rest : ustring) :
  scan_frac s = Some (a, b) -> delimited rest ->
  scan_frac (s ++ rest) = Some (a, b ++ rest).
Proof.
  destruct s as [|c t].
  - intros [= <- <-] Hd. destruct rest as [|c r]; [reflexivity|].
    destruct (delimited_head c r Hd) as (_ & Hc & _). cbn [app scan_frac]. now rewrite Hc.
  - cbn [scan_frac app]. destruct (c =? 46); [|now intros [= <- <-]].
    intros Hs Hd. rewrite take_digits_app by assumption.
    destruct (take_digits t) as [[|d ds] r]; [discriminate|].
    cbn [fst snd]. now injection Hs as <- <-.
Qed.

Lemma scan_sign_split (s : ustring) :
  fst (scan_sign s) ++ snd (scan_sign s) = s /\
  Forall (fun c => number_char c = true) (fst (scan_sign s)).
Proof.
  destruct s as [|c t]; [split; [reflexivity|constructor]|].
  cbn [scan_sign]. destruct ((c =? 43) || (c =? MINUS)) eqn:Hc;
    [|split; [reflexivity|constructor]].
  split; [reflexivity|]. constructor; [|constructor].
  unfold number_char. apply orb_true_iff in Hc as [Hc|Hc]; rewrite Hc;
    now rewrite ?orb_true_r.
Qed.

Lemma scan_sign_app (s rest : ustring) :
  delimited rest ->
  scan_sign (s ++ rest) = (fst (scan_sign s), snd (scan_sign s) ++ rest).
Proof.
  intros Hd. destruct s as [|c t].
  - destruct rest as [|c r]; [reflexivity|].
    destruct (delimited_head c r Hd) as (_ & _ & _ & _ & H1 & H2).
    cbn [app scan_sign]. now rewrite H1, H2.
  - cbn [app scan_sign]. now destruct ((c =? 43) || (c =? MINUS)).
Qed.

Lemma scan_exp_split (s a b : ustring) :
  scan_exp s = Some (a, b) ->
  s = a ++ b /\ Forall (fun c => number_char c = true) a.
Proof.
  destruct s as [|c t]; [intros [= <- <-]; split; [reflexivity|constructor]|].
  cbn [scan_exp]. destruct ((c =? 101) || (c =? 69)) eqn:Hc.
  2: { intros [= <- <-]. split; [reflexivity|constructor]. }
  destruct (scan_sign_split t) as [S1 S2].
  destruct (scan_sign t) as [sign t']. cbn [fst snd] in *.
  destruct (take_digits_split t') as [H1 H2].
  destruct (take_digits t') as [[|d ds] r]; [discriminate|].
  cbn [fst snd] in *. intros [= <- <-].
  split.
  - cbn [app]. f_equal. rewrite <- S1, <- H1. now rewrite <- app_assoc.
  - constructor.
    + unfold number_char. apply orb_true_iff in Hc as [Hc|Hc]; rewrite Hc;
        now rewrite ?orb_true_r.
    + apply Forall_app. now split.
Qed.

Lemma scan_exp_app (s a b rest : ustring) :
  scan_exp s = Some (a, b) -> delimited rest ->
  scan_exp (s ++ rest) = Some (a, b ++ rest).
Proof.
  destruct s as [|c t].
  - intros [= <- <-] Hd. destruct rest as [|c r]; [reflexivity|].
    destruct (delimited_head c r Hd) as (_ & _ & H1 & H2 & _).
    cbn [app scan_exp]. now rewrite H1, H2.
  - cbn [scan_exp app]. destruct ((c =? 101) || (c =? 69)); [|now intros [= <- <-]].
    intros Hs Hd. rewrite scan_sign_app by assumption.
    destruct (scan_sign t) as [sign t']. cbn [fst snd] in *.
    rewrite take_digits_app by assumption.
    destruct (take_digits t') as [[|d ds] r]; [discriminate|].
    cbn [fst snd]. now injection Hs as <- <-.
Qed.

Lemma scan_unsigned_split (s a b : ustring) :
  scan_unsigned s = Some (a, b) ->
  s = a ++ b /\ Forall (fun c => number_char c = true) a /\
  exists c a', a = c :: a' /\ is_digit c = true.
Proof.
  unfold scan_unsigned.
  destruct (scan_int s) as [[i r1]|] eqn:Hi; [|discriminate]. cbn [mbind option_bind].
  destruct (scan_frac r1) as [[f r2]|] eqn:Hf; [|discriminate]. cbn [mbind option_bind].
  destruct (scan_exp r2) as [[e r3]|] eqn:He; [|discriminate]. cbn [mbind option_bind].
  intros [= <- <-].
  apply scan_int_split in Hi as (-> & Hci & c & i' & -> & Hc).
  apply scan_frac_split in Hf as (-> & Hcf).
  apply scan_exp_split in He as (-> & Hce).
  split; [now rewrite <- !app_assoc|].
  split; [repeat (apply Forall_app; split); assumption|].
  now exists c, (i' ++ f ++ e).
Qed.

Lemma scan_unsigned_app (s a b rest : ustring) :
  scan_unsigned s = Some (a, b) -> delimited rest ->
  scan_unsigned (s ++ rest) = Some (a, b ++ rest).
Proof.
  unfold scan_unsigned. intros Hs Hd.
  destruct (scan_int s) as [[i r1]|] eqn:Hi; [|discriminate]. cbn [mbind option_bind] in Hs.
  destruct (scan_frac r1) as [[f r2]|] eqn:Hf; [|discriminate]. cbn [mbind option_bind] in Hs.
  destruct (scan_exp r2) as [[e r3]|] eqn:He; [|discriminate]. cbn [mbind option_bind] in Hs.
  injection Hs as <- <-.
  rewrite (scan_int_app _ _ _ _ Hi Hd). cbn [mbind option_bind].
  rewrite (scan_frac_app _ _ _ _ Hf Hd). cbn [mbind option_bind].
  rewrite (scan_exp_app _ _ _ _ He Hd). reflexivity.
Qed.

Lemma scan_number_split (s a b : ustring) :
  scan_number s = Some (a, b) ->
  s = a ++ b /\ Forall (fun c => number_char c = true) a /\
  exists c a', a = c :: a' /\ (c = MINUS \/ is_digit c = true).
Proof.
  destruct s as [|c t]; [discriminate|]. cbn [scan_number].
  destruct (N.eqb_spec c MINUS) as [->|_].
  - destruct (scan_unsigned t) as [[literal r]|] eqn:Hu; [|discriminate].
    cbn [mbind option_bind]. intros [= <- <-].
    apply scan_unsigned_split in Hu as (-> & Hchars & _).
    split; [reflexivity|]. split; [now constructor|].
    exists MINUS, literal. split; [reflexivity | now left].
  - intros Hu. apply scan_unsigned_split in Hu as (Hs & Hchars & c' & a' & -> & Hc).
    split; [exact Hs|]. split; [exact Hchars|]. exists c', a'. split; [reflexivity | now right].
Qed.

Lemma scan_number_app (s a b rest : ustring) :
  scan_number s = Some (a, b) -> delimited rest ->
  scan_number (s ++ rest) = Some (a, b ++ rest).
Proof.
  destruct s as [|c t]; [discriminate|]. cbn [scan_number app].
  destruct (c =? MINUS).
  - destruct (scan_unsigned t) as [[literal r]|] eqn:Hu; [|discriminate].
    cbn [mbind option_bind]. intros [= <- <-] Hd.
    rewrite (scan_unsigned_app _ _ _ _ Hu Hd). reflexivity.
  - intros Hu Hd. exact (scan_unsigned_app (c :: t) a b rest Hu Hd).
Qed.

(** The literal of a number, wherever a value may stand. *)
Lemma json_number_scanned (t rest : ustring) :
  is_json_number t = true -> delimited rest ->
  scan_number (t ++ rest) = Some (t, rest) /\
  replace_all t = t /\
  exists c t', t = c :: t' /\ (c = MINUS \/ is_digit c = true).
Proof.
  unfold is_json_number. intros Ht Hd.
  destruct (scan_number t) as [[a [|x b]]|] eqn:Hs; try discriminate.
  pose proof (scan_number_split _ _ _ Hs) as (Heq & Hchars & Hhead).
  rewrite app_nil_r in Heq. subst a.
  split; [exact (scan_number_app _ _ _ _ Hs Hd)|].
  split; [now apply number_chars_plain | exact Hhead].
Qed.

(** *** Values *)

Lemma delimited_skip_ws (rest : ustring) : delimited rest -> skip_ws rest = rest.
Proof.
  destruct rest as [|c r]; [reflexivity|].
  intros [-> | [-> | ->]]; reflexivity.
Qed.

Lemma value_start_cases (c : N) :
  value_start c = true ->
  is_ws c = false /\ c <> RBRACKET /\ c <> RBRACE /\ c <> COMMA.
Proof.
  unfold value_start, is_digit, is_ws.
  rewrite !orb_true_iff, andb_true_iff, !N.eqb_eq, !N.leb_le.
  unfold LBRACKET, LBRACE, QUOTE, MINUS, RBRACKET, RBRACE, COMMA.
  intros H. repeat split; try lia.
  repeat (apply orb_false_iff; split); apply N.eqb_neq; lia.
Qed.

Lemma skip_ws_value_start (c : N) (r : ustring) :
  value_start c = true -> skip_ws (c :: r) = c :: r.
Proof.
  intros H. apply value_start_cases in H as [H _]. simpl. now rewrite H.
Qed.

Lemma number_head_starts_value (c : N) :
  c = MINUS \/ is_digit c = true -> value_start c = true.
Proof.
  unfold value_start. intros [->|Hc]; [reflexivity|]. rewrite Hc.
  now rewrite !orb_true_r.
Qed.

Section Values.
Context `{Engine}.

Lemma parse_value_number (f : nat) (c : N) (r : ustring) :
  c = MINUS \/ is_digit c = true ->
  parse_value (S f) (c :: r) = parse_number (c :: r).
Proof.
  intros Hc.
  assert (Hrange : 45 <= c <= 57).
  { destruct Hc as [->|Hc]; [unfold MINUS; lia | apply is_digit_cases in Hc; lia]. }
  cbn [parse_value skip_ws]. unfold is_ws.
  assert (Hne : forall k, k < 45 \/ 57 < k -> (c =? k) = false).
  { intros k Hk. apply N.eqb_neq. lia. }
  rewrite !Hne by (unfold LBRACKET, LBRACE, QUOTE; lia).
  cbn [orb]. now rewrite !Hne by (unfold LBRACKET, LBRACE, QUOTE; lia).
Qed.

Lemma serialize_null : serializeJavaScript JNull = of_ascii_string "null".
Proof. reflexivity. Qed.

Lemma serialize_string (s : ustring) :
  serializeJavaScript (JStr s) = QUOTE :: replace_all (quote_units s ++ [QUOTE]).
Proof. reflexivity. Qed.

Lemma join_cons2 (p q : ustring) (ps : list ustring) :
  join_with_comma (p :: q :: ps) = p ++ COMMA :: join_with_comma (q :: ps).
Proof. reflexivity. Qed.

Lemma replace_all_join (parts : list ustring) :
  replace_all (join_with_comma parts) = join_with_comma (map replace_all parts).
Proof.
  destruct parts as [|p ps]; [reflexivity|].
  cbn [join_with_comma map]. rewrite replace_all_app. f_equal.
  induction ps as [|q ps IH]; [reflexivity|].
  cbn [flat_map map]. rewrite <- IH.
  change (COMMA :: q) with ([COMMA] ++ q).
  rewrite <- !app_assoc, !replace_all_app. reflexivity.
Qed.

Lemma serialize_array (elems : list json) :
  serializeJavaScript (JArr elems) =
  LBRACKET :: join_with_comma (map serializeJavaScript elems) ++ [RBRACKET].
Proof.
  unfold serializeJavaScript. cbn [JSON_stringify].
  rewrite replace_all_cons_plain by reflexivity.
  rewrite replace_all_app, replace_all_join, map_map. reflexivity.
Qed.

Lemma serialize_object (fields : list (ustring * json)) :
  serializeJavaScript (JObj fields) =
  LBRACE :: join_with_comma (map member_text fields) ++ [RBRACE].
Proof.
  unfold serializeJavaScript. cbn [JSON_stringify].
  rewrite replace_all_cons_plain by reflexivity.
  rewrite replace_all_app, replace_all_join, map_map. do 3 f_equal.
  apply map_ext. intros [k v]. unfold member_text, quote_json_string.
  cbn [fst snd].
  rewrite replace_all_app, replace_all_cons_plain by reflexivity.
  rewrite (replace_all_cons_plain COLON) by reflexivity. reflexivity.
Qed.

Lemma json_size_array (l : list json) : json_size (JArr l) = S (elems_size l).
Proof. reflexivity. Qed.

Lemma json_size_object (l : list (ustring * json)) :
  json_size (JObj l) = S (fields_size l).
Proof. reflexivity. Qed.

Lemma json_wf_array (l : list json) : json_wf (JArr l) <-> Forall json_wf l.
Proof.
  cbn [json_wf]. induction l as [|x l IH].
  - split; [intros _; constructor | intros _; exact I].
  - rewrite Forall_cons, <- IH. reflexivity.
Qed.

Lemma json_wf_object (l : list (ustring * json)) :
  json_wf (JObj l) <-> NoDup (map fst l) /\ Forall (fun kv => json_wf (snd kv)) l.
Proof.
  cbn [json_wf]. apply and_iff_compat_l. induction l as [|x l IH].
  - split; [intros _; constructor | intros _; exact I].
  - rewrite Forall_cons, <- IH. reflexivity.
Qed.

Lemma exact_numbers_array (l : list json) :
  exact_numbers (JArr l) <-> Forall exact_numbers l.
Proof.
  cbn [exact_numbers]. induction l as [|x l IH].
  - split; [intros _; constructor | intros _; exact I].
  - rewrite Forall_cons, <- IH. reflexivity.
Qed.

Lemma exact_numbers_object (l : list (ustring * json)) :
  exact_numbers (JObj l) <-> Forall (fun kv => exact_numbers (snd kv)) l.
Proof.
  cbn [exact_numbers]. induction l as [|x l IH].
  - split; [intros _; constructor | intros _; exact I].
  - rewrite Forall_cons, <- IH. reflexivity.
Qed.

(** A value whose numbers are finite and not [-0] is read back as it
    is, by an engine that reads back its numbers. *)
Lemma reread_exact (v : json) :
  reads_back_its_numbers -> exact_numbers v -> reread v = v.
Proof.
  intros Hreads.
  induction v as [| b | x | s | l IH | fs IH] using json_nested_ind; intros Hexact;
    try reflexivity.
  - destruct Hexact as [Hfin Hnz]. cbn [reread]. rewrite Hfin. f_equal.
    now apply Hreads.
  - apply exact_numbers_array in Hexact. cbn [reread]. f_equal.
    induction IH as [|v l Hv _ IHl]; [reflexivity|].
    apply Forall_cons in Hexact as [Hev Hel]. cbn [map]. now rewrite Hv, IHl.
  - apply exact_numbers_object in Hexact. cbn [reread]. f_equal.
    induction IH as [|[k v] fs Hv _ IHfs]; [reflexivity|].
    apply Forall_cons in Hexact as [Hev Hefs]. cbn [map fst snd] in *.
    now rewrite Hv, IHfs.
Qed.

Lemma obj_define_fresh (acc : list (ustring * json)) (k : ustring) (v : json) :
  k ∉ map fst acc -> obj_define acc k v = acc ++ [(k, v)].
Proof.
  induction acc as [|[k' v'] acc IH]; [reflexivity|].
  cbn [map fst]. rewrite not_elem_of_cons. intros [Hne Hnotin].
  cbn [obj_define app]. destruct (decide (k' = k)); [congruence|].
  now rewrite IH.
Qed.

Lemma parse_value_array (f : nat) (c : N) (r : ustring) :
  value_start c = true ->
  parse_value (S f) (LBRACKET :: c :: r) =
  '(l, r2) ← parse_elements f (c :: r); Some (JArr l, r2).
Proof.
  intros Hc. destruct (value_start_cases c Hc) as (Hws & Hrb & _).
  cbn [parse_value]. change (skip_ws (LBRACKET :: ?x)) with (LBRACKET :: x).
  change (LBRACKET =? LBRACKET) with true. cbv iota.
  rewrite skip_ws_value_start by assumption.
  apply N.eqb_neq in Hrb. now rewrite Hrb.
Qed.

Lemma parse_value_object (f : nat) (r : ustring) :
  parse_value (S f) (LBRACE :: QUOTE :: r) =
  '(o, r2) ← parse_members f [] (QUOTE :: r); Some (JObj o, r2).
Proof. reflexivity. Qed.

#[local] Arguments join_with_comma : simpl never.

Lemma parse_elements_serialize (l : list json) :
  l <> [] -> Forall parses_back l -> Forall json_wf l ->
  forall (fuel : nat) (rest : ustring),
    (elems_size l <= fuel)%nat ->
    parse_elements fuel (join_with_comma (map serializeJavaScript l) ++ RBRACKET :: rest)
    = Some (map reread l, rest).
Proof.
  induction l as [|v l IH]; [congruence|].
  intros _ Hall Hwf fuel rest Hfuel.
  apply Forall_cons in Hall as [Hv Hall]. apply Forall_cons in Hwf as [Hwv Hwf].
  destruct fuel as [|f]; [simpl in Hfuel; lia|].
  cbn [elems_size fold_right] in Hfuel. fold (elems_size l) in Hfuel.
  destruct l as [|w l'].
  - unfold join_with_comma. cbn [map flat_map]. rewrite app_nil_r.
    cbn [parse_elements].
    rewrite (Hv Hwv f (RBRACKET :: rest)) by (simpl; auto; lia).
    reflexivity.
  - cbn [map]. rewrite join_cons2, <- app_assoc. cbn [parse_elements].
    rewrite <- app_comm_cons.
    rewrite (Hv Hwv f) by (simpl; auto; lia).
    change (map serializeJavaScript (w :: l')) with
      (serializeJavaScript w :: map serializeJavaScript l') in IH.
    cbn.
    rewrite (IH ltac:(discriminate) Hall Hwf f rest) by lia.
    reflexivity.
Qed.

Lemma parse_members_step (f : nat) (acc : list (ustring * json))
      (k : ustring) (v : json) (tail : ustring) :
  parses_back v -> json_wf v -> (json_size v <= f)%nat -> delimited tail ->
  parse_members (S f) acc (member_text (k, v) ++ tail) =
  match tail with
  | c3 :: r4 =>
      if c3 =? COMMA then parse_members f (obj_define acc k (reread v)) r4
      else if c3 =? RBRACE then Some (obj_define acc k (reread v), r4)
      else None
  | [] => None
  end.
Proof.
  intros Hv Hwf Hsize Htail. unfold member_text. cbn [fst snd].
  rewrite <- app_comm_cons, <- app_assoc. cbn [parse_members].
  change (skip_ws (QUOTE :: ?x)) with (QUOTE :: x).
  change (QUOTE =? QUOTE) with true. cbv iota.
  rewrite parse_quoted_string. cbn [mbind option_bind].
  rewrite <- app_comm_cons.
  change (skip_ws (COLON :: ?x)) with (COLON :: x).
  change (COLON =? COLON) with true. cbv iota.
  rewrite (Hv Hwf f tail Hsize Htail). cbn [mbind option_bind].
  now rewrite delimited_skip_ws.
Qed.

Lemma parse_members_serialize (fs : list (ustring * json)) :
  fs <> [] ->
  Forall (fun kv => parses_back (snd kv)) fs ->
  Forall (fun kv => json_wf (snd kv)) fs ->
  forall (fuel : nat) (acc : list (ustring * json)) (rest : ustring),
    (fields_size fs <= fuel)%nat ->
    NoDup (map fst acc ++ map fst fs) ->
    parse_members fuel acc (join_with_comma (map member_text fs) ++ RBRACE :: rest)
    = Some (acc ++ map (fun kv => (fst kv, reread (snd kv))) fs, rest).
Proof.
  induction fs as [|[k v] fs IH]; [congruence|].
  intros _ Hall Hwf fuel acc rest Hfuel Hnodup.
  apply Forall_cons in Hall as [Hv Hall]. apply Forall_cons in Hwf as [Hwv Hwf].
  cbn [snd] in Hv, Hwv.
  destruct fuel as [|f]; [simpl in Hfuel; lia|].
  cbn [fields_size fold_right snd] in Hfuel. fold (fields_size fs) in Hfuel.
  assert (Hfresh : k ∉ map fst acc).
  { apply NoDup_app in Hnodup as (_ & Hdisj & _).
    intros Hin. apply (Hdisj k Hin). cbn [map fst]. left. }
  assert (Hnodup' : NoDup (map fst (acc ++ [(k, reread v)]) ++ map fst fs)).
  { rewrite map_app, <- app_assoc. exact Hnodup. }
  destruct fs as [|kv fs'].
  - unfold join_with_comma. cbn [map flat_map]. rewrite app_nil_r.
    rewrite parse_members_step by (simpl; auto; lia).
    change (RBRACE =? COMMA) with false. change (RBRACE =? RBRACE) with true.
    cbv iota. now rewrite obj_define_fresh.
  - cbn [map]. rewrite join_cons2, <- app_assoc, <- app_comm_cons.
    rewrite parse_members_step by (simpl; auto; lia).
    change (COMMA =? COMMA) with true. cbv iota.
    rewrite obj_define_fresh by assumption.
    change (map member_text (kv :: fs')) with
      (member_text kv :: map member_text fs') in IH.
    rewrite (IH ltac:(discriminate) Hall Hwf f (acc ++ [(k, reread v)]) rest)
      by (assumption || lia).
    now rewrite <- app_assoc.
Qed.

(** From here on the engine writes its finite numbers as literals. *)
Hypothesis Hwrites : writes_json_numbers.

Lemma serialize_number (x : number) :
  serializeJavaScript (JNum x) =
  if Number_isFinite x then Number_toString x else of_ascii_string "null".
Proof.
  unfold serializeJavaScript. cbn [JSON_stringify].
  destruct (Number_isFinite x) eqn:Hfin; [|reflexivity].
  now destruct (json_number_scanned _ [] (Hwrites x Hfin) I) as (_ & Hplain & _).
Qed.

Lemma serialize_head (v : json) :
  exists c t, serializeJavaScript v = c :: t /\ value_start c = true.
Proof.
  destruct v as [|[|]|x|s|l|fs].
  - eexists _, _; split; reflexivity.
  - eexists _, _; split; reflexivity.
  - eexists _, _; split; reflexivity.
  - rewrite serialize_number.
    destruct (Number_isFinite x) eqn:Hfin; [|eexists _, _; split; reflexivity].
    destruct (json_number_scanned _ [] (Hwrites x Hfin) I) as (_ & _ & c & t & -> & Hc).
    exists c, t. split; [reflexivity | now apply number_head_starts_value].
  - rewrite serialize_string. eexists _, _; split; reflexivity.
  - rewrite serialize_array. eexists _, _; split; reflexivity.
  - rewrite serialize_object. eexists _, _; split; reflexivity.
Qed.

Lemma parses_back_all (v : json) : parses_back v.
Proof.
  induction v as [| b | x | s | l IH | fs IH] using json_nested_ind;
    intros Hwf fuel rest Hfuel Hrest;
    (destruct fuel as [|f]; [simpl in Hfuel; lia|]).
  - reflexivity.
  - destruct b; reflexivity.
  - rewrite serialize_number. cbn [reread].
    destruct (Number_isFinite x) eqn:Hfin; [|reflexivity].
    destruct (json_number_scanned _ rest (Hwrites x Hfin) Hrest)
      as (Hscan & _ & c & t & Heq & Hc).
    rewrite Heq in *. rewrite <- app_comm_cons in *.
    rewrite parse_value_number by assumption. unfold parse_number.
    now rewrite Hscan.
  - rewrite serialize_string, <- app_comm_cons. cbn [parse_value].
    change (skip_ws (QUOTE :: ?x)) with (QUOTE :: x).
    cbn -[parse_string_body replace_all].
    now rewrite parse_quoted_string.
  - rewrite serialize_array. apply json_wf_array in Hwf.
    rewrite json_size_array in Hfuel.
    destruct l as [|v l]; [reflexivity|].
    destruct (serialize_head v) as (c & t & Hhead & Hc).
    rewrite <- app_comm_cons, <- app_assoc.
    pose proof (parse_elements_serialize (v :: l) ltac:(discriminate) IH Hwf
                  f rest ltac:(lia)) as Hp.
    revert Hp. unfold join_with_comma. cbn [map]. rewrite Hhead.
    rewrite <- !app_comm_cons. intros Hp.
    rewrite parse_value_array by assumption.
    cbn [app] in *. now rewrite Hp.
  - rewrite serialize_object. apply json_wf_object in Hwf as [Hnodup Hwf].
    rewrite json_size_object in Hfuel.
    destruct fs as [|[k v] fs]; [reflexivity|].
    rewrite <- app_comm_cons, <- app_assoc.
    pose proof (parse_members_serialize ((k, v) :: fs) ltac:(discriminate) IH Hwf
                  f [] rest ltac:(lia) Hnodup) as Hp.
    revert Hp. unfold join_with_comma. cbn [map]. unfold member_text at 1 3.
    rewrite <- !app_comm_cons. intros Hp.
    rewrite parse_value_object.
    cbn [app] in *. now rewrite Hp.
Qed.

(** *** Fuel: the length of the text is enough *)

Lemma elems_size_le (l : list json) :
  Forall (fun v => (json_size v <= length (serializeJavaScript v))%nat) l ->
  (elems_size l <= S (length (join_with_comma (map serializeJavaScript l))))%nat.
Proof.
  induction l as [|v l IH]; intros Hall; [simpl; lia|].
  apply Forall_cons in Hall as [Hv Hall]. specialize (IH Hall).
  destruct l as [|w l'].
  - unfold join_with_comma. cbn [map flat_map elems_size fold_right].
    rewrite app_nil_r. lia.
  - cbn [map] in *. rewrite join_cons2, length_app. cbn [length].
    cbn [elems_size fold_right] in *. lia.
Qed.

Lemma member_text_length (kv : ustring * json) :
  (json_size (snd kv) <= length (serializeJavaScript (snd kv)))%nat ->
  (json_size (snd kv) <= length (member_text kv))%nat.
Proof.
  intros Hlen. unfold member_text. cbn [length]. rewrite length_app. cbn [length]. lia.
Qed.

Lemma fields_size_le (l : list (ustring * json)) :
  Forall (fun kv => (json_size (snd kv) <= length (serializeJavaScript (snd kv)))%nat) l ->
  (fields_size l <= S (length (join_with_comma (map member_text l))))%nat.
Proof.
  induction l as [|kv l IH]; intros Hall; [simpl; lia|].
  apply Forall_cons in Hall as [Hv Hall]. specialize (IH Hall).
  apply member_text_length in Hv.
  destruct l as [|w l'].
  - unfold join_with_comma. cbn [map flat_map fields_size fold_right].
    rewrite app_nil_r. lia.
  - cbn [map] in *. rewrite join_cons2, length_app. cbn [length].
    cbn [fields_size fold_right] in *. lia.
Qed.

Lemma serialize_length (v : json) :
  (json_size v <= length (serializeJavaScript v))%nat.
Proof.
  induction v as [| b | x | s | l IH | fs IH] using json_nested_ind.
  - simpl. lia.
  - destruct b; simpl; lia.
  - destruct (serialize_head (JNum x)) as (c & t & -> & _). simpl. lia.
  - rewrite serialize_string. simpl. lia.
  - rewrite serialize_array, json_size_array. cbn [length].
    rewrite length_app. cbn [length]. apply elems_size_le in IH. lia.
  - rewrite serialize_object, json_size_object. cbn [length].
    rewrite length_app. cbn [length]. apply fields_size_le in IH. lia.
Qed.

Lemma JSON_parse_serialize (v : json) :
  json_wf v -> JSON_parse (serializeJavaScript v) = Some (reread v).
Proof.
  intros Hwf. unfold JSON_parse.
  pose proof (parses_back_all v Hwf (length (serializeJavaScript v)) []
                (serialize_length v) I) as Hp.
  rewrite app_nil_r in Hp. now rewrite Hp.
Qed.

End Values.

(** *** The replacement against the table of the specification *)

Lemma replace_unit_spec (c : N) :
  (if matches_escape_class c then replace_callback c else [c]) = spec_escape_unit c.
Proof.
  unfold matches_escape_class, replace_callback, spec_escape_unit, spec_escape_table.
  cbn [find fst snd].
  rewrite !(N.eqb_sym _ c).
  destruct (c =? LT); [reflexivity|].
  destruct (c =? GT); [reflexivity|].
  destruct (c =? SLASH); [reflexivity|].
  destruct (c =? LS); [reflexivity|].
  destruct (c =? PS); reflexivity.
Qed.

Lemma replace_all_spec (s : ustring) : replace_all s = spec_encode s.
Proof.
  unfold replace_all, spec_encode. induction s as [|c s IH]; [reflexivity|].
  cbn [flat_map]. now rewrite IH, replace_unit_spec.
Qed.

Lemma replace_all_clean (s : ustring) :
  Forall (fun c => matches_escape_class c = false) (replace_all s).
Proof.
  unfold replace_all. induction s as [|c s IH]; [constructor|].
  cbn [flat_map]. apply Forall_app. split; [|exact IH].
  destruct (matches_escape_class c) eqn:Hc.
  - unfold matches_escape_class in Hc. unfold replace_callback.
    destruct (c =? LT); [repeat constructor|].
    destruct (c =? GT); [repeat constructor|].
    destruct (c =? SLASH); [repeat constructor|].
    destruct (c =? LS); [repeat constructor|].
    destruct (c =? PS); [repeat constructor|discriminate].
  - now repeat constructor.
Qed.

End CodecFacts.

(** ** The engine of the examples keeps the rules of an engine *)

Module SmallEngineFacts.
Import Units Json Codec Parser CodecSpec CodecFacts SmallEngine.

Lemma small_integer_safe (z : Z) (safe : Is_true (is_safe z)) :
  small_integer z = SafeInteger z safe.
Proof.
  unfold small_integer. destruct (decide (Is_true (is_safe z))) as [safe'|unsafe].
  - f_equal. apply proof_irrel.
  - contradiction.
Qed.

Lemma read_digits_uint_units (u : Decimal.uint) :
  read_digits (uint_units u) = (u, []).
Proof. induction u; simpl; try (rewrite IHu; reflexivity). reflexivity. Qed.

Lemma take_digits_uint_units (u : Decimal.uint) :
  take_digits (uint_units u) = (uint_units u, []).
Proof. induction u; cbn [uint_units take_digits]; try (rewrite IHu; reflexivity). reflexivity. Qed.

Lemma to_uint_normal (n : N) : Decimal.unorm (N.to_uint n) = N.to_uint n.
Proof.
  rewrite <- (DecimalN.Unsigned.to_of (N.to_uint n)).
  now rewrite DecimalN.Unsigned.of_to.
Qed.

Lemma to_uint_nonnil (n : N) : N.to_uint n <> Decimal.Nil.
Proof.
  destruct n; simpl; [discriminate|].
  apply DecimalPos.Unsigned.to_uint_nonnil.
Qed.

(** The digits of a natural number are an [int] of the grammar: a zero
    alone, or digits that do not start with a zero. *)
Lemma scan_unsigned_digits (n : N) :
  scan_unsigned (uint_units (N.to_uint n)) = Some (uint_units (N.to_uint n), []).
Proof.
  assert (Hnorm := to_uint_normal n). assert (Hnn := to_uint_nonnil n).
  assert (Hint : scan_int (uint_units (N.to_uint n)) = Some (uint_units (N.to_uint n), [])).
  { destruct (N.to_uint n) as [|u|u|u|u|u|u|u|u|u|u]; [congruence|..];
      try (cbn [uint_units scan_int]; change (digit_unit _ =? 48) with false;
           change (is_digit (digit_unit _)) with true; cbv iota;
           now rewrite take_digits_uint_units).
    destruct u; try (exfalso;
      rewrite unorm_D0 in Hnorm;
      match type of Hnorm with Decimal.unorm ?w = _ =>
        assert (Hlen := nb_digits_unorm w ltac:(discriminate));
        rewrite Hnorm in Hlen; simpl in Hlen; lia
      end).
    reflexivity. }
  unfold scan_unsigned. rewrite Hint. cbn. now rewrite app_nil_r.
Qed.

Lemma digits_value_digits (n : N) :
  digits_value (uint_units (N.to_uint n)) = Some n.
Proof.
  unfold digits_value. rewrite read_digits_uint_units.
  pose proof (to_uint_nonnil n) as Hnn. pose proof (DecimalN.Unsigned.of_to n) as Hof.
  destruct (N.to_uint n); [congruence|..]; now rewrite Hof.
Qed.

Lemma digits_head (n : N) :
  exists c t, uint_units (N.to_uint n) = c :: t /\ (c =? MINUS) = false.
Proof.
  pose proof (to_uint_nonnil n) as Hnn.
  destruct (N.to_uint n); [congruence|..]; eexists _, _; split; reflexivity.
Qed.

Lemma is_json_number_integer (z : Z) : is_json_number (integer_to_string z) = true.
Proof.
  unfold is_json_number, integer_to_string. destruct (z <? 0)%Z.
  - cbn [scan_number]. change (MINUS =? MINUS) with true. cbv iota.
    now rewrite scan_unsigned_digits.
  - destruct (digits_head (Z.to_N z)) as (c & t & Heq & Hc).
    pose proof (scan_unsigned_digits (Z.to_N z)) as Hs. rewrite Heq in *.
    cbn [scan_number]. now rewrite Hc, Hs.
Qed.

Lemma small_of_integer_text (z : Z) :
  small_of_literal (integer_to_string z) = small_integer z.
Proof.
  unfold integer_to_string. destruct (Z.ltb_spec z 0) as [Hneg|Hpos].
  - cbn [small_of_literal]. change (MINUS =? MINUS) with true. cbv iota.
    rewrite digits_value_digits.
    destruct (N.eqb_spec (Z.to_N (- z)) 0) as [Hz|_]; [lia|].
    f_equal. lia.
  - destruct (digits_head (Z.to_N z)) as (c & t & Heq & Hc).
    pose proof (digits_value_digits (Z.to_N z)) as Hv. rewrite Heq in *.
    cbn [small_of_literal]. rewrite Hc, Hv. f_equal. lia.
Qed.

Lemma small_writes_json_numbers : writes_json_numbers.
Proof.
  intros [|z safe|] Hfin; [reflexivity | apply is_json_number_integer | discriminate].
Qed.

Lemma small_reads_back_its_numbers : reads_back_its_numbers.
Proof.
  intros [|z safe|] Hfin Hnz; [exfalso; now apply Hnz| |discriminate].
  cbn [StringToNumber Number_toString small_engine small_toString].
  rewrite small_of_integer_text. apply small_integer_safe.
Qed.

Lemma small_drops_the_sign_of_zero : drops_the_sign_of_zero.
Proof. split; [reflexivity|]. split; [reflexivity|]. vm_compute. discriminate. Qed.

(** Running an example: the two sides of an equation are evaluated, the
    type they live in is left as it is. *)
Ltac run_sides :=
  lazymatch goal with
  | |- @eq ?T ?l ?r =>
      let l' := eval vm_compute in l in
      let r' := eval vm_compute in r in
      change (@eq T l' r')
  end.

Ltac run_sides_in H :=
  lazymatch type of H with
  | @eq ?T ?l ?r =>
      let l' := eval vm_compute in l in
      let r' := eval vm_compute in r in
      change (@eq T l' r') in H
  end.

Ltac run := run_sides; reflexivity.

End SmallEngineFacts.

(** ** The sanitizer against its specification *)

Module SanitizeFacts.
Import Sanitize.

(** *** Own properties *)

Lemma find_key_fresh (fields : list (string * jsval)) (k : string) :
  k ∉ map fst fields -> find (fun kv => String.eqb (fst kv) k) fields = None.
Proof.
  induction fields as [|[k' v'] fields IH]; [reflexivity|].
  cbn [map fst]. rewrite not_elem_of_cons. intros [Hne Hnotin].
  cbn [find fst]. destruct (String.eqb_spec k' k); [congruence | auto].
Qed.

Lemma obj_get_middle (done todo : list (string * jsval)) (k : string) (v : jsval) :
  k ∉ map fst done -> obj_get (done ++ (k, v) :: todo) k = Some v.
Proof.
  intros Hfresh. unfold obj_get.
  induction done as [|[k' v'] done IH].
  - cbn [app find fst]. now rewrite String.eqb_refl.
  - cbn [map fst] in Hfresh. apply not_elem_of_cons in Hfresh as [Hne Hnotin].
    cbn [app find fst]. destruct (String.eqb_spec k' k); [congruence | auto].
Qed.

Lemma obj_delete_fresh (fields : list (string * jsval)) (k : string) :
  k ∉ map fst fields -> obj_delete fields k = fields.
Proof.
  unfold obj_delete. induction fields as [|[k' v'] fields IH]; [reflexivity|].
  cbn [map fst]. rewrite not_elem_of_cons. intros [Hne Hnotin].
  rewrite filter_cons. cbn [fst].
  destruct (decide (String.eqb k' k = false)) as [_|Hn].
  - now rewrite IH.
  - exfalso. apply Hn. now apply String.eqb_neq.
Qed.

Lemma obj_delete_middle (done todo : list (string * jsval)) (k : string) (v : jsval) :
  k ∉ map fst done -> k ∉ map fst todo ->
  obj_delete (done ++ (k, v) :: todo) k = done ++ todo.
Proof.
  intros Hd Ht. unfold obj_delete. rewrite filter_app, filter_cons. cbn [fst].
  rewrite String.eqb_refl.
  destruct (decide (true = false)); [discriminate|].
  fold (obj_delete done k). fold (obj_delete todo k).
  now rewrite !obj_delete_fresh.
Qed.

Lemma obj_set_fresh (fields : list (string * jsval)) (k : string) (r : jsval) :
  k ∉ map fst fields -> obj_set fields k r = fields.
Proof.
  unfold obj_set. induction fields as [|[k' v'] fields IH]; [reflexivity|].
  cbn [map fst]. rewrite not_elem_of_cons. intros [Hne Hnotin].
  destruct (String.eqb_spec k' k); [congruence|]. now rewrite IH.
Qed.

Lemma obj_set_middle (done todo : list (string * jsval)) (k : string) (v r : jsval) :
  k ∉ map fst done -> k ∉ map fst todo ->
  obj_set (done ++ (k, v) :: todo) k r = done ++ (k, r) :: todo.
Proof.
  intros Hd Ht. unfold obj_set. rewrite map_app. cbn [map fst].
  rewrite String.eqb_refl.
  fold (obj_set done k r). fold (obj_set todo k r).
  now rewrite !obj_set_fresh.
Qed.

(** *** Stores that grow *)

Lemma val_ok_app (s ext : store) (v : jsval) : val_ok s v -> val_ok (s ++ ext) v.
Proof. destruct v; simpl; [auto|]. rewrite length_app. lia. Qed.

Lemma val_ok_length (s s' : store) (v : jsval) :
  length s = length s' -> val_ok s v -> val_ok s' v.
Proof. destruct v; simpl; [auto|]. intros ->. auto. Qed.

Lemma insert_at_end (s ext : store) (o : jsobj) :
  <[length s := o]> (s ++ ext) = s ++ <[0%nat := o]> ext.
Proof.
  replace (length s) with (length s + 0)%nat at 1 by lia.
  apply insert_app_r.
Qed.

Lemma reify_ext (d : nat) :
  forall (s ext : store) (v : jsval),
    store_wf s -> val_ok s v -> reify d (s ++ ext) v = reify d s v.
Proof.
  induction d as [|d IH]; intros s ext [p|l] Hwf Hok; try reflexivity.
  simpl in Hok. cbn [reify].
  rewrite lookup_app_l by assumption.
  destruct (s !! l) as [o|] eqn:Hl; [|reflexivity].
  f_equal. destruct (Hwf l o Hl) as [_ Hvals].
  induction Hvals as [|kv fs Hkv _ IHfs]; [reflexivity|].
  cbn [map]. now rewrite IH, IHfs.
Qed.

Lemma reify_update (d : nat) :
  forall (s : store) (m : nat) (o' : jsobj) (v : jsval),
    unreferenced s m -> v <> VRef m ->
    reify d (<[m := o']> s) v = reify d s v.
Proof.
  induction d as [|d IH]; intros s m o' [p|l] Hun Hne; try reflexivity.
  cbn [reify].
  rewrite list_lookup_insert_ne by (intros ->; now apply Hne).
  destruct (s !! l) as [o|] eqn:Hl; [|reflexivity].
  f_equal. pose proof (Hun l o Hl) as Hfs.
  induction Hfs as [|kv fs Hkv _ IHfs]; [reflexivity|].
  cbn [map]. rewrite IH by assumption. now rewrite IHfs.
Qed.

(** Writing an object at [m] keeps a store well formed when the new
    object is. *)
Lemma store_wf_insert (s : store) (m : nat) (o' : jsobj) :
  store_wf s ->
  NoDup (map fst (props o')) -> Forall (fun kv => val_ok s (snd kv)) (props o') ->
  store_wf (<[m := o']> s).
Proof.
  intros Hwf Hnd Hvals l o Hl.
  assert (Hlen : length s = length (<[m := o']> s)) by now rewrite length_insert.
  destruct (decide (m = l)) as [->|Hne].
  - assert (Hlt : (l < length s)%nat).
    { apply lookup_lt_Some in Hl. now rewrite length_insert in Hl. }
    rewrite list_lookup_insert_eq in Hl by assumption. injection Hl as <-.
    split; [assumption|].
    eapply Forall_impl; [exact Hvals|]. intros kv. now apply val_ok_length.
  - rewrite list_lookup_insert_ne in Hl by assumption.
    destruct (Hwf l o Hl) as [Hnd' Hvals']. split; [assumption|].
    eapply Forall_impl; [exact Hvals'|]. intros kv. now apply val_ok_length.
Qed.

Lemma unreferenced_insert (s : store) (m k : nat) (o' : jsobj) :
  unreferenced s k ->
  Forall (fun kv => snd kv <> VRef k) (props o') ->
  unreferenced (<[m := o']> s) k.
Proof.
  intros Hun Hvals l o Hl.
  destruct (decide (m = l)) as [->|Hne].
  - assert (Hlt : (l < length s)%nat).
    { apply lookup_lt_Some in Hl. now rewrite length_insert in Hl. }
    rewrite list_lookup_insert_eq in Hl by assumption. now injection Hl as <-.
  - rewrite list_lookup_insert_ne in Hl by assumption. now apply (Hun l).
Qed.

(** *** The loop over the keys *)

Lemma fields_sanitized_transport (n : nat) (s cur cur' : store)
      (src done : list (string * jsval)) :
  Forall2 (field_sanitized n s cur) src done ->
  Forall (fun kv' => forall d, reify d cur' (snd kv') = reify d cur (snd kv')) done ->
  Forall2 (field_sanitized n s cur') src done.
Proof.
  intros H. induction H as [|kv kv' src done [Hk Hv] _ IH]; intros Hall.
  - constructor.
  - apply Forall_cons in Hall as [Hkv' Hall]. constructor; [|auto].
    split; [assumption|]. intros d. now rewrite Hkv', Hv.
Qed.

Lemma filter_not_secret_snoc (src : list (string * jsval)) (kv : string * jsval) :
  filter not_secret (src ++ [kv]) =
  filter not_secret src ++ (if is_secret_key (fst kv) then [] else [kv]).
Proof.
  rewrite filter_app. f_equal. rewrite filter_cons, filter_nil.
  unfold not_secret. case_decide as Hd;
    destruct (is_secret_key (fst kv)); congruence.
Qed.

Lemma not_object_is_prim (v : jsval) :
  truthy v && typeof_is_object v = false -> exists p, v = VPrim p.
Proof. destruct v as [p|l]; [eauto | discriminate]. Qed.

Lemma clone_keys_fresh (done todo : list (string * jsval)) (k : string) (v : jsval) :
  NoDup (map fst (done ++ (k, v) :: todo)) ->
  (k ∉ map fst done) /\ (k ∉ map fst todo) /\ NoDup (map fst (done ++ todo)).
Proof.
  rewrite !map_app. cbn [map fst]. intros H.
  apply NoDup_app in H as (Hd & Hdisj & Ht).
  apply NoDup_cons in Ht as [Hk Ht].
  split; [|split; [assumption|]].
  - intros Hin. apply (Hdisj k Hin). left.
  - apply NoDup_app. split; [assumption|]. split; [|assumption].
    intros x Hx Hx'. apply (Hdisj x Hx). now right.
Qed.

Section Loop.
Variable n : nat.
Hypothesis IH :
  forall (s : store) (data : jsval),
    store_wf s -> val_ok s data ->
    sanitized_result n s data (sanitize_levels n s data).

Variables (s : store) (c : jsobj).
Hypothesis Hwf : store_wf s.
Hypothesis Hc : made_of s c.

Lemma loop_step (done_src todo : list (string * jsval)) (k : string) (v : jsval)
      (cur : store) :
  props c = done_src ++ (k, v) :: todo ->
  loop_inv n s c done_src ((k, v) :: todo) cur ->
  loop_inv n s c (done_src ++ [(k, v)]) todo
           (visit_key (sanitize_levels n) (length s) cur k).
Proof.
  intros Hprops (ext & done & -> & Hclone & Hwfc & Hdone & Hunm & Hunl).
  unfold with_props in Hclone.
  destruct (Hwfc _ _ Hclone) as [Hnd Hvals]. cbn [props] in Hnd, Hvals.
  destruct (clone_keys_fresh _ _ _ _ Hnd) as (Hkd & Hkt & Hnd').
  apply Forall_app in Hvals as [Hvd Hvt]. apply Forall_cons in Hvt as [Hv Hvt].
  cbn [snd] in Hv.
  pose proof (Hunl _ _ Hclone) as Hself. cbn [props] in Hself.
  apply Forall_app in Hself as [Hsd Hst]. apply Forall_cons in Hst as [Hsv Hst].
  cbn [snd] in Hsv.
  assert (Hlt : (length s < length (s ++ ext))%nat) by now apply lookup_lt_Some in Hclone.
  destruct Hc as (_ & Hsrc & Hsrcm). rewrite Hprops in Hsrc.
  apply Forall_app in Hsrc as [_ Hsrc]. apply Forall_cons in Hsrc as [Hvs _].
  cbn [snd] in Hvs.
  assert (Hvm : forall m, unreferenced s m -> v <> VRef m).
  { intros m Hm. specialize (Hsrcm m Hm). rewrite Hprops in Hsrcm.
    apply Forall_app in Hsrcm as [_ Hsrcm]. now apply Forall_cons in Hsrcm as [Hsrcm _]. }
  unfold visit_key, loop_inv. rewrite Hclone. cbn [props].
  rewrite obj_get_middle by assumption.
  rewrite filter_not_secret_snoc. cbn [fst].
  destruct (is_secret_key k) eqn:Hsec.
  - (* delete sanitized[key] *)
    unfold with_props. cbn [kind props].
    rewrite obj_delete_middle by assumption. rewrite insert_at_end, app_nil_r.
    rewrite <- insert_at_end.
    set (o' := MkObj (kind c) (done ++ todo)).
    exists (<[0%nat := o']> ext), done.
    split; [apply insert_at_end|].
    split; [now apply list_lookup_insert_eq|].
    split.
    { apply store_wf_insert; [assumption | assumption |].
      apply Forall_app. now split. }
    split.
    { eapply fields_sanitized_transport; [exact Hdone|].
      eapply Forall_impl; [exact Hsd|]. intros kv' Hkv' d.
      now apply reify_update. }
    split.
    { intros m Hm Hunr. apply unreferenced_insert; [auto|].
      pose proof (Hunm m Hm Hunr _ _ Hclone) as Hf. cbn [props] in Hf.
      apply Forall_app in Hf as [Hf1 Hf2]. apply Forall_cons in Hf2 as [_ Hf2].
      apply Forall_app. now split. }
    apply unreferenced_insert; [assumption|]. apply Forall_app. now split.
  - destruct (truthy v && typeof_is_object v) eqn:Hobj.
    + (* sanitized[key] = sanitizeInitialProps(value, depth + 1) *)
      assert (Hvc : val_ok (s ++ ext) v) by now apply val_ok_app.
      destruct (IH (s ++ ext) v Hwfc Hvc) as (ext1 & Hs1 & Hwf1 & Hr1 & Hreify1 & Hun1).
      destruct (sanitize_levels n (s ++ ext) v) as [s1 r]. cbn [fst snd] in *.
      subst s1.
      assert (Hvl : v <> VRef (length s)).
      { destruct v as [p|lv]; [discriminate|]. simpl in Hvs. intros [= ->]. lia. }
      destruct (Hun1 (length s) Hlt Hunl Hvl) as [Hunl1 Hrl].
      rewrite lookup_app_l by assumption. rewrite Hclone.
      unfold with_props. cbn [kind props].
      rewrite obj_set_middle by assumption.
      set (o' := MkObj (kind c) (done ++ (k, r) :: todo)).
      rewrite <- app_assoc.
      assert (Hclone1 : (s ++ ext ++ ext1) !! length s =
                        Some (MkObj (kind c) (done ++ (k, v) :: todo))).
      { rewrite app_assoc, lookup_app_l by assumption. exact Hclone. }
      assert (Hlt1 : (length s < length (s ++ ext ++ ext1))%nat)
        by now apply lookup_lt_Some in Hclone1.
      rewrite <- app_assoc in Hwf1, Hr1, Hreify1, Hun1, Hunl1.
      exists (<[0%nat := o']> (ext ++ ext1)), (done ++ [(k, r)]).
      split; [apply insert_at_end|].
      split; [rewrite <- app_assoc; now apply list_lookup_insert_eq|].
      split.
      { apply store_wf_insert; [assumption | |].
        - subst o'. cbn [props]. rewrite map_app in *. exact Hnd.
        - subst o'. cbn [props]. apply Forall_app. split.
          + eapply Forall_impl; [exact Hvd|]. intros kv. rewrite app_assoc.
            apply val_ok_app.
          + apply Forall_cons. split; [exact Hr1|].
            eapply Forall_impl; [exact Hvt|]. intros kv. rewrite app_assoc.
            apply val_ok_app. }
      split.
      { apply Forall2_app.
        - eapply fields_sanitized_transport; [exact Hdone|].
          apply Forall_forall. intros kv' Hin d.
          rewrite reify_update; [| assumption |].
          + rewrite app_assoc. apply reify_ext; [assumption|].
            rewrite Forall_forall in Hvd. now apply Hvd.
          + rewrite Forall_forall in Hsd. now apply Hsd.
        - constructor; [|constructor]. split; [reflexivity|]. cbn [snd]. intros d.
          rewrite reify_update by assumption.
          rewrite Hreify1. f_equal. now apply reify_ext. }
      split.
      { intros m Hm Hunr.
        assert (Hmc : (m < length (s ++ ext))%nat) by (rewrite length_app; lia).
        destruct (Hun1 m Hmc (Hunm m Hm Hunr) (Hvm m Hunr)) as [Hum Hrm].
        apply unreferenced_insert; [assumption|].
        pose proof (Hunm m Hm Hunr _ _ Hclone) as Hf. cbn [props] in Hf.
        apply Forall_app in Hf as [Hf1 Hf2]. apply Forall_cons in Hf2 as [_ Hf2].
        subst o'. cbn [props]. apply Forall_app. split; [assumption|].
        apply Forall_cons. now split. }
      apply unreferenced_insert; [assumption|].
      subst o'. cbn [props]. apply Forall_app. split; [assumption|].
      apply Forall_cons. now split.
    + (* a primitive: the field stays *)
      destruct (not_object_is_prim v Hobj) as [p ->].
      exists ext, (done ++ [(k, VPrim p)]).
      split; [reflexivity|].
      split; [now rewrite <- app_assoc|].
      split; [assumption|].
      split.
      { apply Forall2_app; [assumption|].
        constructor; [|constructor]. split; [reflexivity|]. intros d.
        cbn [snd]. destruct d, n; reflexivity. }
      split; assumption.
Qed.

Lemma loop_all (todo : list (string * jsval)) :
  forall (done_src : list (string * jsval)) (cur : store),
    props c = done_src ++ todo ->
    loop_inv n s c done_src todo cur ->
    loop_inv n s c (props c) []
             (fold_left (visit_key (sanitize_levels n) (length s)) (map fst todo) cur).
Proof.
  induction todo as [|[k v] todo IHtodo]; intros done_src cur Hprops Hinv.
  - rewrite app_nil_r in Hprops. now rewrite Hprops.
  - cbn [map fst fold_left].
    apply (IHtodo (done_src ++ [(k, v)])).
    + now rewrite <- app_assoc.
    + now apply loop_step.
Qed.

End Loop.

(** *** The spread *)

Lemma index_key_inj (i j : nat) : index_key i = index_key j -> i = j.
Proof.
  unfold index_key. intros H. apply DecimalNat.Unsigned.to_uint_inj.
  apply (f_equal NilEmpty.uint_of_string) in H.
  rewrite !NilEmpty.usu in H. now injection H.
Qed.

Lemma index_key_not_secret (i : nat) : is_secret_key (index_key i) = false.
Proof.
  unfold is_secret_key, index_key.
  destruct (String.eqb_spec (NilEmpty.string_of_uint (Nat.to_uint i)) "password") as [H|_].
  { apply (f_equal NilEmpty.uint_of_string) in H. rewrite NilEmpty.usu in H.
    discriminate H. }
  destruct (String.eqb_spec (NilEmpty.string_of_uint (Nat.to_uint i)) "passwordHash") as [H|_].
  { apply (f_equal NilEmpty.uint_of_string) in H. rewrite NilEmpty.usu in H.
    discriminate H. }
  reflexivity.
Qed.

Lemma index_keys_NoDup (start len : nat) : NoDup (map index_key (seq start len)).
Proof.
  apply NoDup_fmap_2; [intros i j; apply index_key_inj | apply NoDup_seq].
Qed.

Lemma obj_get_elem (fields : list (string * jsval)) (k : string) (v : jsval) :
  obj_get fields k = Some v -> (k, v) ∈ fields.
Proof.
  unfold obj_get. induction fields as [|[k' v'] fields IH]; [discriminate|].
  cbn [find fst]. destruct (String.eqb_spec k' k) as [->|Hne].
  - cbn. intros [= ->]. left.
  - intros H. right. now apply IH.
Qed.

(** What a spread holds comes from the object it copies. *)
Lemma spread_values (o : jsobj) (kv : string * jsval) :
  kv ∈ props (spread o) -> snd kv = VPrim PUndefined \/ kv ∈ props o.
Proof.
  unfold spread. destruct (kind o) as [|len|]; cbn [props]; [now right| |now right].
  unfold spread_array. intros Hin. apply list_elem_of_fmap in Hin as (i & -> & _).
  cbn [snd]. destruct (obj_get (props o) (index_key i)) as [v|] eqn:Hget; [|now left].
  right. now apply obj_get_elem.
Qed.

Lemma spread_keys_NoDup (o : jsobj) :
  NoDup (map fst (props o)) -> NoDup (map fst (props (spread o))).
Proof.
  unfold spread. destruct (kind o) as [|len|]; cbn [props]; [auto| |auto].
  intros _. unfold spread_array. rewrite map_map. cbn [fst].
  apply index_keys_NoDup.
Qed.

Lemma spread_made_of (s : store) (l : nat) (o : jsobj) :
  store_wf s -> s !! l = Some o -> made_of s (spread o).
Proof.
  intros Hwf Hl. destruct (Hwf _ _ Hl) as [Hnd Hvals].
  split; [now apply spread_keys_NoDup|]. split.
  - apply Forall_forall. intros kv Hin.
    destruct (spread_values o kv Hin) as [->|Hin']; [exact I|].
    rewrite Forall_forall in Hvals. now apply Hvals.
  - intros m Hun. apply Forall_forall. intros kv Hin.
    destruct (spread_values o kv Hin) as [->|Hin']; [discriminate|].
    pose proof (Hun _ _ Hl) as Hf. rewrite Forall_forall in Hf. now apply Hf.
Qed.

Lemma field_of_reify (d : nat) (s : store) (fields : list (string * jsval)) (k : string) :
  field_of (map (fun kv => (fst kv, reify d s (snd kv))) fields) k =
  reify d s <$> obj_get fields k.
Proof.
  unfold field_of, obj_get.
  induction fields as [|[k' v'] fields IH]; [reflexivity|].
  cbn [map find fst snd]. now destruct (String.eqb k' k).
Qed.

(** Reading the spread of an object is spreading what the object reads
    as. *)
Lemma spread_snapshot_reify (d : nat) (s : store) (o : jsobj) :
  spread_snapshot (kind o) (map (fun kv => (fst kv, reify d s (snd kv))) (props o)) =
  (kind (spread o), map (fun kv => (fst kv, reify d s (snd kv))) (props (spread o))).
Proof.
  unfold spread, spread_snapshot.
  destruct (kind o) as [|len|]; cbn [kind props]; [reflexivity| |reflexivity].
  f_equal. unfold spread_array. rewrite map_map. apply map_ext. intros i.
  cbn [fst snd]. f_equal. rewrite field_of_reify.
  destruct (obj_get (props o) (index_key i)) as [v|]; [reflexivity|].
  cbn. now destruct d.
Qed.

(** *** The whole call *)

Lemma reify_sanitized_fields (n d : nat) (s cur : store) :
  forall (src done : list (string * jsval)),
    Forall2 (field_sanitized n s cur) (filter not_secret src) done ->
    map (fun kv => (fst kv, spread_sanitize n (snd kv)))
        (filter (fun kv : string * snapshot => is_secret_key (fst kv) = false)
                (map (fun kv => (fst kv, reify d s (snd kv))) src))
    = map (fun kv => (fst kv, reify d cur (snd kv))) done.
Proof.
  induction src as [|[k v] src IH]; intros done Hall.
  - rewrite filter_nil in Hall. apply Forall2_nil_inv_l in Hall. now subst done.
  - cbn [map]. rewrite filter_cons. rewrite filter_cons in Hall.
    unfold not_secret in Hall at 1. cbn [fst] in *.
    destruct (decide (is_secret_key k = false)) as [Hsec|Hsec].
    2: { now apply IH. }
    +
      apply Forall2_cons_inv_l in Hall as ([k' v'] & done' & [Hk Hv] & Hall & ->).
      cbn [fst snd map] in *. subst k'. rewrite Hv. f_equal. now apply IH.
Qed.

Lemma with_own_props (c : jsobj) : with_props c (props c) = c.
Proof. now destruct c. Qed.

Lemma clone_loop_inv (n : nat) (s : store) (c : jsobj) :
  store_wf s -> made_of s c ->
  loop_inv n s c [] (props c) (s ++ [c]).
Proof.
  intros Hwf (Hnd & Hvals & Hunr).
  assert (Hrefs : forall l1 o1, s !! l1 = Some o1 ->
                    Forall (fun kv => snd kv <> VRef (length s)) (props o1)).
  { intros l1 o1 H1. destruct (Hwf _ _ H1) as [_ Hv1].
    eapply Forall_impl; [exact Hv1|]. intros [k [p|lv]]; cbn; [discriminate|].
    intros Hlt [= ->]. lia. }
  assert (Hself : Forall (fun kv => snd kv <> VRef (length s)) (props c)).
  { eapply Forall_impl; [exact Hvals|]. intros [k [p|lv]]; cbn; [discriminate|].
    intros Hlt [= ->]. lia. }
  exists [c], [].
  split; [reflexivity|].
  split; [cbn [app]; rewrite with_own_props; now rewrite list_lookup_middle|].
  split.
  { intros l1 o1 H1. apply lookup_snoc_Some in H1 as [[_ H1]|[_ <-]].
    - destruct (Hwf _ _ H1) as [Hnd1 Hv1]. split; [assumption|].
      eapply Forall_impl; [exact Hv1|]. intros kv. apply val_ok_app.
    - split; [assumption|].
      eapply Forall_impl; [exact Hvals|]. intros kv. apply val_ok_app. }
  split; [rewrite filter_nil; constructor|].
  split.
  { intros m Hm Hun l1 o1 H1. apply lookup_snoc_Some in H1 as [[_ H1]|[_ <-]].
    - now apply (Hun l1).
    - now apply Hunr. }
  intros l1 o1 H1. apply lookup_snoc_Some in H1 as [[_ H1]|[_ <-]].
  - now apply (Hrefs l1).
  - exact Hself.
Qed.

Lemma sanitize_levels_correct (n : nat) :
  forall (s : store) (data : jsval),
    store_wf s -> val_ok s data ->
    sanitized_result n s data (sanitize_levels n s data).
Proof.
  induction n as [|n IH]; intros s data Hwf Hok.
  - exists []. cbn [sanitize_levels fst snd spread_sanitize]. rewrite app_nil_r.
    split; [reflexivity|]. split; [assumption|]. split; [assumption|].
    split; [reflexivity|]. intros m _ Hun Hne. now split.
  - destruct data as [p|l].
    + assert (Hres : sanitize_levels (S n) s (VPrim p) = (s, VPrim p)).
      { cbn [sanitize_levels].
        now destruct (negb (truthy (VPrim p)) || negb (typeof_is_object (VPrim p))). }
      rewrite Hres. exists []. cbn [fst snd]. rewrite app_nil_r.
      split; [reflexivity|]. split; [assumption|]. split; [assumption|].
      split; [intros d; now destruct d|]. intros m _ Hun Hne. now split.
    + cbn [sanitize_levels truthy typeof_is_object negb orb].
      simpl in Hok. destruct (lookup_lt_is_Some_2 s l Hok) as [o Hl].
      rewrite Hl. unfold clone.
      pose proof (spread_made_of s l o Hwf Hl) as Hmade.
      pose proof (loop_all n IH s (spread o) Hwf Hmade (props (spread o)) [] _ eq_refl
                    (clone_loop_inv n s (spread o) Hwf Hmade)) as Hinv.
      destruct Hinv as (ext & done & Hfinal & Hclone & Hwfc & Hdone & Hunm & Hunl).
      rewrite app_nil_r in Hclone.
      exists ext. cbn [fst snd].
      split; [exact Hfinal|]. rewrite <- Hfinal.
      split; [assumption|].
      split; [apply lookup_lt_Some in Hclone; exact Hclone|].
      split.
      { intros [|d]; [reflexivity|].
        cbn [reify]. rewrite Hclone, Hl. cbn [spread_sanitize].
        rewrite spread_snapshot_reify. cbn [fst snd with_props kind props].
        f_equal. symmetry. now apply reify_sanitized_fields. }
      intros m Hm Hun _. split; [now apply Hunm|]. intros [= Heq]. lia.
Qed.

(** *** Properties of the two descriptions *)

Lemma filter_index_keys {A : Type} (f : nat -> A) (ns : list nat) :
  filter (fun kv : string * A => is_secret_key (fst kv) = false)
         (map (fun i => (index_key i, f i)) ns)
  = map (fun i => (index_key i, f i)) ns.
Proof.
  induction ns as [|i ns IH]; [reflexivity|].
  cbn [map]. rewrite filter_cons. cbn [fst].
  destruct (decide (is_secret_key (index_key i) = false)) as [_|Hn].
  - now rewrite IH.
  - exfalso. apply Hn. apply index_key_not_secret.
Qed.

Lemma filter_not_secret_twice {A : Type} (fields : list (string * A)) :
  filter (fun kv : string * A => is_secret_key (fst kv) = false)
         (filter (fun kv : string * A => is_secret_key (fst kv) = false) fields)
  = filter (fun kv : string * A => is_secret_key (fst kv) = false) fields.
Proof.
  induction fields as [|kv fields IH]; [reflexivity|].
  rewrite filter_cons. destruct (decide (is_secret_key (fst kv) = false)) as [H|H].
  - rewrite filter_cons. destruct (decide (is_secret_key (fst kv) = false)); [|contradiction].
    now rewrite IH.
  - exact IH.
Qed.

Lemma filter_not_secret_map {A : Type} (g : A -> A) (fields : list (string * A)) :
  filter (fun kv : string * A => is_secret_key (fst kv) = false)
         (map (fun kv => (fst kv, g (snd kv))) fields)
  = map (fun kv => (fst kv, g (snd kv)))
        (filter (fun kv : string * A => is_secret_key (fst kv) = false) fields).
Proof.
  induction fields as [|kv fields IH]; [reflexivity|].
  cbn [map]. rewrite !filter_cons. cbn [fst].
  destruct (decide (is_secret_key (fst kv) = false)); [cbn [map]; now rewrite IH | exact IH].
Qed.

Lemma field_of_head (fields : list (string * snapshot)) (k : string) (v : snapshot) :
  field_of ((k, v) :: fields) k = Some v.
Proof. unfold field_of. cbn [find fst]. now rewrite String.eqb_refl. Qed.

Lemma field_of_tail (fields : list (string * snapshot)) (k k' : string) (v : snapshot) :
  k <> k' -> field_of ((k, v) :: fields) k' = field_of fields k'.
Proof.
  intros Hne. unfold field_of. cbn [find fst].
  destruct (String.eqb_spec k k'); [contradiction | reflexivity].
Qed.

(** Fields that are exactly the keys [ks], each once, are what looking
    each key up gives. *)
Lemma lookup_each_key (fields : list (string * snapshot)) :
  forall ks : list string,
    NoDup ks -> map fst fields = ks ->
    map (fun k => (k, default (SPrim PUndefined) (field_of fields k))) ks = fields.
Proof.
  induction fields as [|[k v] fields IH]; intros ks Hnd Hks.
  - now subst ks.
  - cbn [map fst] in Hks. subst ks. apply NoDup_cons in Hnd as [Hk Hnd].
    cbn [map]. rewrite field_of_head. cbn [default]. f_equal.
    transitivity (map (fun k' => (k', default (SPrim PUndefined) (field_of fields k')))
                      (map fst fields)); [|now apply IH].
    apply map_ext_in. intros k' Hin. rewrite field_of_tail; [reflexivity|].
    intros ->. apply Hk. now apply list_elem_of_In.
Qed.

(** An array that holds exactly its elements is its own spread. *)
Lemma spread_snapshot_dense (len : nat) (fields : list (string * snapshot)) :
  map fst fields = map index_key (seq 0 len) ->
  spread_snapshot (Array len) fields = (Array len, fields).
Proof.
  intros Hks. cbn [spread_snapshot]. f_equal.
  transitivity (map (fun k => (k, default (SPrim PUndefined) (field_of fields k)))
                    (map index_key (seq 0 len))).
  - now rewrite map_map.
  - apply lookup_each_key; [apply index_keys_NoDup | exact Hks].
Qed.

Lemma spread_snapshot_keys (k : obj_kind) (fields : list (string * snapshot)) :
  match fst (spread_snapshot k fields) with
  | Plain => True
  | Array len => map fst (snd (spread_snapshot k fields)) = map index_key (seq 0 len)
  | Other => False
  end.
Proof.
  destruct k as [|len|]; cbn [spread_snapshot fst snd]; [exact I| |exact I].
  rewrite map_map. reflexivity.
Qed.

(** On plain data the sanitizer does what the specification says. *)
Lemma spread_sanitize_plain (n : nat) :
  forall t, plain_data n t -> spread_sanitize n t = spec_sanitize n t.
Proof.
  induction n as [|n IH]; intros t Hplain; [reflexivity|].
  destruct t as [p|k fields|]; cbn [spread_sanitize spec_sanitize]; try reflexivity.
  cbn [plain_data] in Hplain. destruct Hplain as [Hkind Hfields].
  assert (Hspread : spread_snapshot k fields = (k, fields)).
  { destruct k as [|len|]; [reflexivity | now apply spread_snapshot_dense | contradiction]. }
  rewrite Hspread. cbn [fst snd]. f_equal. clear Hspread Hkind.
  induction fields as [|kv fields IHf]; [reflexivity|].
  destruct Hfields as [Hkv Hfields]. rewrite filter_cons.
  destruct (decide (is_secret_key (fst kv) = false)).
  - cbn [map]. rewrite (IH _ Hkv). f_equal. now apply IHf.
  - now apply IHf.
Qed.

Lemma spread_sanitize_secret_free (n : nat) :
  forall t, secret_free n (spread_sanitize n t).
Proof.
  induction n as [|n IH]; intros t; [exact I|].
  destruct t as [p|k fields|]; cbn [spread_sanitize secret_free]; try exact I.
  generalize (snd (spread_snapshot k fields)). clear fields. intros fields.
  induction fields as [|[key v] fields IHf]; [exact I|].
  rewrite filter_cons. cbn [fst].
  destruct (decide (is_secret_key key = false)) as [Hsec|Hsec].
  - cbn [map fst snd].
    split; [assumption|]. split; [apply IH | exact IHf].
  - exact IHf.
Qed.

(** Sanitizing what is sanitized changes nothing. *)
Lemma spread_sanitize_idempotent (n : nat) :
  forall t, spread_sanitize n (spread_sanitize n t) = spread_sanitize n t.
Proof.
  induction n as [|n IH]; intros t; [reflexivity|].
  destruct t as [p|k fields|]; cbn [spread_sanitize]; try reflexivity.
  pose proof (spread_snapshot_keys k fields) as Hkeys.
  destruct (spread_snapshot k fields) as [k1 fs]. cbn [fst snd] in *.
  set (kept := map (fun kv => (fst kv, spread_sanitize n (snd kv)))
                   (filter (fun kv : string * snapshot => is_secret_key (fst kv) = false) fs)).
  assert (Hagain : spread_snapshot k1 kept = (k1, kept)).
  { destruct k1 as [|len|]; [reflexivity| |contradiction].
    apply spread_snapshot_dense. subst kept. rewrite map_map. cbn [fst].
    assert (Hall : filter (fun kv : string * snapshot => is_secret_key (fst kv) = false) fs = fs).
    { clear -Hkeys. revert Hkeys. generalize (seq 0 len). intros ns. revert fs.
      induction ns as [|i ns IHns]; intros [|kv fs] Hk; try discriminate; [reflexivity|].
      cbn [map] in Hk. injection Hk as Hk1 Hk2. rewrite filter_cons.
      destruct (decide (is_secret_key (fst kv) = false)) as [_|Hn].
      - now rewrite IHns.
      - exfalso. apply Hn. rewrite Hk1. apply index_key_not_secret. }
    now rewrite Hall. }
  rewrite Hagain. cbn [fst snd]. f_equal. subst kept.
  rewrite filter_not_secret_map, filter_not_secret_twice, map_map. cbn [fst snd].
  apply map_ext. intros kv. now rewrite IH.
Qed.

Lemma sanitize_beyond_limit (s : store) (data : jsval) (depth : nat) :
  (10 < depth)%nat -> sanitizeInitialProps s data depth = (s, data).
Proof.
  intros H. unfold sanitizeInitialProps.
  replace (11 - depth)%nat with O by lia. reflexivity.
Qed.

(** The unfolding of the source: the guard, the clone, the loop with the
    recursive call at [depth + 1]. *)
Lemma sanitizeInitialProps_unfold (s : store) (data : jsval) (depth : nat) :
  sanitizeInitialProps s data depth =
  if (10 <? depth)%nat || negb (truthy data) || negb (typeof_is_object data)
  then (s, data)
  else
    match data with
    | VRef l =>
        match s !! l with
        | Some o =>
            let '(s0, l') := clone s o in
            (fold_left
               (visit_key (fun s1 value => sanitizeInitialProps s1 value (depth + 1)) l')
               (map fst (props (spread o))) s0,
             VRef l')
        | None => (s, data)
        end
    | VPrim _ => (s, data)
    end.
Proof.
  unfold sanitizeInitialProps.
  destruct (Nat.ltb_spec 10 depth) as [Hgt|Hle].
  - replace (11 - depth)%nat with O by lia. reflexivity.
  - replace (11 - depth)%nat with (S (11 - (depth + 1))) by lia.
    cbn [sanitize_levels orb]. reflexivity.
Qed.

End SanitizeFacts.


(** ** Page names and the entry of the interceptor *)

Module PipelineFacts.
Import Sanitize Metadata PageName Pipeline Scenario.

Lemma includes_unsafe (c : ascii) (rest s : string) :
  is_safe_char c = false -> all_safe s = true -> includes (String c rest) s = false.
Proof.
  intros Hc. induction s as [|a s IH]; intros Hs; [reflexivity|].
  cbn [all_safe] in Hs. apply andb_true_iff in Hs as [Ha Hs].
  cbn [includes String.prefix].
  destruct (ascii_dec c a) as [->|_]; [congruence|]. now apply IH.
Qed.

(** The fast path never changes the verdict of the pattern. *)
Lemma validatePageName_pattern (name : string) :
  validatePageName name = SAFE_PAGE_NAME_PATTERN_test name.
Proof.
  unfold validatePageName.
  destruct (includes ".." name || includes "/" name || includes "\" name) eqn:Hfast;
    [|reflexivity].
  destruct name as [|a name]; [reflexivity|].
  cbn [SAFE_PAGE_NAME_PATTERN_test].
  destruct (all_safe (String a name)) eqn:Hsafe; [|reflexivity].
  rewrite !includes_unsafe in Hfast by (reflexivity || assumption). discriminate.
Qed.

Lemma validatePageName_traversal (name : string) :
  includes ".." name || includes "/" name || includes "\" name = true ->
  validatePageName name = false.
Proof. intros H. unfold validatePageName. now rewrite H. Qed.

Lemma is_empty_eq (s : string) : is_empty s = true <-> s = EmptyString.
Proof. destruct s; split; (reflexivity || discriminate). Qed.

(** *** Postconditions of a normal return *)

Lemma returns_bind {A B : Type} (c : M A) (f : A -> M B) (Q : B -> state -> Prop) :
  (forall x, returns (f x) Q) -> returns (c ≫= f) Q.
Proof.
  intros Hf st y st'. unfold mbind, M_bind.
  destruct (c st) as [[e|x] st1]; [discriminate|]. apply Hf.
Qed.

Lemma returns_throw {A : Type} (e : exn) (Q : A -> state -> Prop) :
  returns (throw e) Q.
Proof. intros st x st'. discriminate. Qed.

(** *** The status that goes out *)

Lemma send_with_200 (transformed : string) :
  returns (res_status 200;; res_end transformed) sent_with_200.
Proof.
  intros st x st' H. unfold res_status, res_end, emit, modify, mbind, M_bind in H.
  cbn in H. injection H as _ <-. now exists transformed.
Qed.

Ltac descend :=
  repeat (cbv beta zeta;
    lazymatch goal with
    | |- returns (mbind _ (res_status 200%Z)) _ => apply send_with_200
    | |- returns (throw _) _ => apply returns_throw
    | |- returns (mbind _ _) _ => apply returns_bind; intros ?
    | |- returns (match ?x with _ => _ end) _ => destruct x
    end).

(** Whenever the render callback completes, the response has gone out
    with status 200, whatever status was set on the way. *)
Lemma render_body_sends_200 (E : env) (root name : string) (ctx : exec_context)
      (result : controller_result) :
  returns (render_body E root name ctx result) sent_with_200.
Proof. unfold render_body. descend. Qed.

Lemma render_callback_sends_200 (E : env) (root name : string) (ctx : exec_context)
      (result : controller_result) :
  returns (render_callback E root name ctx result) sent_with_200.
Proof.
  intros st x st' H. unfold render_callback, attempt, mbind, M_bind in H.
  destruct (render_body E root name ctx result st) as [[e|[]] st1] eqn:Hbody.
  - discriminate.
  - cbn in H. injection H as _ <-.
    now apply (render_body_sends_200 E root name ctx result st tt).
Qed.

(** *** The catch-all of the callback *)

Lemma render_callback_outcome (E : env) (root name : string) (ctx : exec_context)
      (result : controller_result) (st : state) :
  render_callback E root name ctx result st =
  match render_body E root name ctx result st with
  | (inr _, st') => (inr tt, st')
  | (inl err, st') =>
      (inl (NistError (if instanceof_Error err then exn_message err
                       else "SSR rendering failed")), st')
  end.
Proof.
  unfold render_callback, attempt, mbind, M_bind.
  now destruct (render_body E root name ctx result st) as [[e|[]] st1].
Qed.

End PipelineFacts.

(** ** Traces of the loaders and of the callback *)

Module TraceFacts.
Import Sanitize Metadata PageName Pipeline Scenario PipelineFacts.

Lemma emits_only_silent {A : Type} (ok : event -> bool) (c : M A) :
  (forall st, trace (snd (c st)) = trace st) -> emits_only ok c.
Proof.
  intros Hsilent st r st' H. specialize (Hsilent st). rewrite H in Hsilent.
  exists []. now rewrite app_nil_r.
Qed.

Lemma emits_only_bind {A B : Type} (ok : event -> bool) (c : M A) (f : A -> M B) :
  emits_only ok c -> (forall x, emits_only ok (f x)) -> emits_only ok (c ≫= f).
Proof.
  intros Hc Hf st r st' H. unfold mbind, M_bind in H.
  destruct (c st) as [[e|x] st1] eqn:Hrun.
  - injection H as _ <-. exact (Hc _ _ _ Hrun).
  - destruct (Hc _ _ _ Hrun) as (e1 & Ht1 & H1).
    destruct (Hf x _ _ _ H) as (e2 & Ht2 & H2).
    exists (e1 ++ e2). rewrite Ht2, Ht1, <- app_assoc. split; [reflexivity|].
    rewrite forallb_app. now rewrite H1, H2.
Qed.

Lemma emits_only_attempt {A : Type} (ok : event -> bool) (c : M A) :
  emits_only ok c -> emits_only ok (attempt c).
Proof.
  intros Hc st r st' H. unfold attempt in H.
  destruct (c st) as [r0 st1] eqn:Hrun. injection H as _ <-. exact (Hc _ _ _ Hrun).
Qed.

Lemma emits_only_emit (ok : event -> bool) (e : event) :
  ok e = true -> emits_only ok (emit e).
Proof.
  intros He st r st' H. unfold emit, modify in H. injection H as _ <-.
  exists [e]. cbn. now rewrite He.
Qed.

Lemma emits_only_any {A : Type} (ok : event -> bool) (c : M A) :
  emits_only ok c -> emits_only any_event c.
Proof.
  intros Hc st r st' H. destruct (Hc _ _ _ H) as (evs & Ht & _).
  exists evs. split; [exact Ht|]. now apply forallb_forall.
Qed.

Create HintDb trace_db.

Ltac silent := apply emits_only_silent; intros ?; reflexivity.

(** One rule per construct of the monad; a named computation is looked
    up in [trace_db]. *)
Ltac trace_rules :=
  repeat (cbv beta zeta;
    lazymatch goal with
    | |- emits_only _ (mbind _ _) => apply emits_only_bind; [|intros ?]
    | |- emits_only _ (attempt _) => apply emits_only_attempt
    | |- emits_only _ (emit _) => apply emits_only_emit; reflexivity
    | |- emits_only _ (mret _) => silent
    | |- emits_only _ (throw _) => silent
    | |- emits_only _ (settle _) => silent
    | |- emits_only _ (gets _) => silent
    | |- emits_only _ (modify _) => silent
    | |- emits_only _ Date_now => silent
    | |- emits_only _ fresh_id => silent
    | |- emits_only _ (alloc _) => silent
    | |- emits_only _ (match ?x with _ => _ end) => destruct x
    | |- emits_only _ _ => solve [auto with trace_db]
    end).

(** *** The loaders touch the file system and the loader only *)

Lemma quiet_existsSync (E : env) (path : string) :
  emits_only not_schedule_event (fs_existsSync E path).
Proof. unfold fs_existsSync. trace_rules. Qed.

Lemma quiet_readdirSync (E : env) (path : string) :
  emits_only not_schedule_event (fs_readdirSync E path).
Proof. unfold fs_readdirSync. trace_rules. Qed.

Lemma quiet_ssrLoadModule (E : env) (path : string) :
  emits_only not_schedule_event (vite_ssrLoadModule E path).
Proof. unfold vite_ssrLoadModule. trace_rules. Qed.

#[local] Hint Resolve quiet_existsSync quiet_readdirSync quiet_ssrLoadModule : trace_db.

Lemma quiet_resolve_metadata (E : env) (path : string) (m : ssr_module) :
  emits_only not_schedule_event (resolve_metadata E path m).
Proof. unfold resolve_metadata. trace_rules. Qed.

#[local] Hint Resolve quiet_resolve_metadata : trace_db.

Lemma quiet_loadPageModule (E : env) (pagePath : string) :
  emits_only not_schedule_event (loadPageModule E pagePath).
Proof. unfold loadPageModule, set_MODULE_CACHE. trace_rules. Qed.

Lemma quiet_loadNotFoundPage (E : env) (sourcePath : string) :
  emits_only not_schedule_event (loadNotFoundPage E sourcePath).
Proof. unfold loadNotFoundPage, set_MODULE_CACHE. trace_rules. Qed.

Lemma quiet_loadRootLayout (E : env) (sourcePath : string) :
  emits_only not_schedule_event (loadRootLayout E sourcePath).
Proof. unfold loadRootLayout, set_ROOT_LAYOUT_CACHE. trace_rules. Qed.

Lemma quiet_loadLayout (E : env) (sourcePath : string) (customLayout : option string) :
  emits_only not_schedule_event (loadLayout E sourcePath customLayout).
Proof. unfold loadLayout, set_LAYOUT_CACHE, set_LAYOUT_DISCOVERY_CACHE. trace_rules. Qed.

Lemma quiet_extractRouteParams (E : env) (r : request) :
  emits_only not_schedule_event (extractRouteParams E r).
Proof. unfold extractRouteParams, or_empty_object. trace_rules. Qed.

#[local] Hint Resolve quiet_loadPageModule quiet_loadNotFoundPage quiet_loadRootLayout
  quiet_loadLayout quiet_extractRouteParams : trace_db.

(** *** The rest of the callback only appends to the trace *)

Lemma grows_of_quiet {A : Type} (c : M A) :
  emits_only not_schedule_event c -> emits_only any_event c.
Proof. apply emits_only_any. Qed.

Lemma grows_res_status (code : Z) : emits_only any_event (res_status code).
Proof. unfold res_status. trace_rules. Qed.

Lemma grows_res_setHeader (name value : string) :
  emits_only any_event (res_setHeader name value).
Proof. unfold res_setHeader. trace_rules. Qed.

Lemma grows_res_end (body : string) : emits_only any_event (res_end body).
Proof. unfold res_end. trace_rules. Qed.

#[local] Hint Resolve grows_res_status grows_res_setHeader grows_res_end : trace_db.

Lemma grows_setHeaders (hs : list (string * string)) :
  emits_only any_event (setHeaders hs).
Proof.
  induction hs as [|[name value] rest IH]; cbn [setHeaders]; trace_rules.
Qed.

Lemma grows_renderToString (E : env) (el : element) :
  emits_only any_event (react_renderToString E el).
Proof. unfold react_renderToString. trace_rules. Qed.

Lemma grows_transformIndexHtml (E : env) (url : string) (doc : html) :
  emits_only any_event (vite_transformIndexHtml E url doc).
Proof. unfold vite_transformIndexHtml. trace_rules. Qed.

Lemma grows_generateCSRFToken (E : env) : emits_only any_event (generateCSRFToken E).
Proof. unfold generateCSRFToken. trace_rules. Qed.

Lemma grows_sanitize_in_heap (data : jsval) : emits_only any_event (sanitize_in_heap data).
Proof.
  apply emits_only_silent. intros st. unfold sanitize_in_heap.
  now destruct (sanitizeInitialProps (heap st) data 0).
Qed.

#[local] Hint Resolve grows_setHeaders grows_renderToString grows_transformIndexHtml
  grows_generateCSRFToken grows_sanitize_in_heap : trace_db.
#[local] Hint Resolve grows_of_quiet | 10 : trace_db.

(** *** The schedule of the callback *)

Lemma schedule_events_app (a b : list event) :
  schedule_events (a ++ b) = schedule_events a ++ schedule_events b.
Proof. apply List.filter_app. Qed.

Lemma schedule_events_quiet (evs : list event) :
  forallb not_schedule_event evs = true -> schedule_events evs = [].
Proof.
  induction evs as [|e evs IH]; [reflexivity|].
  cbn. unfold not_schedule_event at 1.
  destruct (is_schedule_event e); cbn; [discriminate|exact IH].
Qed.

Lemma page_first_after_quiet {A B : Type} (c : M A) (f : A -> M B) :
  emits_only not_schedule_event c ->
  (forall x, schedules_page_first (f x)) ->
  schedules_page_first (c ≫= f).
Proof.
  intros Hc Hf st r st' H. unfold mbind, M_bind in H.
  destruct (c st) as [[e|x] st1] eqn:Hrun.
  - injection H as _ <-. destruct (Hc _ _ _ Hrun) as (e1 & Ht1 & H1).
    exists e1. split; [exact Ht1|]. left. now apply schedule_events_quiet.
  - destruct (Hc _ _ _ Hrun) as (e1 & Ht1 & H1).
    destruct (Hf x _ _ _ H) as (e2 & Ht2 & H2).
    exists (e1 ++ e2). rewrite Ht2, Ht1, <- app_assoc. split; [reflexivity|].
    unfold page_load_first. rewrite schedule_events_app.
    rewrite (schedule_events_quiet e1 H1). exact H2.
Qed.

(** The [try { await load } catch] that opens the parallel section: the
    load is started, runs to its end (a rejection is caught), and is
    joined; whatever follows comes later in the trace. *)
Lemma page_first_awaited {A B : Type} (c : M A) (k : exn + A -> M B) :
  emits_only not_schedule_event c ->
  (forall x, emits_only any_event (k x)) ->
  schedules_page_first
    (emit (EvIssue PageLoad) ≫= fun _ =>
     attempt c ≫= fun loaded =>
     emit (EvJoin [PageLoad]) ≫= fun _ => k loaded).
Proof.
  intros Hc Hk st r st' H.
  unfold mbind, M_bind, emit, modify, attempt in H. cbn beta iota zeta in H.
  destruct (c _) as [r0 st1] eqn:Hrun.
  destruct (Hc _ _ _ Hrun) as (e1 & Ht1 & H1).
  destruct (Hk _ _ _ _ H) as (e2 & Ht2 & _).
  cbn [trace with_trace] in Ht1, Ht2.
  exists ([EvIssue PageLoad] ++ e1 ++ [EvJoin [PageLoad]] ++ e2). split.
  - rewrite Ht2, Ht1. now rewrite <- !app_assoc.
  - right. exists (schedule_events e2).
    rewrite !schedule_events_app, (schedule_events_quiet e1 H1). reflexivity.
Qed.

Lemma render_body_schedule (E : env) (root name : string) (ctx : exec_context)
      (result : controller_result) :
  schedules_page_first (render_body E root name ctx result).
Proof.
  unfold render_body.
  apply page_first_after_quiet; [trace_rules|intros routeData].
  apply page_first_after_quiet; [trace_rules|intros h].
  apply page_first_after_quiet; [trace_rules|intros enrichedResult].
  apply page_first_after_quiet; [trace_rules|intros found].
  cbv zeta.
  apply page_first_awaited; [trace_rules|intros loaded].
  unfold setSecurityHeaders. trace_rules.
Qed.

Lemma render_callback_schedule (E : env) (root name : string) (ctx : exec_context)
      (result : controller_result) :
  schedules_page_first (render_callback E root name ctx result).
Proof.
  intros st r st' H. rewrite render_callback_outcome in H.
  destruct (render_body E root name ctx result st) as [[e|u] st1] eqn:Hbody;
    injection H as _ <-; exact (render_body_schedule E root name ctx result _ _ _ Hbody).
Qed.

Lemma intercept_piped (E : env) (ctx : exec_context) (callback : controller_result -> M unit) :
  intercept E ctx = Returns (Piped callback) ->
  exists root name, callback = render_callback E root name ctx.
Proof.
  unfold intercept.
  destruct (truthy_string (pageRoot ctx)) as [root|]; [|discriminate].
  destruct (truthy_string (pageName ctx)) as [name|]; [|discriminate].
  destruct (negb (validatePageName name)); [discriminate|].
  intros [= <-]. now exists root, name.
Qed.

(** Whatever the request, the handler and the files: the schedule of one
    request is empty or opens with the page load alone, started and
    joined. *)
Lemma handle_request_schedule (E : env) (ctx : exec_context)
      (handler : exn + controller_result) (st : state) :
  exists evs, trace (snd (handle_request E ctx handler st)) = trace st ++ evs /\
              page_load_first evs.
Proof.
  unfold handle_request. destruct (intercept E ctx) as [e|o] eqn:Hi.
  - exists []. rewrite app_nil_r. split; [reflexivity|now left].
  - unfold subscribe, emit, modify.
    destruct o as [|callback], handler as [e|v];
      try (exists [EvHandle]; split; [reflexivity|now left]).
    destruct (intercept_piped E ctx callback Hi) as (root & name & ->).
    destruct (render_callback E root name ctx v _) as [r st1] eqn:Hrun.
    destruct (render_callback_schedule E root name ctx v _ _ _ Hrun) as (evs & Ht & Hp).
    exists ([EvHandle] ++ evs). split.
    + destruct r; cbn [snd]; rewrite Ht; cbn [trace with_trace]; now rewrite <- app_assoc.
    + exact Hp.
Qed.

End TraceFacts.

(** ** The interceptor: the claims *)

Module PipelineClaims.
Import Sanitize Metadata PageName Pipeline Scenario Stated PipelineFacts TraceFacts.

Lemma io_events_snoc_handle (tr : list event) :
  io_events (tr ++ [EvHandle]) = io_events tr.
Proof. unfold io_events. rewrite List.filter_app. cbn. apply app_nil_r. Qed.

Lemma handle_request_passthrough (E : env) (ctx : exec_context)
      (handler : exn + controller_result) (st : state) :
  intercept E ctx = Returns HandlerObservable ->
  handle_request E ctx handler st =
  (match handler with inr v => Emits (Some v) | inl e => Errors e end,
   with_trace (trace st ++ [EvHandle]) st).
Proof.
  intros Hi. unfold handle_request. rewrite Hi. unfold subscribe.
  now destruct handler.
Qed.

(** C10.  When the class has no page-root metadata or the handler has no
    page-name metadata, the interceptor returns the observable of the
    handler itself; a subscriber gets exactly what the handler delivers,
    and the only thing that happened is the call of the handler: no
    validation error, no load, no header, no status, no body. *)
Theorem C10_passthrough_without_page_metadata
        (E : env) (ctx : exec_context) (handler : exn + controller_result) (st : state) :
  pageRoot ctx = None \/ pageName ctx = None ->
  intercept E ctx = Returns HandlerObservable /\
  handle_request E ctx handler st =
  (match handler with inr v => Emits (Some v) | inl e => Errors e end,
   with_trace (trace st ++ [EvHandle]) st).
Proof.
  intros H.
  assert (Hi : intercept E ctx = Returns HandlerObservable).
  { unfold intercept. destruct H as [-> | ->]; cbn [truthy_string]; [reflexivity|].
    now destruct (truthy_string (pageRoot ctx)). }
  split; [exact Hi | now apply handle_request_passthrough].
Qed.

Lemma C10_witness :
  let ctx := MkContext None (Some "home"%string) None None (plain_request "/api/users") in
  (pageRoot ctx = None \/ pageName ctx = None) /\
  intercept (env_of_files [] false) ctx = Returns HandlerObservable /\
  handle_request (env_of_files [] false) ctx (inr no_result) initial_state =
  (Emits (Some no_result), with_trace (trace initial_state ++ [EvHandle]) initial_state).
Proof.
  split; [left; reflexivity|].
  apply (C10_passthrough_without_page_metadata
           (env_of_files [] false)
           (MkContext None (Some "home"%string) None None (plain_request "/api/users"))
           (inr no_result) initial_state).
  left. reflexivity.
Defined.

(** C5, the claim as stated fails on the empty name: the interceptor takes
    it for absent metadata and hands over to the handler. *)
Lemma C5_counterexample : ~ C5_as_stated.
Proof.
  intros H.
  specialize (H (env_of_files [] false)
                (MkContext (Some "/app/src"%string) (Some EmptyString) None None
                           (plain_request "/"))
                (inr no_result) initial_state "/app/src"%string EmptyString
                eq_refl eq_refl eq_refl).
  discriminate H.
Qed.

(** C5, amended.  For a request with page-root metadata and the page name
    [name]: the verdict of the validation is that of the pattern, and a
    name with two dots in a row, a slash or a backslash is invalid; an
    invalid name that is not empty makes the interceptor throw the
    invalid-input error with nothing done (no handler call, no file
    system access, no loader call); the empty name is taken for absent
    metadata and the handler's observable is returned; so file system or
    loader events appear only for a valid name. *)
Theorem C5_invalid_names_never_reach_io
        (E : env) (ctx : exec_context) (handler : exn + controller_result)
        (st : state) (root name : string) :
  truthy_string (pageRoot ctx) = Some root ->
  pageName ctx = Some name ->
  validatePageName name = SAFE_PAGE_NAME_PATTERN_test name /\
  (includes ".." name || includes "/" name || includes "\" name = true ->
   validatePageName name = false) /\
  (validatePageName name = false -> name <> EmptyString ->
   handle_request E ctx handler st =
   (Errors (NistError (invalid_page_name_message name)), st)) /\
  (name = EmptyString ->
   handle_request E ctx handler st =
   (match handler with inr v => Emits (Some v) | inl e => Errors e end,
    with_trace (trace st ++ [EvHandle]) st)) /\
  (io_events (trace (snd (handle_request E ctx handler st))) <> io_events (trace st) ->
   validatePageName name = true).
Proof.
  intros Hroot Hname.
  assert (Hinvalid : validatePageName name = false -> name <> EmptyString ->
            handle_request E ctx handler st =
            (Errors (NistError (invalid_page_name_message name)), st)).
  { intros Hv Hne. unfold handle_request, intercept. rewrite Hroot, Hname.
    destruct name as [|a name]; [congruence|]. cbn [truthy_string is_empty].
    now rewrite Hv. }
  assert (Hempty : name = EmptyString ->
            handle_request E ctx handler st =
            (match handler with inr v => Emits (Some v) | inl e => Errors e end,
             with_trace (trace st ++ [EvHandle]) st)).
  { intros ->. apply handle_request_passthrough. unfold intercept.
    now rewrite Hroot, Hname. }
  split; [apply validatePageName_pattern|].
  split; [apply validatePageName_traversal|].
  split; [exact Hinvalid|]. split; [exact Hempty|].
  intros Hio. destruct (validatePageName name) eqn:Hv; [reflexivity|].
  exfalso. apply Hio. destruct name as [|a name].
  - rewrite Hempty by reflexivity. cbn [snd with_trace trace].
    apply io_events_snoc_handle.
  - now rewrite Hinvalid.
Qed.

Lemma C5_witness :
  let ctx := page_context "/app/src" "../etc/passwd" false "/x" in
  truthy_string (pageRoot ctx) = Some "/app/src"%string /\
  pageName ctx = Some "../etc/passwd"%string /\
  handle_request (env_of_files [] false) ctx (inr no_result) initial_state =
  (Errors (NistError (invalid_page_name_message "../etc/passwd")), initial_state).
Proof.
  split; [reflexivity|]. split; [reflexivity|].
  apply (C5_invalid_names_never_reach_io
           (env_of_files [] false) (page_context "/app/src" "../etc/passwd" false "/x")
           (inr no_result) initial_state "/app/src" "../etc/passwd" eq_refl eq_refl).
  - reflexivity.
  - discriminate.
Defined.


(** C2, the claim as stated fails when the redirect signal is raised
    during markup construction: the catch-all of the callback replaces it. *)
Lemma C2_counterexample : ~ C2_as_stated.
Proof.
  intros H.
  pose (ctx := page_context "/app/src" "home" false "/").
  specialize (H redirecting_env "/app/src"%string "home"%string ctx no_result
                initial_state
                (snd (render_body redirecting_env "/app/src" "home" ctx no_result
                                  initial_state))
                "/login"%string 302%Z).
  assert (Hbody :
    render_body redirecting_env "/app/src" "home" ctx no_result initial_state =
    (inl (RedirectException "/login" 302),
     snd (render_body redirecting_env "/app/src" "home" ctx no_result initial_state))).
  { vm_compute. reflexivity. }
  specialize (H Hbody). rewrite render_callback_outcome, Hbody in H.
  discriminate H.
Qed.

(** C2, amended.  A redirect signal that the route handler raises reaches
    the subscriber as it was raised, with its url and status code, and
    the pipeline does nothing else.  A redirect signal raised inside the
    render callback never leaves the pipeline as a redirect signal: the
    callback completes or throws a [NistError].  What escapes the body of
    the callback is replaced by the catch-all, and for a redirect signal
    (not an [Error]) the [NistError] carries the message "SSR rendering
    failed".  A signal that does not escape the body is swallowed on the
    way: raised by the [getMetadata] of the page it makes the page load
    fail, and the not-found page is rendered and sent (the status 404 is
    set and then overwritten by 200); raised by the [getMetadata] of the
    root layout it makes [loadRootLayout] return [null], and the page is
    rendered without a root layout, which is not cached. *)
Theorem C2_redirect_passes_only_from_handler
        (E : env) (ctx : exec_context) (st : state) (url : string) (code : Z)
        (root name : string) (result : controller_result) :
  match intercept E ctx with
  | Throws _ => True
  | Returns o =>
      subscribe o (inl (RedirectException url code)) st =
      (Errors (RedirectException url code), with_trace (trace st ++ [EvHandle]) st)
  end /\
  render_callback E root name ctx result st =
  match render_body E root name ctx result st with
  | (inr _, st') => (inr tt, st')
  | (inl err, st') =>
      (inl (NistError (if instanceof_Error err then exn_message err
                       else "SSR rendering failed")), st')
  end /\
  (fst (render_callback E root name ctx result st) = inr tt \/
   exists message, fst (render_callback E root name ctx result st) = inl (NistError message)) /\
  fst (render_callback E root name ctx result st) <> inl (RedirectException url code) /\
  instanceof_Error (RedirectException url code) = false /\
  (let run := handle_request guarded_page_env (page_context "/app/src" "home" false "/")
                             (inr no_result) initial_state in
   fst run = Emits None /\
   status_events (trace (snd run)) = [EvStatus 404; EvStatus 200] /\
   sent (res (snd run)) =
   Some (200%Z, "404 - Page Not Found | DefaultNotFound | robots: noindex, nofollow"%string)) /\
  (let run := handle_request guarded_root_layout_env
                             (page_context "/app/src" "home" false "/")
                             (inr no_result) initial_state in
   fst run = Emits None /\
   load_events (trace (snd run)) =
   [EvLoad "/app/src/home.page.tsx"; EvLoad "/app/src/app.layout.tsx"] /\
   sent (res (snd run)) = Some (200%Z, "home | Home"%string) /\
   ROOT_LAYOUT_CACHE (cache (snd run)) !! "/app/src"%string = None).
Proof.
  split; [|split; [apply render_callback_outcome|]].
  { destruct (intercept E ctx) as [e|[|callback]]; [exact I | reflexivity | reflexivity]. }
  split.
  { rewrite render_callback_outcome.
    destruct (render_body E root name ctx result st) as [[e|[]] st1]; cbn [fst]; eauto. }
  split.
  { rewrite render_callback_outcome.
    destruct (render_body E root name ctx result st) as [[e|[]] st1]; discriminate. }
  split; [reflexivity|].
  split; vm_compute; repeat split; reflexivity.
Qed.

(** C1.  A request for the page [missing] in a root directory that holds
    no page and no custom not-found page: the built-in not-found artifact
    is rendered and the merged metadata carries the robots entry, but the
    response goes out with status 200.  The status 404 is set when the
    page fails to load and is overwritten when the document is sent; every
    render that completes, of whatever page, has sent its document with
    status 200. *)
Theorem C1_not_found_is_sent_with_200 :
  (forall (E : env) (root name : string) (ctx : exec_context) (result : controller_result),
      returns (render_callback E root name ctx result) sent_with_200) /\
  let run :=
    handle_request (env_of_files [] false)
                   (page_context "/app/src" "missing" false "/missing")
                   (inr no_result) initial_state in
  fst run = Emits None /\
  status_events (trace (snd run)) = [EvStatus 404; EvStatus 200] /\
  sent (res (snd run)) =
  Some (200%Z, "404 - Page Not Found | DefaultNotFound | robots: noindex, nofollow"%string) /\
  MODULE_CACHE (cache (snd run)) !! "/app/src:not-found"%string =
  Some (MkCachedModule 0 (Some DefaultNotFound) default_not_found_metadata
                       (MkConfig None) 1010).
Proof.
  split; [exact render_callback_sends_200|].
  vm_compute. repeat split; reflexivity.
Qed.

(** C9.  The three loads are not started together.  For every request,
    handler and set of files, the schedule of the request is empty or
    opens with the load of the page alone, started and joined before any
    other load is started.  For the page [home] of a root directory with
    a pages subdirectory the whole schedule is: page started, page
    joined, nested layout started, root layout started, both joined. *)
Theorem C9_page_load_is_awaited_first :
  (forall (E : env) (ctx : exec_context) (handler : exn + controller_result) (st : state),
      exists evs,
        trace (snd (handle_request E ctx handler st)) = trace st ++ evs /\
        page_load_first evs) /\
  let run :=
    handle_request
      (env_of_files [("/app/src/pages/home.page.tsx"%string, simple_page "Home")] false)
      (page_context "/app/src" "home" true "/") (inr no_result) initial_state in
  fst run = Emits None /\
  schedule_events (trace (snd run)) =
  [EvIssue PageLoad; EvJoin [PageLoad];
   EvIssue NestedLayoutLoad; EvIssue RootLayoutLoad;
   EvJoin [NestedLayoutLoad; RootLayoutLoad]].
Proof.
  split; [exact handle_request_schedule|].
  vm_compute. split; reflexivity.
Qed.

End PipelineClaims.

(** ** The module cache: the claim *)

Module CacheClaims.
Import Sanitize Metadata PageName Pipeline Scenario CacheScenario Stated PipelineFacts.

Lemma loadPageModule_hit (E : env) (pagePath : string) (st : state) (c : CachedModule) :
  MODULE_CACHE (cache st) !! pagePath = Some c ->
  cache_fresh E (clock st) (cm_timestamp c) = true ->
  loadPageModule E pagePath st = (inr c, st).
Proof.
  intros Hc Hfresh.
  cbv beta iota delta [loadPageModule gets Date_now mbind M_bind].
  rewrite Hc, Hfresh. reflexivity.
Qed.

Lemma load_events_app (a b : list event) :
  load_events (a ++ b) = load_events a ++ load_events b.
Proof. apply List.filter_app. Qed.

Lemma loadPageModule_reload (E : env) (pagePath : string) (st st' : state)
      (c r : CachedModule) :
  MODULE_CACHE (cache st) !! pagePath = Some c ->
  cache_fresh E (clock st) (cm_timestamp c) = false ->
  loadPageModule E pagePath st = (inr r, st') ->
  let metadataPath := replace_first ".page.tsx" ".metadata.ts" pagePath in
  exists evs,
    trace st' = trace st ++ evs /\
    load_events evs =
      EvLoad pagePath ::
      (if existsSync E (clock st + load_time E pagePath) metadataPath
       then [EvLoad metadataPath] else []) /\
    MODULE_CACHE (cache st') = <[pagePath := r]> (MODULE_CACHE (cache st)) /\
    cm_id r = next_id st /\ next_id st' = S (next_id st) /\
    cm_timestamp r = clock st'.
Proof.
  intros Hc Hstale Hload metadataPath.
  cbv beta iota delta [loadPageModule gets Date_now mbind M_bind] in Hload.
  rewrite Hc, Hstale in Hload.
  cbv beta iota zeta delta
      [vite_ssrLoadModule resolve_metadata fs_existsSync set_MODULE_CACHE
       fresh_id Date_now gets emit modify settle attempt mbind M_bind mret M_ret
       with_trace with_clock with_cache with_next_id]
    in Hload.
  cbn [clock next_id cache heap res trace] in Hload.
  fold metadataPath in Hload.
  destruct (ssrLoadModule E (clock st) pagePath) as [e|pageModule];
    cbn [clock next_id cache heap res trace] in Hload; [discriminate|].
  destruct (existsSync E (clock st + load_time E pagePath) metadataPath);
    cbn [clock next_id cache heap res trace] in Hload.
  - destruct (ssrLoadModule E (clock st + load_time E pagePath) metadataPath)
      as [e|metadataModule];
      cbn [clock next_id cache heap res trace] in Hload;
      injection Hload as <- <-;
      (eexists; split; [cbn [trace]; rewrite <- !app_assoc; reflexivity|]);
      repeat split; reflexivity.
  - destruct (mod_getMetadata pageModule) as [[e|md]|];
      cbn [clock next_id cache heap res trace] in Hload;
      try discriminate;
      injection Hload as <- <-;
      (eexists; split; [cbn [trace]; rewrite <- !app_assoc; reflexivity|]);
      repeat split; reflexivity.
Qed.

(** C8, the claim as stated fails on its last part: when the page has a
    companion metadata file, a retrieval after the TTL has elapsed invokes
    the loader twice, once for the page and once for the metadata file. *)
Lemma C8_counterexample : ~ C8_as_stated.
Proof.
  intros H.
  pose (run := loadPageModule home_with_companion "/app/src/home.page.tsx"
                              (state_at 20000)).
  specialize (H home_with_companion "/app/src/home.page.tsx"%string
                (state_at 20000) (snd run) cached_home
                (match fst run with inr r => r | inl _ => cached_home end)).
  assert (Hlen : length (load_events (trace (snd run))) = 2%nat)
    by (vm_compute; reflexivity).
  rewrite H in Hlen; [discriminate Hlen | reflexivity | reflexivity |].
  vm_compute. reflexivity.
Qed.

(** C8, amended.  For a key the module cache holds: the TTL is 10 seconds
    in development and infinite in production; two retrievals within the
    window both return the stored object itself and leave the state as it
    is (no loader call); in production every retrieval is within the
    window; a retrieval after the TTL has elapsed that succeeds has
    invoked the loader once for the page, and once more for the companion
    metadata file when that file exists, and has put a new object (a fresh
    identity, the time of the load as timestamp) in the place of the
    entry. *)
Theorem C8_cache_window_and_reload
        (E : env) (pagePath : string) (st : state) (c : CachedModule) :
  MODULE_CACHE (cache st) !! pagePath = Some c ->
  CACHE_TTL false = Finite 10000 /\ CACHE_TTL true = Infinity /\
  (forall t1 t2 : Z,
      cache_fresh E t1 (cm_timestamp c) = true ->
      cache_fresh E t2 (cm_timestamp c) = true ->
      loadPageModule E pagePath (with_clock t1 st) = (inr c, with_clock t1 st) /\
      loadPageModule E pagePath (with_clock t2 (with_clock t1 st)) =
      (inr c, with_clock t2 (with_clock t1 st))) /\
  (forall t : Z,
      cache_fresh E t (cm_timestamp c) =
      if production E then true else (t - cm_timestamp c <? 10000)%Z) /\
  (forall (r : CachedModule) (st' : state),
      cache_fresh E (clock st) (cm_timestamp c) = false ->
      loadPageModule E pagePath st = (inr r, st') ->
      let metadataPath := replace_first ".page.tsx" ".metadata.ts" pagePath in
      exists evs,
        trace st' = trace st ++ evs /\
        load_events evs =
          EvLoad pagePath ::
          (if existsSync E (clock st + load_time E pagePath) metadataPath
           then [EvLoad metadataPath] else []) /\
        MODULE_CACHE (cache st') = <[pagePath := r]> (MODULE_CACHE (cache st)) /\
        cm_id r = next_id st /\ next_id st' = S (next_id st) /\
        cm_timestamp r = clock st').
Proof.
  intros Hc. split; [reflexivity|]. split; [reflexivity|].
  split.
  { intros t1 t2 H1 H2. split; apply loadPageModule_hit; assumption. }
  split.
  { intros t. unfold cache_fresh, CACHE_TTL. now destruct (production E). }
  intros r st' Hstale Hload. now apply (loadPageModule_reload E pagePath st st' c r).
Qed.

Lemma C8_witness :
  MODULE_CACHE (cache (state_at 5000)) !! "/app/src/home.page.tsx"%string = Some cached_home /\
  loadPageModule home_with_companion "/app/src/home.page.tsx" (with_clock 9000 (state_at 5000))
  = (inr cached_home, with_clock 9000 (state_at 5000)).
Proof.
  split; [reflexivity|].
  destruct (C8_cache_window_and_reload home_with_companion "/app/src/home.page.tsx"
              (state_at 5000) cached_home eq_refl) as (_ & _ & Hwindow & _).
  apply (Hwindow 9000%Z 10999%Z); reflexivity.
Defined.

End CacheClaims.

(** ** Metadata, client state, codec and sanitizer: the claims *)

Module DataClaims.
Import Units Json Codec Parser CodecSpec CodecFacts.
Import Sanitize SanitizeFacts Metadata Client DataScenario Stated.

(** C6.  The merged metadata holds, for every key, the value of the last
    of the four layers (root layout, nested layout, page, override) that
    defines the key; a key is in the result exactly when some layer
    defines it; a nested object is taken whole from that layer (the
    fields of an earlier layer's object do not survive), and a key that a
    later layer defines as [undefined] is in the result with the value
    [undefined]. *)
Theorem C6_metadata_merge_is_shallow_overlay
        (root nested page override : metadata) (k : string) :
  merge_metadata root nested page override !! k =
    last_defined [root; nested; page; override] k /\
  (is_Some (merge_metadata root nested page override !! k) <->
   is_Some (root !! k) \/ is_Some (nested !! k) \/ is_Some (page !! k) \/
   is_Some (override !! k)) /\
  merge_metadata
    {[ "openGraph"%string :=
         TNode false [("title"%string, TPrim (PStr "Root title"));
                      ("image"%string, TPrim (PStr "/root.png"))] ]}
    ∅
    {[ "openGraph"%string := TNode false [("title"%string, TPrim (PStr "Page title"))] ]}
    ∅ !! "openGraph"%string
  = Some (TNode false [("title"%string, TPrim (PStr "Page title"))]) /\
  merge_metadata {[ "title"%string := TPrim (PStr "Root") ]} ∅ ∅
                 {[ "title"%string := TPrim PUndefined ]} !! "title"%string
  = Some (TPrim PUndefined).
Proof.
  assert (Hlookup : merge_metadata root nested page override !! k =
                    last_defined [root; nested; page; override] k).
  { unfold merge_metadata, spread, last_defined. cbn [fold_left].
    rewrite !lookup_union, lookup_empty.
    destruct (override !! k), (page !! k), (nested !! k), (root !! k); reflexivity. }
  split; [exact Hlookup|]. split; [|split; reflexivity].
  rewrite Hlookup. unfold last_defined. cbn [fold_left].
  destruct (override !! k), (page !! k), (nested !! k), (root !! k);
    split; intros H; eauto 6;
    try (destruct H as [H|[H|[H|H]]]; destruct H; discriminate).
Qed.

Section Engines.
Context `{Engine}.

(** The router never writes the canonical object or the route aliases. *)
Lemma fetchAndRenderPage_keeps_canonical (fetched : option fetch_response) (w : window) :
  let w' := fst (fetchAndRenderPage fetched w) in
  __NIST__ w' = __NIST__ w /\
  __ROUTE_PARAMS__ w' = __ROUTE_PARAMS__ w /\
  __QUERY_PARAMS__ w' = __QUERY_PARAMS__ w /\
  __PATHNAME__ w' = __PATHNAME__ w.
Proof.
  unfold fetchAndRenderPage.
  destruct fetched as [response|]; [|now repeat split].
  destruct (ok response); [|now repeat split]. cbn [negb].
  destruct (propsMatch (text response)) as [propsText|]; [|now repeat split].
  destruct (pageNameMatch (text response)) as [name|]; [|now repeat split].
  destruct (JSON_parse propsText); now repeat split.
Qed.

(** On a first load the bootstrap script publishes the canonical object
    and the aliases from the same parsed payload. *)
Lemma bootstrap_aliases_agree (textContent : ustring) (w : window)
      (fields routeFields : list (ustring * json)) :
  textContent <> [] ->
  JSON_parse textContent = Some (JObj fields) ->
  lookup_field fields (of_ascii_string "route") = Some (JObj routeFields) ->
  aliases_agree (bootstrap textContent w).
Proof.
  intros Hne Hparse Hroute. unfold bootstrap.
  destruct textContent as [|c t]; [congruence|].
  rewrite Hparse. cbn [member]. rewrite Hroute. cbn [member].
  unfold aliases_agree.
  cbn [__NIST__ __INITIAL_PROPS__ __PAGE_NAME__ __ROUTE_PARAMS__ __QUERY_PARAMS__
       __PATHNAME__ props route page].
  cbn [member]. now repeat split.
Qed.

(** C3, amended.  On an engine that writes its finite numbers as JSON
    literals, for every value whose objects have each key once: the
    encoder returns the JSON text with every occurrence of the five
    characters replaced by its escape (the table of the specification,
    applied to each code unit); the encoded text holds none of the five
    characters; and parsing the encoded text gives the value with every
    number taken through its text: a finite number comes back as the
    number its text reads as, [NaN] and the infinities come back as
    [null].  On an engine that reads its numbers back from their text the
    value itself comes back when its numbers are finite and none is [-0].
    The number [-0] does not come back: it is written as [0]. *)
Theorem C3_hydration_encode_roundtrip (v : json) :
  writes_json_numbers ->
  json_wf v ->
  serializeJavaScript v = spec_encode (JSON_stringify v) /\
  Forall (fun c => matches_escape_class c = false) (serializeJavaScript v) /\
  JSON_parse (serializeJavaScript v) = Some (reread v) /\
  (reads_back_its_numbers -> exact_numbers v ->
   JSON_parse (serializeJavaScript v) = Some v) /\
  (drops_the_sign_of_zero ->
   exists x, x <> negative_zero /\
             JSON_parse (serializeJavaScript (JNum negative_zero)) = Some (JNum x)).
Proof.
  intros Hwrites Hwf. split; [apply replace_all_spec|].
  split; [apply replace_all_clean|].
  split; [now apply JSON_parse_serialize|].
  split.
  - intros Hreads Hexact. rewrite JSON_parse_serialize by assumption.
    now rewrite reread_exact.
  - intros (Hfin & Htext & Hread). exists (StringToNumber [48]).
    split; [exact Hread|].
    rewrite (JSON_parse_serialize Hwrites (JNum negative_zero) I).
    cbn [reread]. now rewrite Hfin, Htext.
Qed.

End Engines.

Import SmallEngine SmallEngineFacts.

(** C7.  After the first load of the page [home] the canonical object and
    the aliases agree.  A navigation whose response assigns the two
    globals inline is published by the router into [__INITIAL_PROPS__]
    and [__PAGE_NAME__] only: the canonical object still describes
    [home], and the two no longer agree.  A navigation to a document this
    server renders matches neither pattern of the router and publishes
    nothing. *)
Theorem C7_navigation_leaves_canonical_state_stale :
  let w1 := bootstrap (serializeJavaScript home_payload) empty_window in
  let newProps := JObj [(ustr "user", JStr (ustr "bob"))] in
  let nav := fetchAndRenderPage (Some (MkFetch true (inline_document newProps "about"))) w1 in
  aliases_agree w1 /\
  snd nav = [NistNavigate newProps (ustr "about")] /\
  __PAGE_NAME__ (fst nav) = Some (JStr (ustr "about")) /\
  __INITIAL_PROPS__ (fst nav) = Some newProps /\
  (page <$> __NIST__ (fst nav)) = Some (Some (JStr (ustr "home"))) /\
  ~ aliases_agree (fst nav) /\
  fetchAndRenderPage (Some (MkFetch true (server_document about_payload))) w1 = (w1, []).
Proof.
  cbv zeta.
  split.
  { apply (bootstrap_aliases_agree _ _
             (match home_payload with JObj fields => fields | _ => [] end)
             (match lookup_field (match home_payload with JObj fields => fields | _ => [] end)
                                 (of_ascii_string "route") with
              | Some (JObj fields) => fields
              | _ => []
              end)).
    - intros Hempty. run_sides_in Hempty. discriminate Hempty.
    - run.
    - run. }
  split; [run|]. split; [run|]. split; [run|]. split; [run|].
  split; [|run].
  intros Hagree. unfold aliases_agree in Hagree.
  assert (Hcanon :
    (page <$> __NIST__ (fst (fetchAndRenderPage
        (Some (MkFetch true (inline_document (JObj [(ustr "user", JStr (ustr "bob"))]) "about")))
        (bootstrap (serializeJavaScript home_payload) empty_window))))
    = Some (Some (JStr (ustr "home")))) by run.
  destruct (__NIST__ _) as [n|]; [|discriminate Hcanon].
  destruct Hagree as (_ & Hpage & _). cbn [fmap option_fmap option_map] in Hcanon.
  injection Hcanon as Hn. rewrite Hn in Hpage. run_sides_in Hpage. discriminate Hpage.
Qed.

(** C3, the claim as stated fails on the number [-0]: it is written as
    [0], and [0] is what comes back. *)
Lemma C3_counterexample : ~ C3_as_stated.
Proof.
  intros Hstated. specialize (Hstated (JNum NegativeZero) I eq_refl).
  run_sides_in Hstated. discriminate Hstated.
Qed.

Lemma script_payload_wf : json_wf script_payload.
Proof.
  cbn [json_wf script_payload]. repeat split.
  apply (bool_decide_unpack (NoDup _)). vm_compute. exact I.
Defined.

Lemma script_payload_exact : exact_numbers script_payload.
Proof. cbn. repeat split; discriminate. Defined.

(** The payload with markup and a negative number, on the engine of the
    examples. *)
Lemma C3_witness :
  writes_json_numbers /\ json_wf script_payload /\
  serializeJavaScript script_payload = spec_encode (JSON_stringify script_payload) /\
  Forall (fun c => matches_escape_class c = false) (serializeJavaScript script_payload) /\
  JSON_parse (serializeJavaScript script_payload) = Some script_payload /\
  exists x, x <> negative_zero /\
            JSON_parse (serializeJavaScript (JNum negative_zero)) = Some (JNum x).
Proof.
  split; [exact small_writes_json_numbers|].
  split; [exact script_payload_wf|].
  destruct (C3_hydration_encode_roundtrip script_payload small_writes_json_numbers
              script_payload_wf) as (Htable & Hclean & _ & Hexact & Hzero).
  split; [exact Htable|]. split; [exact Hclean|].
  split; [exact (Hexact small_reads_back_its_numbers script_payload_exact)|].
  exact (Hzero small_drops_the_sign_of_zero).
Defined.

(** C4, the claim as stated fails on a [Date]: the object spread makes a
    plain object of it, so the field [createdAt] of
    [{createdAt: new Date(0)}] comes back as [{}]. *)
Lemma C4_counterexample : ~ C4_as_stated.
Proof.
  intros H.
  assert (Hwf : store_wf dated_store).
  { intros l o Hl.
    destruct l as [|[|l]]; [| |discriminate Hl]; injection Hl as <-; cbn [props];
      (split; [apply (bool_decide_unpack (NoDup _)); vm_compute; exact I|]);
      repeat constructor; cbn; lia. }
  specialize (H dated_store (VRef 1%nat) Hwf ltac:(cbn; lia) 2%nat).
  vm_compute in H. discriminate H.
Qed.

(** C4, amended.  On a well-formed store, [sanitizeInitialProps(data)]
    returns a value that reads, to any depth, as the input in which every
    object at depths 0 to 10 was spread (an array into the array of its
    [length] elements, [undefined] for a hole and without its named
    properties; any other object into a plain object with the same
    fields) and lost every field of the spread named [password] or
    [passwordHash]; everything below is left as it is.  Where the first
    eleven levels of the input hold only plain objects and arrays that
    hold exactly their elements, this is the input with the two fields
    removed and every other field kept.  In every case the first eleven
    levels of the result hold no such field, no object of the input store
    is changed (an object input comes back as a new object at the end of
    the store), and a call at a depth above 10 returns its argument and
    the store untouched.  In particular
    [{password: "x", nested: {passwordHash: "y", keep: 1}}] becomes
    [{nested: {keep: 1}}], [{createdAt: new Date(0)}] becomes
    [{createdAt: {}}], and the array [["a", , "c"]] with a property [note]
    becomes [["a", undefined, "c"]]. *)
Theorem C4_sanitize_initial_props (s : store) (data : jsval) :
  store_wf s -> val_ok s data ->
  let res := sanitizeInitialProps s data 0 in
  (forall d, reify d (fst res) (snd res) = spread_sanitize 11 (reify d s data)) /\
  (forall d, plain_data 11 (reify d s data) ->
             reify d (fst res) (snd res) = spec_sanitize 11 (reify d s data)) /\
  (forall d, secret_free 11 (reify d (fst res) (snd res))) /\
  (forall l o, s !! l = Some o -> fst res !! l = Some o) /\
  (forall l, data = VRef l ->
             snd res = VRef (length s) /\ (length s < length (fst res))%nat) /\
  (forall depth, (10 < depth)%nat -> sanitizeInitialProps s data depth = (s, data)) /\
  (let ex := sanitizeInitialProps password_store (VRef 1) 0 in
   reify 3 (fst ex) (snd ex) =
   SObject Plain [("nested"%string, SObject Plain [("keep"%string, SPrim (PNum 1))])]) /\
  (let ex := sanitizeInitialProps dated_store (VRef 1) 0 in
   reify 3 (fst ex) (snd ex) =
   SObject Plain [("createdAt"%string, SObject Plain [])]) /\
  (let ex := sanitizeInitialProps sparse_store (VRef 1) 0 in
   reify 3 (fst ex) (snd ex) =
   SObject Plain
     [("tags"%string,
       SObject (Array 3) [ ("0"%string, SPrim (PStr "a")); ("1"%string, SPrim PUndefined);
                           ("2"%string, SPrim (PStr "c")) ])]).
Proof.
  intros Hwf Hok res.
  destruct (sanitize_levels_correct 11 s data Hwf Hok)
    as (ext & Hs & Hwf' & Hok' & Href & _).
  change (sanitize_levels 11 s data) with res in Hs, Hok', Href.
  split; [intros d; rewrite Hs; apply Href|].
  split; [intros d Hplain; rewrite Hs, Href; now apply spread_sanitize_plain|].
  split; [intros d; rewrite Hs, Href; apply spread_sanitize_secret_free|].
  split; [intros l o Hl; rewrite Hs; now apply lookup_app_l_Some|].
  split.
  { intros l ->. simpl in Hok.
    destruct (lookup_lt_is_Some_2 s l Hok) as [o Hl].
    assert (Hres : snd res = VRef (length s)).
    { subst res. rewrite sanitizeInitialProps_unfold. cbn. now rewrite Hl. }
    split; [exact Hres|]. rewrite Hres in Hok'. rewrite Hs. exact Hok'. }
  split; [intros depth; apply sanitize_beyond_limit|].
  split; [vm_compute; reflexivity|]. split; vm_compute; reflexivity.
Qed.

Lemma password_store_wf : store_wf password_store.
Proof.
  intros l o Hl.
  destruct l as [|[|l]]; [| |discriminate Hl]; injection Hl as <-; cbn [props];
    (split; [apply (bool_decide_unpack (NoDup _)); vm_compute; exact I|]);
    repeat constructor; cbn; lia.
Defined.

Lemma C4_witness :
  store_wf password_store /\ val_ok password_store (VRef 1) /\
  (forall d,
      reify d (fst (sanitizeInitialProps password_store (VRef 1) 0))
              (snd (sanitizeInitialProps password_store (VRef 1) 0))
      = spread_sanitize 11 (reify d password_store (VRef 1))).
Proof.
  split; [exact password_store_wf|].
  split; [cbn; lia|].
  apply (C4_sanitize_initial_props password_store (VRef 1) password_store_wf).
  cbn. lia.
Defined.

End DataClaims.

(** ** [escapeHtml] *)

Module EscapingFacts.
Import Sanitize Metadata Pipeline Escaping.

(** The seven cases of [HTML_ESCAPE_MAP]. *)
Lemma escape_char_cases (c : ascii) :
  (c = "&"%char /\ escape_char c = "&amp;"%string) \/
  (c = "<"%char /\ escape_char c = "&lt;"%string) \/
  (c = ">"%char /\ escape_char c = "&gt;"%string) \/
  (c = ascii_of_N 34 /\ escape_char c = "&quot;"%string) \/
  (c = "'"%char /\ escape_char c = "&#x27;"%string) \/
  (c = "/"%char /\ escape_char c = "&#x2F;"%string) \/
  (html_special c = false /\ escape_char c = String c EmptyString).
Proof.
  unfold escape_char, html_special. cbv zeta.
  assert (Hc : forall n, (N_of_ascii c =? n) = true -> c = ascii_of_N n).
  { intros n H. apply N.eqb_eq in H. rewrite <- H. now rewrite ascii_N_embedding. }
  destruct (N_of_ascii c =? 38) eqn:H1; [left; split; [exact (Hc _ H1)|reflexivity]|right].
  destruct (N_of_ascii c =? 60) eqn:H2; [left; split; [exact (Hc _ H2)|reflexivity]|right].
  destruct (N_of_ascii c =? 62) eqn:H3; [left; split; [exact (Hc _ H3)|reflexivity]|right].
  destruct (N_of_ascii c =? 34) eqn:H4; [left; split; [exact (Hc _ H4)|reflexivity]|right].
  destruct (N_of_ascii c =? 39) eqn:H5; [left; split; [exact (Hc _ H5)|reflexivity]|right].
  destruct (N_of_ascii c =? 47) eqn:H6; [left; split; [exact (Hc _ H6)|reflexivity]|right].
  split; reflexivity.
Qed.

Lemma list_ascii_app (a b : string) :
  list_ascii_of_string (a ++ b) = list_ascii_of_string a ++ list_ascii_of_string b.
Proof.
  induction a as [|c a IH]; [reflexivity|].
  change (String c a ++ b)%string with (String c (a ++ b)).
  cbn [list_ascii_of_string]. now rewrite IH.
Qed.

Lemma inert_app (a b : string) : inert a -> inert b -> inert (a ++ b).
Proof. unfold inert. rewrite list_ascii_app. apply Forall_app_2. Qed.

Lemma special_not_markup (c : ascii) :
  html_special c = false -> is_markup_char c = false.
Proof.
  unfold html_special, is_markup_char. cbv zeta. intros H.
  apply orb_false_iff in H as [H H6]. apply orb_false_iff in H as [H H5].
  apply orb_false_iff in H as [H H4]. apply orb_false_iff in H as [H H3].
  apply orb_false_iff in H as [H1 H2]. now rewrite H2, H3, H4, H5, H6.
Qed.

Lemma escape_char_inert (c : ascii) : inert (escape_char c).
Proof.
  destruct (escape_char_cases c)
    as [[_ ->]|[[_ ->]|[[_ ->]|[[_ ->]|[[_ ->]|[[_ ->]|[H ->]]]]]]];
    try (unfold inert; cbn; repeat constructor).
  now apply special_not_markup.
Qed.

Lemma string_app_assoc (a b c : string) :
  ((a ++ b) ++ c)%string = (a ++ (b ++ c))%string.
Proof.
  induction a as [|x a IH]; [reflexivity|].
  change (String x a ++ b)%string with (String x (a ++ b)).
  change (String x (a ++ b) ++ c)%string with (String x ((a ++ b) ++ c)).
  now rewrite IH.
Qed.

Lemma escapeHtml_app (a b : string) :
  escapeHtml (a ++ b) = (escapeHtml a ++ escapeHtml b)%string.
Proof.
  induction a as [|c a IH]; [reflexivity|].
  change (String c a ++ b)%string with (String c (a ++ b)).
  cbn [escapeHtml]. rewrite IH.
  now rewrite string_app_assoc.
Qed.

Lemma escapeHtml_inert (text : string) : inert (escapeHtml text).
Proof.
  induction text as [|c text IH]; [constructor|].
  cbn [escapeHtml]. apply inert_app; [apply escape_char_inert|exact IH].
Qed.

Lemma escape_char_length (c : ascii) :
  (1 <= String.length (escape_char c))%nat /\
  (html_special c = true -> 1 < String.length (escape_char c))%nat.
Proof.
  destruct (escape_char_cases c)
    as [[-> ->]|[[-> ->]|[[-> ->]|[[-> ->]|[[-> ->]|[[-> ->]|[H ->]]]]]]];
    cbn; split; try lia; intros; try lia. congruence.
Qed.

Lemma string_length_app (a b : string) :
  String.length (a ++ b) = (String.length a + String.length b)%nat.
Proof.
  induction a as [|c a IH]; [reflexivity|].
  change (String c a ++ b)%string with (String c (a ++ b)).
  cbn [String.length]. now rewrite IH.
Qed.

Lemma escapeHtml_length (text : string) :
  (String.length text <= String.length (escapeHtml text))%nat /\
  (plain text = false -> String.length text < String.length (escapeHtml text))%nat.
Proof.
  induction text as [|c text [IH1 IH2]]; [split; [reflexivity|discriminate]|].
  cbn [escapeHtml]. rewrite string_length_app.
  destruct (escape_char_length c) as [Hc1 Hc2].
  split; [cbn; lia|].
  unfold plain. cbn [list_ascii_of_string forallb].
  destruct (html_special c) eqn:Hs; cbn [negb andb].
  - intros _. specialize (Hc2 eq_refl). cbn. lia.
  - intros Hp. specialize (IH2 Hp). cbn. lia.
Qed.

Lemma escapeHtml_plain (text : string) : plain text = true -> escapeHtml text = text.
Proof.
  induction text as [|c text IH]; [reflexivity|].
  unfold plain. cbn [list_ascii_of_string forallb]. intros H.
  apply andb_true_iff in H as [Hc Ht]. apply negb_true_iff in Hc.
  cbn [escapeHtml].
  destruct (escape_char_cases c)
    as [[-> _]|[[-> _]|[[-> _]|[[-> _]|[[-> _]|[[-> _]|[_ ->]]]]]]];
    try discriminate Hc.
  cbn. now rewrite (IH Ht).
Qed.

(** X1.  [escapeHtml] writes none of the two angle brackets, the two
    quotes and the slash, whatever the text; it returns the text as it is
    exactly when the text holds none of the six characters of its class;
    and it works character by character, so escaping a concatenation
    concatenates the escapes. *)
Theorem X1_escapeHtml_output_is_inert (text more : string) :
  inert (escapeHtml text) /\
  (escapeHtml text = text <-> plain text = true) /\
  escapeHtml (text ++ more) = (escapeHtml text ++ escapeHtml more)%string.
Proof.
  split; [apply escapeHtml_inert|]. split; [|apply escapeHtml_app].
  split; [|apply escapeHtml_plain].
  intros Heq. destruct (plain text) eqn:Hp; [reflexivity|].
  destruct (escapeHtml_length text) as [_ Hlt]. specialize (Hlt Hp).
  rewrite Heq in Hlt. lia.
Qed.

(** Reading one escaped character back: the escapes form a prefix code. *)
Lemma escape_char_prefix_code (c d : ascii) (x y : string) :
  (escape_char c ++ x)%string = (escape_char d ++ y)%string -> c = d /\ x = y.
Proof.
  intros H.
  destruct (escape_char_cases c)
    as [[-> Hc]|[[-> Hc]|[[-> Hc]|[[-> Hc]|[[-> Hc]|[[-> Hc]|[Hsc Hc]]]]]]];
  destruct (escape_char_cases d)
    as [[-> Hd]|[[-> Hd]|[[-> Hd]|[[-> Hd]|[[-> Hd]|[[-> Hd]|[Hsd Hd]]]]]]];
  rewrite ?Hc, ?Hd in H; cbv in H;
  try discriminate H;
  try (injection H as ->; split; reflexivity);
  try (injection H as <- _; discriminate Hsd);
  try (injection H as -> _; discriminate Hsc).
  injection H as -> ->. split; reflexivity.
Qed.

(** X2.  [escapeHtml] loses nothing: two texts have the same escape only
    when they are the same text. *)
Theorem X2_escapeHtml_is_injective (a b : string) :
  escapeHtml a = escapeHtml b <-> a = b.
Proof.
  split; [|now intros ->].
  revert b. induction a as [|c a IH]; intros [|d b] H.
  - reflexivity.
  - exfalso. cbn [escapeHtml] in H.
    destruct (escape_char_length d) as [Hd _].
    apply (f_equal String.length) in H. rewrite string_length_app in H. cbn in H. lia.
  - exfalso. cbn [escapeHtml] in H.
    destruct (escape_char_length c) as [Hc _].
    apply (f_equal String.length) in H. rewrite string_length_app in H. cbn in H. lia.
  - cbn [escapeHtml] in H. apply escape_char_prefix_code in H as [-> H].
    now rewrite (IH b H).
Qed.

End EscapingFacts.

(** ** The meta tags *)

Module MetaTagsFacts.
Import Sanitize Metadata Pipeline Escaping EscapingFacts MetaTags.

Lemma tags_from_failed (e : exn) (els : list meta_element) :
  tags_from (inl e) els = inl e.
Proof. induction els as [|el els IH]; [reflexivity|exact IH]. Qed.

Lemma tags_from_snoc (acc : exn + list tag) (els : list meta_element) (el : meta_element) :
  tags_from acc (els ++ [el]) =
  match tags_from acc els with
  | inr tags =>
      match tag_of_element el with
      | inr t => inr (tags ++ [t])
      | inl e => inl e
      end
  | inl e => inl e
  end.
Proof. unfold tags_from. now rewrite fold_left_app. Qed.

(** One push of each builder keeps them in step. *)
Lemma push_in_step (mk_el : tree -> meta_element) (mk_tag : string -> tag)
      (v : option tree) (els : list meta_element) :
  (forall x, tag_of_element (mk_el x) =
             match escapeHtml_value x with
             | inr text => inr (mk_tag text)
             | inl e => inl e
             end) ->
  tags_from (inr []) (push_element mk_el v els) =
  match tags_from (inr []) els with
  | inr tags => push_tag mk_tag v tags
  | inl e => inl e
  end.
Proof.
  intros Hmk. destruct v as [x|]; cbn [push_element push_tag].
  - rewrite tags_from_snoc. destruct (tags_from (inr []) els); [reflexivity|].
    rewrite Hmk. now destruct (escapeHtml_value x).
  - now destruct (tags_from (inr []) els).
Qed.

Lemma builders_in_step (steps : list step_pair) (els : list meta_element) :
  Forall in_step steps ->
  tags_from (inr [])
    (fold_left (fun acc step => step acc)
               (map (fun p : step_pair => push_element p.1.1 p.2) steps) els) =
  fold_left (fun acc step => match acc with inr t => step t | inl e => inl e end)
            (map (fun p : step_pair => push_tag p.1.2 p.2) steps)
            (tags_from (inr []) els).
Proof.
  intros Hsteps. revert els.
  induction Hsteps as [|p steps Hp _ IH]; intros els; [reflexivity|].
  cbn [map fold_left]. rewrite IH. f_equal.
  rewrite (push_in_step p.1.1 p.1.2 p.2 els Hp).
  now destruct (tags_from (inr []) els).
Qed.

(** X3.  The two builders of the meta tags agree: the tags of the
    fallback template are the elements of the component, in the same
    order, each with its content escaped, and the string builder fails
    exactly when the content of some element is not a string (the
    component builder never fails). *)
Theorem X3_meta_tag_builders_agree (mergedMetadata : metadata) (csrfToken : string) :
  exists els,
    buildMetaTagsComponent mergedMetadata csrfToken =
      els ++ [ElMetaName "csrf-token" "csrf-token" (TPrim (PStr csrfToken))] /\
    buildMetaTags mergedMetadata csrfToken =
      match tags_of_elements els with
      | inr tags => inr (tags ++ [MetaName "csrf-token" csrfToken])
      | inl e => inl e
      end.
Proof.
  eexists. split; [reflexivity|].
  unfold buildMetaTags, push_all. cbv zeta.
  set (top := fun key => truthy_field mergedMetadata key).
  set (og := fun key => match top "openGraph"%string with
                        | Some o => sub_field o key | None => None end).
  set (tw := fun key => match top "twitter"%string with
                        | Some t => sub_field t key | None => None end).
  pose (steps := [
    (ElMetaName "description" "description", MetaName "description", top "description");
    (ElMetaName "keywords" "keywords", MetaName "keywords", top "keywords");
    (ElMetaName "author" "author", MetaName "author", top "author");
    (ElMetaName "robots" "robots", MetaName "robots", top "robots");
    (ElLinkRel "canonical" "canonical", LinkRel "canonical", top "canonical");
    (ElMetaProperty "og:title" "og:title", MetaProperty "og:title", og "title");
    (ElMetaProperty "og:description" "og:description", MetaProperty "og:description",
     og "description");
    (ElMetaProperty "og:image" "og:image", MetaProperty "og:image", og "image");
    (ElMetaProperty "og:url" "og:url", MetaProperty "og:url", og "url");
    (ElMetaProperty "og:type" "og:type", MetaProperty "og:type", og "type");
    (ElMetaName "twitter:card" "twitter:card", MetaName "twitter:card", tw "card");
    (ElMetaName "twitter:site" "twitter:site", MetaName "twitter:site", tw "site");
    (ElMetaName "twitter:creator" "twitter:creator", MetaName "twitter:creator",
     tw "creator");
    (ElMetaName "twitter:title" "twitter:title", MetaName "twitter:title", tw "title");
    (ElMetaName "twitter:description" "twitter:description",
     MetaName "twitter:description", tw "description");
    (ElMetaName "twitter:image" "twitter:image", MetaName "twitter:image", tw "image")
  ]%string : list step_pair).
  assert (Hsteps : Forall in_step steps).
  { repeat constructor; intros x; reflexivity. }
  pose proof (builders_in_step steps [] Hsteps) as H.
  exact (eq_sym (f_equal (fun r : exn + list tag =>
                            match r with
                            | inr tags => inr (tags ++ [MetaName "csrf-token" csrfToken])
                            | inl e => inl e
                            end) H)).
Qed.

(** *** The shape of the tags of the fallback template *)

Lemma push_failed (e : exn) (steps : list (list tag -> exn + list tag)) :
  fold_left (fun acc step => match acc with inr t => step t | inl e => inl e end)
            steps (inl e) = inl e.
Proof. induction steps as [|s steps IH]; [reflexivity|exact IH]. Qed.

Lemma push_all_shape (steps : list tag_step) (names : list string) :
  Forall2 names_tag steps names ->
  forall acc tags,
    push_all (map (fun p : tag_step => push_tag p.1 p.2) steps) acc = inr tags ->
    exists more,
      tags = acc ++ more /\
      sublist (map tag_name more) names /\
      Forall (fun t => inert (tag_text t)) more.
Proof.
  induction 1 as [|p n steps names Hp _ IH]; intros acc tags Hrun.
  - injection Hrun as <-. exists []. rewrite app_nil_r.
    split; [reflexivity|]. split; constructor.
  - unfold push_all in Hrun. cbn [map fold_left] in Hrun.
    destruct p as [mk v]. cbn [fst snd] in Hrun.
    destruct v as [x|]; cbn [push_tag] in Hrun.
    + destruct (escapeHtml_value x) as [e|text] eqn:Hx;
        [rewrite push_failed in Hrun; discriminate|].
      destruct (IH _ _ Hrun) as (more & -> & Hsub & Hin).
      exists (mk text :: more). rewrite <- app_assoc. split; [reflexivity|].
      destruct (Hp text) as [Hn Ht]. cbn [fst] in Hn, Ht.
      split; [cbn [map]; rewrite Hn; now apply sublist_skip|].
      constructor; [|exact Hin]. rewrite Ht.
      destruct x as [[| | | |s]| |]; try discriminate Hx.
      injection Hx as <-. apply escapeHtml_inert.
    + destruct (IH _ _ Hrun) as (more & -> & Hsub & Hin).
      exists more. split; [reflexivity|]. split; [now apply sublist_cons|exact Hin].
Qed.

(** X4.  When [buildMetaTags] returns, the tag that carries the CSRF
    token comes last and holds the token as it was given (it is not
    escaped); before it come tags named in the order of the source, each
    name at most once, and the text of each of them is escaped: it holds
    no angle bracket, quote or slash. *)
Theorem X4_buildMetaTags_shape (mergedMetadata : metadata) (csrfToken : string)
        (tags : list tag) :
  buildMetaTags mergedMetadata csrfToken = inr tags ->
  exists body,
    tags = body ++ [MetaName "csrf-token" csrfToken] /\
    sublist (map tag_name body) META_ORDER /\
    NoDup (map tag_name body) /\
    Forall (fun t => inert (tag_text t)) body.
Proof.
  unfold buildMetaTags. cbv zeta.
  set (top := fun key => truthy_field mergedMetadata key).
  set (og := fun key => match top "openGraph"%string with
                        | Some o => sub_field o key | None => None end).
  set (tw := fun key => match top "twitter"%string with
                        | Some t => sub_field t key | None => None end).
  pose (steps := [
    (MetaName "description", top "description");
    (MetaName "keywords", top "keywords");
    (MetaName "author", top "author");
    (MetaName "robots", top "robots");
    (LinkRel "canonical", top "canonical");
    (MetaProperty "og:title", og "title");
    (MetaProperty "og:description", og "description");
    (MetaProperty "og:image", og "image");
    (MetaProperty "og:url", og "url");
    (MetaProperty "og:type", og "type");
    (MetaName "twitter:card", tw "card");
    (MetaName "twitter:site", tw "site");
    (MetaName "twitter:creator", tw "creator");
    (MetaName "twitter:title", tw "title");
    (MetaName "twitter:description", tw "description");
    (MetaName "twitter:image", tw "image") ]%string : list tag_step).
  assert (Hsteps : Forall2 names_tag steps META_ORDER).
  { repeat constructor. }
  pose proof (push_all_shape steps META_ORDER Hsteps []) as Hshape.
  change (map (fun p : tag_step => push_tag p.1 p.2) steps)
    with [ push_tag (MetaName "description") (top "description");
           push_tag (MetaName "keywords") (top "keywords");
           push_tag (MetaName "author") (top "author");
           push_tag (MetaName "robots") (top "robots");
           push_tag (LinkRel "canonical") (top "canonical");
           push_tag (MetaProperty "og:title") (og "title");
           push_tag (MetaProperty "og:description") (og "description");
           push_tag (MetaProperty "og:image") (og "image");
           push_tag (MetaProperty "og:url") (og "url");
           push_tag (MetaProperty "og:type") (og "type");
           push_tag (MetaName "twitter:card") (tw "card");
           push_tag (MetaName "twitter:site") (tw "site");
           push_tag (MetaName "twitter:creator") (tw "creator");
           push_tag (MetaName "twitter:title") (tw "title");
           push_tag (MetaName "twitter:description") (tw "description");
           push_tag (MetaName "twitter:image") (tw "image") ]%string in Hshape.
  destruct (push_all _ []) as [e|body]; [discriminate|].
  intros [= <-]. destruct (Hshape body eq_refl) as (more & -> & Hsub & Hin).
  exists more. split; [reflexivity|]. split; [exact Hsub|]. split; [|exact Hin].
  eapply sublist_NoDup; [|exact Hsub].
  apply (bool_decide_unpack (NoDup META_ORDER)). vm_compute. reflexivity.
Qed.

(** The built-in not-found metadata gives three tags and the token. *)
Lemma X4_witness :
  buildMetaTags default_not_found_metadata "00ff" =
    inr [MetaName "description" "The page you are looking for does not exist.";
         MetaName "robots" "noindex, nofollow";
         MetaName "csrf-token" "00ff"] /\
  exists body,
    [MetaName "description" "The page you are looking for does not exist.";
     MetaName "robots" "noindex, nofollow";
     MetaName "csrf-token" "00ff"] = body ++ [MetaName "csrf-token" "00ff"] /\
    sublist (map tag_name body) META_ORDER /\
    NoDup (map tag_name body) /\
    Forall (fun t => inert (tag_text t)) body.
Proof.
  assert (Hrun : buildMetaTags default_not_found_metadata "00ff" =
                 inr [MetaName "description" "The page you are looking for does not exist.";
                      MetaName "robots" "noindex, nofollow";
                      MetaName "csrf-token" "00ff"]).
  { vm_compute. reflexivity. }
  split; [exact Hrun|].
  exact (X4_buildMetaTags_shape default_not_found_metadata "00ff" _ Hrun).
Defined.

End MetaTagsFacts.

(** ** Rules for what a computation keeps *)

Module ConductFacts.
Import Sanitize Metadata PageName Pipeline Scenario Conduct.

Section PreservesRules.
Context {A B : Type} (R : state -> state -> Prop).
Context (Rtrans : Transitive R).

Lemma preserves_step (c : M A) : (forall st, R st (snd (c st))) -> preserves R c.
Proof. intros H st r st' Hrun. specialize (H st). now rewrite Hrun in H. Qed.

Lemma preserves_bind (c : M A) (f : A -> M B) :
  preserves R c -> (forall x, preserves R (f x)) -> preserves R (c ≫= f).
Proof.
  intros Hc Hf st r st' H. unfold mbind, M_bind in H.
  destruct (c st) as [[e|x] st1] eqn:Hrun.
  - injection H as _ <-. exact (Hc _ _ _ Hrun).
  - transitivity st1; [exact (Hc _ _ _ Hrun)|exact (Hf x _ _ _ H)].
Qed.

Lemma preserves_attempt (c : M A) : preserves R c -> preserves R (attempt c).
Proof.
  intros Hc st r st' H. unfold attempt in H.
  destruct (c st) as [r0 st1] eqn:Hrun. injection H as _ <-. exact (Hc _ _ _ Hrun).
Qed.

Lemma on_error_bind (c : M A) (f : A -> M B) :
  preserves R c -> (forall x, on_error R (f x)) -> on_error R (c ≫= f).
Proof.
  intros Hc Hf st e st' H. unfold mbind, M_bind in H.
  destruct (c st) as [[e0|x] st1] eqn:Hrun.
  - injection H as _ <-. exact (Hc _ _ _ Hrun).
  - transitivity st1; [exact (Hc _ _ _ Hrun)|exact (Hf x _ _ _ H)].
Qed.

Lemma on_error_of_preserves (c : M A) : preserves R c -> on_error R c.
Proof. intros Hc st e st' H. exact (Hc _ _ _ H). Qed.

Lemma on_error_never (c : M A) : never_throws c -> on_error R c.
Proof. intros Hc st e st' H. destruct (Hc st) as (x & st1 & Hx). congruence. Qed.

End PreservesRules.

Lemma preserves_setHeaders (R : state -> state -> Prop) (Rtrans : Transitive R)
      (hs : list (string * string)) :
  (forall name value, preserves R (res_setHeader name value)) ->
  preserves R (mret tt) ->
  preserves R (setHeaders hs).
Proof.
  intros Hset Hret. induction hs as [|[name value] rest IH]; cbn [setHeaders].
  - exact Hret.
  - apply preserves_bind; [exact Rtrans|apply Hset|intros _; exact IH].
Qed.

Lemma never_throws_bind {A B : Type} (c : M A) (f : A -> M B) :
  never_throws c -> (forall x, never_throws (f x)) -> never_throws (c ≫= f).
Proof.
  intros Hc Hf st. destruct (Hc st) as (x & st1 & Hx).
  destruct (Hf x st1) as (y & st2 & Hy). exists y, st2.
  unfold mbind, M_bind. now rewrite Hx.
Qed.

Lemma never_throws_attempt {A : Type} (c : M A) : never_throws (attempt c).
Proof. intros st. unfold attempt. destruct (c st) as [r st1]. now exists r, st1. Qed.

Lemma never_throws_step {A : Type} (c : M A) (f : state -> A) (g : state -> state) :
  (forall st, c st = (inr (f st), g st)) -> never_throws c.
Proof. intros H st. exists (f st), (g st). apply H. Qed.

(** *** Running a computation step by step *)

Lemma bind_run {A B : Type} (c : M A) (f : A -> M B) (st st1 : state) (x : A) :
  c st = (inr x, st1) -> (c ≫= f) st = f x st1.
Proof. intros H. unfold mbind, M_bind. now rewrite H. Qed.

Lemma bind_throw {A B : Type} (c : M A) (f : A -> M B) (st st1 : state) (e : exn) :
  c st = (inl e, st1) -> (c ≫= f) st = (inl e, st1).
Proof. intros H. unfold mbind, M_bind. now rewrite H. Qed.

Lemma attempt_run {A : Type} (c : M A) (st st1 : state) (r : exn + A) :
  c st = (r, st1) -> attempt c st = (inr r, st1).
Proof. intros H. unfold attempt. now rewrite H. Qed.

(** One step of [H : (c ≫= f) st = _]: a primitive [c] is computed, any
    other [c] is taken by its two outcomes. *)
Ltac step H :=
  lazymatch type of H with
  | (mbind ?f (attempt ?c)) ?st = _ =>
      let r := fresh "r" in let st1 := fresh "st" in let Hc := fresh "Hc" in
      destruct (c st) as [r st1] eqn:Hc;
      rewrite (bind_run (attempt c) f st st1 r (attempt_run c st st1 r Hc)) in H;
      cbv beta in H
  | (mbind ?f ?c) ?st = _ =>
      let r := eval cbv beta iota delta [mbind M_bind gets Date_now emit modify fresh_id
                                         alloc mret M_ret]
               in (c st) in
      lazymatch r with
      | (inr ?x, ?st1) => rewrite (bind_run c f st st1 x eq_refl) in H
      | _ =>
          let e := fresh "e" in let x := fresh "x" in
          let st1 := fresh "st" in let Hc := fresh "Hc" in
          destruct (c st) as [[e|x] st1] eqn:Hc;
          [ rewrite (bind_throw c f st st1 e Hc) in H
          | rewrite (bind_run c f st st1 x Hc) in H ]
      end;
      cbv beta in H
  end.

Ltac head_of c :=
  lazymatch c with
  | ?f _ => head_of f
  | _ => c
  end.

(** A computation that always returns, rule by rule. *)
Ltac total :=
  repeat (cbv beta zeta;
    lazymatch goal with
    | |- never_throws (mbind _ _) => apply never_throws_bind; [|intros ?]
    | |- never_throws (attempt _) => apply never_throws_attempt
    | |- never_throws (match ?x with _ => _ end) => destruct x
    | |- never_throws (mret _) => eapply never_throws_step; intros ?; reflexivity
    | |- never_throws (gets _) => eapply never_throws_step; intros ?; reflexivity
    | |- never_throws (modify _) => eapply never_throws_step; intros ?; reflexivity
    | |- never_throws (emit _) => eapply never_throws_step; intros ?; reflexivity
    | |- never_throws Date_now => unfold Date_now
    | |- never_throws fresh_id => eapply never_throws_step; intros ?; reflexivity
    | |- never_throws (alloc _) => eapply never_throws_step; intros ?; reflexivity
    | |- never_throws (throw _) => fail
    | |- never_throws (settle _) => fail
    | |- never_throws ?c => let h := head_of c in unfold h
    end).

(** What every step of a computation keeps, rule by rule; [leaf] closes
    the steps that change the state. *)
Ltac keeps leaf :=
  repeat (cbv beta zeta;
    lazymatch goal with
    | |- preserves _ (mbind _ _) => apply preserves_bind; [apply _| |intros ?]
    | |- preserves _ (attempt _) => apply preserves_attempt
    | |- preserves _ (match ?x with _ => _ end) => destruct x
    | |- preserves _ (mret _) => apply preserves_step; intros ?; cbn [snd]; leaf
    | |- preserves _ (throw _) => apply preserves_step; intros ?; cbn [snd]; leaf
    | |- preserves _ (settle _) => apply preserves_step; intros ?; cbn [snd]; leaf
    | |- preserves _ (gets _) => apply preserves_step; intros ?; cbn [snd]; leaf
    | |- preserves _ Date_now => apply preserves_step; intros ?; cbn [snd]; leaf
    | |- preserves _ (modify _) => apply preserves_step; intros ?; cbn [snd modify]; leaf
    | |- preserves _ (emit _) => apply preserves_step; intros ?; cbn [snd emit modify]; leaf
    | |- preserves _ fresh_id => apply preserves_step; intros ?; cbn [snd fresh_id]; leaf
    | |- preserves _ (alloc _) => apply preserves_step; intros ?; cbn [snd alloc]; leaf
    | |- preserves _ (sanitize_in_heap _) =>
        apply preserves_step; intros ?; unfold sanitize_in_heap;
        destruct (sanitizeInitialProps _ _ _); cbn [snd]; leaf
    | |- preserves _ (setHeaders _) => apply preserves_setHeaders; [apply _|intros ? ?|]
    | |- preserves _ ?c => let h := head_of c in unfold h
    end).

(** The same for what holds when the computation throws. *)
Ltac keeps_on_error leaf :=
  repeat (cbv beta zeta;
    lazymatch goal with
    | |- on_error _ (mbind _ _) =>
        first [ apply on_error_bind; [apply _|solve [keeps leaf]|intros ?]
              | apply on_error_never; solve [total] ]
    | |- on_error _ (match ?x with _ => _ end) => destruct x
    | |- on_error _ (mret _) => apply on_error_never; solve [total]
    | |- on_error _ (attempt _) => apply on_error_never; solve [total]
    | |- on_error _ (throw _) => apply on_error_of_preserves; solve [keeps leaf]
    | |- on_error _ (settle _) => apply on_error_of_preserves; solve [keeps leaf]
    | |- on_error _ (res_end _) => apply on_error_never; solve [total]
    | |- on_error _ ?c =>
        first [ apply on_error_of_preserves; solve [keeps leaf]
              | apply on_error_never; solve [total]
              | let h := head_of c in unfold h ]
    end).

(** The last step of [H : c st = _], for a [c] made of primitives. *)
Ltac finish H :=
  cbv beta iota delta [mbind M_bind gets Date_now emit modify fresh_id alloc mret M_ret
                       set_MODULE_CACHE set_LAYOUT_CACHE set_LAYOUT_DISCOVERY_CACHE
                       set_ROOT_LAYOUT_CACHE] in H;
  injection H as <- <-.


(** From [H : c st = (r, st')], what [c] keeps. *)
Ltac kept R leaf H :=
  lazymatch type of H with
  | ?c ?st = (?r, ?st') =>
      let Hk := fresh "Hkept" in
      assert (Hk : preserves R c) by (keeps leaf);
      specialize (Hk st r st' H)
  end.


(** *** Nothing is sent before the last step *)

#[export] Instance same_sent_trans : Transitive same_sent.
Proof. intros a b c Hab Hbc. unfold same_sent in *. congruence. Qed.

Lemma render_body_unsent_on_error (E : env) (root name : string) (ctx : exec_context)
      (result : controller_result) :
  on_error same_sent (render_body E root name ctx result).
Proof.
  unfold render_body. keeps_on_error ltac:(unfold same_sent; reflexivity).
Qed.

(** X7.  A render that fails has sent nothing: the callback reaches
    [res.end] only as its last step, so when it throws, what the response
    has sent is what it had sent before; and what it throws is a
    [NistError]. *)
Theorem X7_failed_render_sends_nothing
        (E : env) (root name : string) (ctx : exec_context) (result : controller_result)
        (st st' : state) (e : exn) :
  render_callback E root name ctx result st = (inl e, st') ->
  sent (res st') = sent (res st) /\ exists message, e = NistError message.
Proof.
  intros H. rewrite PipelineFacts.render_callback_outcome in H.
  destruct (render_body E root name ctx result st) as [[err|[]] st1] eqn:Hbody;
    [|discriminate H].
  injection H as <- <-. split; [|eauto].
  exact (render_body_unsent_on_error E root name ctx result st err st1 Hbody).
Qed.

(** A render that throws a redirect signal. *)
Lemma X7_witness :
  let ctx := page_context "/app/src" "home" false "/" in
  let run := render_callback redirecting_env "/app/src" "home" ctx no_result initial_state in
  fst run = inl (NistError "SSR rendering failed") /\
  sent (res (snd run)) = None.
Proof.
  cbv zeta. split; [vm_compute; reflexivity|].
  refine (proj1 (X7_failed_render_sends_nothing redirecting_env "/app/src" "home"
                   (page_context "/app/src" "home" false "/") no_result initial_state
                   _ (NistError "SSR rendering failed") _)).
  vm_compute. reflexivity.
Defined.

(** *** The headers of a completed render *)

(** [setHeaders] writes the headers one after the other. *)
Lemma setHeaders_run (hs : list (string * string)) (st : state) :
  exists st',
    setHeaders hs st = (inr tt, st') /\
    headers (res st') = fold_left (fun m kv => <[kv.1 := kv.2]> m) hs (headers (res st)).
Proof.
  revert st. induction hs as [|[name value] rest IH]; intros st.
  - exists st. split; reflexivity.
  - cbn [setHeaders fold_left fst snd].
    unfold res_setHeader at 1. unfold emit, modify, mbind, M_bind.
    match goal with |- context [setHeaders rest ?s] => destruct (IH s) as (st' & Hrun & Hh) end.
    exists st'. split; [exact Hrun|]. rewrite Hh. reflexivity.
Qed.

Lemma fold_insert_fresh (hs : list (string * string)) (m : gmap string string) (k : string) :
  k ∉ map fst hs ->
  fold_left (fun m kv => <[kv.1 := kv.2]> m) hs m !! k = m !! k.
Proof.
  revert m. induction hs as [|[name value] rest IH]; intros m Hk; [reflexivity|].
  cbn [fold_left fst snd map] in *. apply not_elem_of_cons in Hk as [Hne Hk].
  rewrite (IH _ Hk). now rewrite lookup_insert_ne.
Qed.

Lemma fold_insert_all (hs : list (string * string)) (m : gmap string string) :
  NoDup (map fst hs) ->
  Forall (fun kv => fold_left (fun m kv => <[kv.1 := kv.2]> m) hs m !! kv.1 = Some kv.2) hs.
Proof.
  revert m. induction hs as [|[name value] rest IH]; intros m Hnd; [constructor|].
  cbn [map fst] in Hnd. apply NoDup_cons in Hnd as [Hfresh Hnd].
  constructor.
  - cbn [fold_left fst snd]. rewrite (fold_insert_fresh rest _ name Hfresh).
    apply lookup_insert_eq.
  - cbn [fold_left fst snd]. apply IH. exact Hnd.
Qed.

Lemma res_setHeader_run (name value : string) (st : state) :
  exists st',
    res_setHeader name value st = (inr tt, st') /\
    headers (res st') = <[name := value]> (headers (res st)) /\
    statusCode (res st') = statusCode (res st).
Proof. eexists. split; [reflexivity|]. split; reflexivity. Qed.

Lemma res_status_run (code : Z) (st : state) :
  exists st',
    res_status code st = (inr tt, st') /\
    headers (res st') = headers (res st) /\ statusCode (res st') = code.
Proof. eexists. split; [reflexivity|]. split; reflexivity. Qed.

Lemma res_end_run (body : string) (st : state) :
  exists st',
    res_end body st = (inr tt, st') /\
    headers (res st') = headers (res st) /\ statusCode (res st') = statusCode (res st).
Proof. eexists. split; [reflexivity|]. split; reflexivity. Qed.

Lemma security_headers_distinct : NoDup (map fst SECURITY_HEADERS).
Proof.
  apply (bool_decide_unpack (NoDup (map fst SECURITY_HEADERS))). vm_compute. reflexivity.
Qed.

Lemma security_headers_not_content_type :
  Forall (fun kv : string * string => kv.1 <> "Content-Type"%string) SECURITY_HEADERS.
Proof.
  apply (bool_decide_unpack
           (Forall (fun kv : string * string => kv.1 <> "Content-Type"%string)
                   SECURITY_HEADERS)).
  vm_compute. reflexivity.
Qed.

Lemma headers_after_content_type (hs : list (string * string)) (name value : string)
      (m : gmap string string) :
  NoDup (map fst hs) ->
  Forall (fun kv : string * string => kv.1 <> name) hs ->
  Forall (fun kv => <[name := value]> (fold_left (fun m kv => <[kv.1 := kv.2]> m) hs m)
                      !! kv.1 = Some kv.2) hs.
Proof.
  intros Hnd Hne. pose proof (fold_insert_all hs m Hnd) as Hall.
  rewrite Forall_forall in Hall, Hne. apply Forall_forall. intros kv Hin.
  rewrite lookup_insert_ne by (intros Heq; exact (Hne kv Hin (eq_sym Heq))).
  exact (Hall kv Hin).
Qed.

Lemma last_steps_general (hs : list (string * string)) (name value : string) (code : Z)
      (transformed : string) :
  NoDup (map fst hs) ->
  Forall (fun kv : string * string => kv.1 <> name) hs ->
  returns (setHeaders hs;; res_setHeader name value;; res_status code;; res_end transformed)
          (fun _ st => carries_headers hs st /\
                       headers (res st) !! name = Some value /\
                       statusCode (res st) = code).
Proof.
  intros Hnd Hne st x st' H.
  destruct (setHeaders_run hs st) as (st1 & H1 & Hh1).
  destruct (res_setHeader_run name value st1) as (st2 & H2 & Hh2 & Hs2).
  destruct (res_status_run code st2) as (st3 & H3 & Hh3 & Hs3).
  destruct (res_end_run transformed st3) as (st4 & H4 & Hh4 & Hs4).
  rewrite (bind_run _ _ _ _ _ H1), (bind_run _ _ _ _ _ H2), (bind_run _ _ _ _ _ H3), H4 in H.
  injection H as _ <-.
  unfold carries_headers.
  rewrite Hs4, Hs3, Hh4, Hh3, Hh2, Hh1.
  split; [|split; [apply lookup_insert_eq|reflexivity]].
  now apply headers_after_content_type.
Qed.

Lemma last_steps_ready (transformed : string) :
  returns (setSecurityHeaders;;
           res_setHeader "Content-Type" "text/html";;
           res_status 200;;
           res_end transformed) ready_to_send.
Proof.
  exact (last_steps_general SECURITY_HEADERS "Content-Type" "text/html" 200 transformed
           security_headers_distinct security_headers_not_content_type).
Qed.

Ltac descend_to_send :=
  repeat (cbv beta zeta;
    lazymatch goal with
    | |- returns (mbind _ setSecurityHeaders) _ => apply last_steps_ready
    | |- returns (throw _) _ => apply PipelineFacts.returns_throw
    | |- returns (mbind _ _) _ => apply PipelineFacts.returns_bind; intros ?
    | |- returns (match ?x with _ => _ end) _ => destruct x
    end).

Lemma render_body_ready (E : env) (root name : string) (ctx : exec_context)
      (result : controller_result) :
  returns (render_body E root name ctx result) ready_to_send.
Proof. unfold render_body. descend_to_send. Qed.

(** X6.  Every render that completes leaves the response with the six
    security headers at their fixed values, the content type
    [text/html] and the status 200: nothing the page, its layouts or its
    configuration do can remove or change them. *)
Theorem X6_completed_render_carries_security_headers
        (E : env) (root name : string) (ctx : exec_context) (result : controller_result)
        (st st' : state) (r : unit) :
  render_callback E root name ctx result st = (inr r, st') ->
  carries_headers SECURITY_HEADERS st' /\
  headers (res st') !! "Content-Type"%string = Some "text/html"%string /\
  statusCode (res st') = 200%Z.
Proof.
  intros H. rewrite PipelineFacts.render_callback_outcome in H.
  destruct (render_body E root name ctx result st) as [[err|[]] st1] eqn:Hbody;
    [discriminate H|].
  injection H as _ <-.
  exact (render_body_ready E root name ctx result st tt st1 Hbody).
Qed.

(** The page [home] of the scenarios, rendered. *)
Lemma X6_witness :
  let E := env_of_files [("/app/src/pages/home.page.tsx"%string, simple_page "Home")] false in
  let ctx := page_context "/app/src" "home" true "/" in
  let run := render_callback E "/app/src" "home" ctx no_result initial_state in
  run = (inr tt, snd run) /\
  carries_headers SECURITY_HEADERS (snd run) /\
  headers (res (snd run)) !! "Content-Type"%string = Some "text/html"%string /\
  statusCode (res (snd run)) = 200%Z.
Proof.
  cbv zeta.
  assert (Hrun :
    render_callback
      (env_of_files [("/app/src/pages/home.page.tsx"%string, simple_page "Home")] false)
      "/app/src" "home" (page_context "/app/src" "home" true "/") no_result initial_state =
    (inr tt,
     snd (render_callback
            (env_of_files [("/app/src/pages/home.page.tsx"%string, simple_page "Home")] false)
            "/app/src" "home" (page_context "/app/src" "home" true "/") no_result
            initial_state))).
  { vm_compute. reflexivity. }
  split; [exact Hrun|].
  exact (X6_completed_render_carries_security_headers _ _ _ _ _ _ _ _ Hrun).
Defined.

(** *** The caches *)

#[export] Instance same_caches_trans : Transitive same_caches.
Proof. intros a b c Hab Hbc. unfold same_caches in *. congruence. Qed.

Lemma loadPageModule_failure_keeps_caches (E : env) (pagePath : string) :
  on_error same_caches (loadPageModule E pagePath).
Proof. unfold loadPageModule. keeps_on_error ltac:(unfold same_caches; reflexivity). Qed.

(** X11.  A page module that fails to load is not remembered: when
    [loadPageModule] throws (the loader rejects, or [getMetadata] throws),
    the four caches hold exactly what they held, a stale entry for the
    page included; the next request tries the load again. *)
Theorem X11_failed_page_load_keeps_caches
        (E : env) (pagePath : string) (st st' : state) (e : exn) :
  loadPageModule E pagePath st = (inl e, st') ->
  cache st' = cache st.
Proof. apply loadPageModule_failure_keeps_caches. Qed.

(** A page that is not there. *)
Lemma X11_witness :
  let run := loadPageModule (env_of_files [] false) "/app/src/missing.page.tsx" initial_state in
  fst run = inl (JsError "Failed to load module") /\
  cache (snd run) = empty_caches.
Proof.
  cbv zeta. split; [vm_compute; reflexivity|].
  exact (X11_failed_page_load_keeps_caches
           (env_of_files [] false) "/app/src/missing.page.tsx" initial_state _
           (JsError "Failed to load module") ltac:(vm_compute; reflexivity)).
Defined.

Lemma keeps_keys_refl {V : Type} (m : gmap string V) : keeps_keys m m.
Proof. intros k H. exact H. Qed.

Lemma keeps_keys_insert {V : Type} (m : gmap string V) (k : string) (v : V) :
  keeps_keys m (<[k := v]> m).
Proof.
  intros k' H. destruct (decide (k = k')) as [->|Hne].
  - rewrite lookup_insert_eq. eauto.
  - now rewrite lookup_insert_ne.
Qed.

#[export] Instance caches_grow_trans : Transitive caches_grow.
Proof.
  intros a b c (H1 & H2 & H3 & H4) (K1 & K2 & K3 & K4).
  repeat split; intros k H; auto.
Qed.

Ltac grow_leaf :=
  unfold caches_grow; cbn;
  repeat split; first [apply keeps_keys_refl | apply keeps_keys_insert].

Lemma render_body_caches_grow (E : env) (root name : string) (ctx : exec_context)
      (result : controller_result) :
  preserves caches_grow (render_body E root name ctx result).
Proof. unfold render_body. keeps ltac:(grow_leaf). Qed.

(** X12.  No request removes a cache entry: after any request, whatever
    its outcome, every key of the module cache, the layout cache, the
    layout discovery cache and the root layout cache is still a key of
    that cache.  Entries are replaced or added, never evicted. *)
Theorem X12_requests_never_evict
        (E : env) (ctx : exec_context) (handler : exn + controller_result) (st : state) :
  caches_grow st (snd (handle_request E ctx handler st)).
Proof.
  unfold handle_request. destruct (intercept E ctx) as [e|o] eqn:Hi.
  - cbn [snd]. grow_leaf.
  - unfold subscribe, emit, modify.
    destruct o as [|callback], handler as [e|v]; try (cbn [snd]; grow_leaf).
    destruct (TraceFacts.intercept_piped E ctx callback Hi) as (root & name & ->).
    destruct (render_callback E root name ctx v _) as [r st1] eqn:Hrun.
    rewrite PipelineFacts.render_callback_outcome in Hrun.
    destruct (render_body E root name ctx v _) as [r0 st2] eqn:Hbody.
    pose proof (render_body_caches_grow E root name ctx v _ _ _ Hbody) as Hgrow.
    destruct r0 as [err|u]; injection Hrun as <- <-; exact Hgrow.
Qed.

End ConductFacts.

(** ** The loaders of the not-found page and of the layouts *)

Module LoaderFacts.
Import Sanitize Metadata PageName Pipeline Scenario Conduct ConductFacts.






(** *** The not-found page *)







(** *** The discovery of the nested layout *)

#[export] Instance no_discovery_trans : Transitive no_discovery.
Proof.
  intros a b c (Hab & e1 & Ht1 & H1) (Hbc & e2 & Ht2 & H2). split; [congruence|].
  exists (e1 ++ e2). rewrite Ht2, Ht1, <- app_assoc. split; [reflexivity|].
  now rewrite forallb_app, H1, H2.
Qed.

#[export] Instance same_discovery_trans : Transitive same_discovery.
Proof. intros a b c Hab Hbc. unfold same_discovery in *. congruence. Qed.

Lemma no_discovery_refl (st : state) : no_discovery st st.
Proof. split; [reflexivity|]. exists []. now rewrite app_nil_r. Qed.

Ltac quiet_leaf :=
  first [ apply no_discovery_refl
        | split; [reflexivity|];
          first [ exists []; split; [symmetry; apply app_nil_r|reflexivity]
                | eexists [_]; split; reflexivity ] ].

Lemma readdir_run (E : env) (path : string) (st : state) :
  attempt (fs_readdirSync E path) st =
  (inr (readdirSync E (clock st) path), with_trace (trace st ++ [EvReaddir path]) st).
Proof.
  unfold attempt, fs_readdirSync, emit, modify, Date_now, gets, settle, mbind, M_bind.
  reflexivity.
Qed.

(** X10.  The discovery of the nested layout is never repeated: when a
    custom layout is named, or the discovery cache already has an entry
    for the directory (a layout file or the answer that there is none),
    [loadLayout] lists no directory and leaves the discovery cache as it
    is, whatever the age of the entry: the discovery cache has no TTL. *)
Theorem X10_layout_discovery_is_not_repeated
        (E : env) (sourcePath : string) (customLayout : option string)
        (st st' : state) (r : exn + option CachedLayout) :
  loadLayout E sourcePath customLayout st = (r, st') ->
  is_Some (truthy_string customLayout) \/
  is_Some (LAYOUT_DISCOVERY_CACHE (cache st) !! sourcePath) ->
  LAYOUT_DISCOVERY_CACHE (cache st') = LAYOUT_DISCOVERY_CACHE (cache st) /\
  exists evs, trace st' = trace st ++ evs /\
              forallb (fun e => negb (is_readdir_event e)) evs = true.
Proof.
  intros H Hknown. change (no_discovery st st').
  unfold loadLayout in H. cbv zeta in H. step H. step H.
  destruct (LAYOUT_CACHE (cache st) !! _) as [cached|] eqn:Hcached;
    [destruct (cache_fresh E (clock st) (cl_timestamp cached))|].
  1: { finish H. apply no_discovery_refl. }
  all: destruct (truthy_string customLayout) as [name|] eqn:Hcustom.
  all: try (kept no_discovery ltac:(quiet_leaf) H; exact Hkept).
  all: destruct Hknown as [[? [=]]|[known Hk]].
  all: lazymatch type of H with
       | (mbind ?f ?c) ?st0 = _ =>
           assert (Hc : c st0 = (inr known, st0))
             by (unfold mbind, M_bind, gets; rewrite Hk; reflexivity);
           rewrite (bind_run c f st0 st0 known Hc) in H; cbv beta in H; clear Hc
       end.
  all: kept no_discovery ltac:(quiet_leaf) H; exact Hkept.
Qed.

(** A directory known to have no nested layout, long after the entry was
    made. *)
Lemma X10_witness :
  let E := env_of_files [("/app/src/main.layout.tsx"%string, simple_page "Main")] false in
  loadLayout E "/app/src" None discovery_known = (inr None, discovery_known) /\
  LAYOUT_DISCOVERY_CACHE (cache discovery_known) =
  LAYOUT_DISCOVERY_CACHE (cache discovery_known) /\
  exists evs, trace discovery_known = trace discovery_known ++ evs /\
              forallb (fun e => negb (is_readdir_event e)) evs = true.
Proof.
  cbv zeta.
  assert (Hrun :
    loadLayout (env_of_files [("/app/src/main.layout.tsx"%string, simple_page "Main")] false)
               "/app/src" None discovery_known = (inr None, discovery_known)).
  { vm_compute. reflexivity. }
  split; [exact Hrun|].
  apply (X10_layout_discovery_is_not_repeated _ _ _ _ _ _ Hrun).
  right. exists None. vm_compute. reflexivity.
Defined.

(** X13.  The first discovery is remembered, also when it fails: a call
    without a custom layout, with nothing fresh in the layout cache and no
    discovery entry for the directory, leaves a discovery entry for the
    directory, whatever the call returns or throws afterwards.  The entry
    is the first layout file of the listing that is not [app.layout.tsx],
    or [null] when there is none or when the listing throws. *)
Theorem X13_first_discovery_is_remembered
        (E : env) (sourcePath : string) (customLayout : option string)
        (st st' : state) (r : exn + option CachedLayout) :
  loadLayout E sourcePath customLayout st = (r, st') ->
  truthy_string customLayout = None ->
  layout_cache_miss E (sourcePath ++ ":auto") st ->
  LAYOUT_DISCOVERY_CACHE (cache st) !! sourcePath = None ->
  LAYOUT_DISCOVERY_CACHE (cache st') !! sourcePath =
  Some (discovered E (clock st) sourcePath).
Proof.
  intros H Hcustom Hmiss Hnone.
  unfold loadLayout in H. cbv zeta in H. rewrite Hcustom in H. cbn [default] in H.
  unfold layout_cache_miss in Hmiss.
  step H. step H.
  destruct (LAYOUT_CACHE (cache st) !! _) as [cached|] eqn:Hcached;
    [rewrite Hmiss in H|].
  all: lazymatch type of H with
       | (mbind ?f ?c) ?st0 = _ =>
           assert (Hc : exists st1,
                     c st0 = (inr (discovered E (clock st) sourcePath), st1) /\
                     LAYOUT_DISCOVERY_CACHE (cache st1) !! sourcePath =
                     Some (discovered E (clock st) sourcePath));
           [ unfold mbind at 1, M_bind at 1, gets; rewrite Hnone; cbv beta iota;
             rewrite (bind_run _ _ _ _ _ (readdir_run E sourcePath st0));
             unfold discovered; cbn [clock with_trace];
             destruct (readdirSync E (clock st) sourcePath) as [e|files];
             [|destruct (truthy_string (discover_layout files))];
             (eexists; split; [reflexivity|apply lookup_insert_eq])
           | destruct Hc as (st1 & Hc & Hentry);
             rewrite (bind_run c f st0 st1 _ Hc) in H; cbv beta in H; clear Hc ]
       end.
  all: kept same_discovery ltac:(unfold same_discovery; reflexivity) H.
  all: unfold same_discovery in Hkept; now rewrite Hkept.
Qed.

(** A first request on a directory with a nested layout beside the root
    layout. *)
Lemma X13_witness :
  let run := loadLayout listing_env "/app/src" None initial_state in
  match fst run with
  | inr (Some layout) => cl_component layout = Some "Main"%string
  | _ => False
  end /\
  LAYOUT_DISCOVERY_CACHE (cache (snd run)) !! "/app/src"%string =
  Some (Some "/app/src/main.layout.tsx"%string).
Proof.
  cbv zeta. split; [vm_compute; reflexivity|].
  assert (Hrun :
    loadLayout listing_env "/app/src" None initial_state =
    (fst (loadLayout listing_env "/app/src" None initial_state),
     snd (loadLayout listing_env "/app/src" None initial_state))).
  { vm_compute. reflexivity. }
  exact (X13_first_discovery_is_remembered listing_env "/app/src" None initial_state
           _ _ Hrun eq_refl I eq_refl).
Defined.

(** *** Hits of the layout caches *)

Lemma loadLayout_hit (E : env) (sourcePath : string) (customLayout : option string)
      (st : state) (c : CachedLayout) :
  LAYOUT_CACHE (cache st) !!
    (sourcePath ++ ":" ++ default "auto" (truthy_string customLayout))%string = Some c ->
  cache_fresh E (clock st) (cl_timestamp c) = true ->
  loadLayout E sourcePath customLayout st = (inr (Some c), st).
Proof.
  intros Hc Hfresh. unfold loadLayout. cbv zeta.
  unfold mbind at 1, M_bind at 1, gets. unfold mbind at 1, M_bind at 1, Date_now, gets.
  now rewrite Hc, Hfresh.
Qed.

Lemma loadRootLayout_hit (E : env) (sourcePath : string) (st : state) (c : CachedLayout) :
  ROOT_LAYOUT_CACHE (cache st) !! sourcePath = Some c ->
  cache_fresh E (clock st) (cl_timestamp c) = true ->
  loadRootLayout E sourcePath st = (inr (Some c), st).
Proof.
  intros Hc Hfresh. unfold loadRootLayout. cbv zeta.
  unfold mbind at 1, M_bind at 1, gets. unfold mbind at 1, M_bind at 1, Date_now, gets.
  now rewrite Hc, Hfresh.
Qed.

(** X19.  With the nested layout and the root layout of a directory in
    their caches and within the TTL, both loaders return the cached
    objects themselves and touch nothing: no file system access, no
    loader call, no change of state.  The nested layout is cached under
    the directory and the layout name, with [auto] standing for a
    discovered layout: a request that names no layout, one whose layout
    name is empty and one that names a custom layout [auto] all get the
    discovered layout from the same entry. *)
Theorem X19_layout_cache_hits
        (E : env) (sourcePath : string) (st : state) (nested root : CachedLayout) :
  LAYOUT_CACHE (cache st) !! (sourcePath ++ ":auto")%string = Some nested ->
  cache_fresh E (clock st) (cl_timestamp nested) = true ->
  ROOT_LAYOUT_CACHE (cache st) !! sourcePath = Some root ->
  cache_fresh E (clock st) (cl_timestamp root) = true ->
  loadLayout E sourcePath None st = (inr (Some nested), st) /\
  loadLayout E sourcePath (Some EmptyString) st = (inr (Some nested), st) /\
  loadLayout E sourcePath (Some "auto"%string) st = (inr (Some nested), st) /\
  loadRootLayout E sourcePath st = (inr (Some root), st).
Proof.
  intros Hn Hnf Hr Hrf.
  split; [now apply loadLayout_hit|]. split; [now apply loadLayout_hit|].
  split; [now apply loadLayout_hit|now apply loadRootLayout_hit].
Qed.

(** Four seconds after the first render of a page of [/app/src]. *)
Lemma X19_witness :
  let E := env_of_files [] false in
  loadLayout E "/app/src" None warm_state = (inr (Some cached_main_layout), warm_state) /\
  loadLayout E "/app/src" (Some EmptyString) warm_state =
    (inr (Some cached_main_layout), warm_state) /\
  loadLayout E "/app/src" (Some "auto"%string) warm_state =
    (inr (Some cached_main_layout), warm_state) /\
  loadRootLayout E "/app/src" warm_state = (inr (Some cached_app_layout), warm_state).
Proof.
  exact (X19_layout_cache_hits (env_of_files [] false) "/app/src" warm_state
           cached_main_layout cached_app_layout eq_refl eq_refl eq_refl eq_refl).
Defined.

End LoaderFacts.

(** ** The CSRF token *)

Module CsrfFacts.
Import Units Pipeline Escaping EscapingFacts Csrf.

Lemma hex_of_byte_digits (b : Byte.byte) :
  exists c d,
    hex_of_byte b = String c (String d EmptyString) /\
    is_hex_digit c = true /\ is_hex_digit d = true.
Proof.
  eexists _, _. split; [reflexivity|].
  destruct b; split; vm_compute; reflexivity.
Qed.

Lemma hex_char_not_special (c : ascii) : is_hex_digit c = true -> html_special c = false.
Proof.
  unfold is_hex_digit, html_special. cbv zeta. intros H.
  apply orb_true_iff in H as [H|H]; apply andb_true_iff in H as [Hlo Hhi];
    apply N.leb_le in Hlo, Hhi;
    repeat (apply orb_false_iff; split); apply N.eqb_neq; lia.
Qed.

Lemma toString_hex_spec (buf : list Byte.byte) :
  String.length (Buffer_toString_hex buf) = (2 * length buf)%nat /\
  Forall (fun c => is_hex_digit c = true)
         (list_ascii_of_string (Buffer_toString_hex buf)).
Proof.
  induction buf as [|b rest [IHlen IHhex]]; [split; [reflexivity|constructor]|].
  cbn [Buffer_toString_hex length].
  destruct (hex_of_byte_digits b) as (c & d & -> & Hc & Hd).
  change (String c (String d EmptyString) ++ Buffer_toString_hex rest)%string
    with (String c (String d (Buffer_toString_hex rest))).
  cbn [String.length list_ascii_of_string]. split; [lia|].
  now repeat constructor.
Qed.

Lemma hex_text_plain (s : string) :
  Forall (fun c => is_hex_digit c = true) (list_ascii_of_string s) -> plain s = true.
Proof.
  unfold plain. induction 1 as [|c l Hc _ IH]; [reflexivity|].
  cbn [forallb]. now rewrite (hex_char_not_special c Hc).
Qed.

Lemma Buffer_copy_full (source target : list Byte.byte) :
  length source = length target -> Buffer_copy source target = source.
Proof.
  intros Hlen. unfold Buffer_copy.
  rewrite take_ge by lia. rewrite drop_ge by lia. apply app_nil_r.
Qed.

(** X5.  The CSRF token is the hexadecimal text of the 32 fresh random
    bytes and of nothing else: whatever the reused buffer held before
    (uninitialized memory, the token of the previous request), every one
    of its bytes is overwritten.  The token has 64 characters, all of them
    lowercase hexadecimal digits, so writing it into the page without
    escaping changes nothing: [escapeHtml] would return it as it is. *)
Theorem X5_csrf_token_is_fresh_hex (random csrfTokenBuffer : list Byte.byte) :
  length random = 32%nat ->
  length csrfTokenBuffer = 32%nat ->
  let token := fst (generateCSRFToken_bytes random csrfTokenBuffer) in
  token = Buffer_toString_hex random /\
  snd (generateCSRFToken_bytes random csrfTokenBuffer) = random /\
  String.length token = 64%nat /\
  Forall (fun c => is_hex_digit c = true) (list_ascii_of_string token) /\
  escapeHtml token = token.
Proof.
  intros Hr Hb. cbv zeta. unfold generateCSRFToken_bytes. cbn [fst snd].
  rewrite (Buffer_copy_full random csrfTokenBuffer) by congruence.
  destruct (toString_hex_spec random) as [Hlen Hhex].
  split; [reflexivity|]. split; [reflexivity|].
  split; [rewrite Hlen, Hr; reflexivity|]. split; [exact Hhex|].
  apply escapeHtml_plain. now apply hex_text_plain.
Qed.

(** Thirty-two bytes over a buffer that held other bytes. *)
Lemma X5_witness :
  let random := repeat Byte.xa7 32 in
  let token := fst (generateCSRFToken_bytes random (repeat Byte.xff 32)) in
  token = Buffer_toString_hex random /\
  snd (generateCSRFToken_bytes random (repeat Byte.xff 32)) = random /\
  String.length token = 64%nat /\
  Forall (fun c => is_hex_digit c = true) (list_ascii_of_string token) /\
  escapeHtml token = token.
Proof.
  exact (X5_csrf_token_is_fresh_hex (repeat Byte.xa7 32) (repeat Byte.xff 32)
           eq_refl eq_refl).
Defined.

End CsrfFacts.

(** ** The pool of route data objects *)

Module RoutePoolFacts.
Import Sanitize Metadata Pipeline Scenario Conduct ConductFacts RoutePool.

(** *** Assignment to a property *)

Lemma obj_get_set_eq (fields : list (string * jsval)) (k : string) (v : jsval) :
  existsb (fun kv => String.eqb (fst kv) k) fields = true ->
  obj_get (obj_set fields k v) k = Some v.
Proof.
  unfold obj_get, obj_set. induction fields as [|[k0 v0] rest IH]; [discriminate|].
  cbn [existsb map find fst snd]. destruct (String.eqb k0 k) eqn:Hk.
  - intros _. cbn [fst find]. now rewrite Hk.
  - cbn [orb]. intros H. cbn [fst find]. rewrite Hk. exact (IH H).
Qed.

Lemma obj_get_set_ne (fields : list (string * jsval)) (k k' : string) (v : jsval) :
  k <> k' -> obj_get (obj_set fields k v) k' = obj_get fields k'.
Proof.
  intros Hne. unfold obj_get, obj_set. induction fields as [|[k0 v0] rest IH]; [reflexivity|].
  cbn [map find fst snd]. destruct (String.eqb k0 k) eqn:Hk.
  - apply String.eqb_eq in Hk as ->. cbn [fst find].
    destruct (String.eqb k k') eqn:Hkk; [apply String.eqb_eq in Hkk; contradiction|].
    exact IH.
  - cbn [fst find]. destruct (String.eqb k0 k'); [reflexivity|exact IH].
Qed.

Lemma obj_get_snoc_eq (fields : list (string * jsval)) (k : string) (v : jsval) :
  existsb (fun kv => String.eqb (fst kv) k) fields = false ->
  obj_get (fields ++ [(k, v)]) k = Some v.
Proof.
  unfold obj_get. induction fields as [|[k0 v0] rest IH].
  - intros _. cbn. now rewrite String.eqb_refl.
  - cbn [existsb app find fst]. destruct (String.eqb k0 k); [discriminate|].
    cbn [orb]. exact IH.
Qed.

Lemma obj_get_snoc_ne (fields : list (string * jsval)) (k k' : string) (v : jsval) :
  k <> k' -> obj_get (fields ++ [(k, v)]) k' = obj_get fields k'.
Proof.
  intros Hne. unfold obj_get. induction fields as [|[k0 v0] rest IH].
  - cbn. destruct (String.eqb k k') eqn:Hkk; [apply String.eqb_eq in Hkk; contradiction|].
    reflexivity.
  - cbn [app find fst]. destruct (String.eqb k0 k'); [reflexivity|exact IH].
Qed.

Lemma obj_get_assign_eq (fields : list (string * jsval)) (k : string) (v : jsval) :
  obj_get (obj_assign fields k v) k = Some v.
Proof.
  unfold obj_assign. destruct (existsb _ fields) eqn:He.
  - now apply obj_get_set_eq.
  - now apply obj_get_snoc_eq.
Qed.

Lemma obj_get_assign_ne (fields : list (string * jsval)) (k k' : string) (v : jsval) :
  k <> k' -> obj_get (obj_assign fields k v) k' = obj_get fields k'.
Proof.
  intros Hne. unfold obj_assign. destruct (existsb _ fields).
  - now apply obj_get_set_ne.
  - now apply obj_get_snoc_ne.
Qed.

(** *** The steps of the pool *)

Lemma p_bind_run {A B : Type} (c : P A) (f : A -> P B) (s s1 : pool_state) (x : A) :
  c s = (inr x, s1) -> (c ≫= f) s = f x s1.
Proof. intros H. unfold mbind, P_bind. now rewrite H. Qed.

Lemma frames_refl (l : nat) (h : list jsobj) : frames l h h.
Proof. split; [lia|]. intros l' o _ H. exact H. Qed.

Lemma frames_trans (l : nat) (h1 h2 h3 : list jsobj) :
  frames l h1 h2 -> frames l h2 h3 -> frames l h1 h3.
Proof.
  intros [Hl1 H1] [Hl2 H2]. split; [lia|].
  intros l' o Hne H. apply (H2 l' o Hne). now apply (H1 l' o Hne).
Qed.

Lemma p_assign_spec (l : nat) (key : string) (v : jsval) (s : pool_state) (o : jsobj) :
  ps_heap s !! l = Some o ->
  exists s',
    p_assign (VRef l) key v s = (inr tt, s') /\
    ps_pool s' = ps_pool s /\
    length (ps_heap s') = length (ps_heap s) /\
    ps_heap s' !! l = Some (with_props o (obj_assign (props o) key v)) /\
    frames l (ps_heap s) (ps_heap s').
Proof.
  intros Hl. unfold p_assign. rewrite Hl. eexists. split; [reflexivity|].
  cbn [ps_pool ps_heap]. split; [reflexivity|].
  split; [apply length_insert|].
  split; [apply list_lookup_insert_eq; now apply (lookup_lt_Some _ _ _ Hl)|].
  split; [rewrite length_insert; lia|].
  intros l' o' Hne H. now rewrite list_lookup_insert_ne.
Qed.

Lemma or_new_spec (l : nat) (v : jsval) (s : pool_state) :
  (l < length (ps_heap s))%nat ->
  exists p s',
    or_new v s = (inr p, s') /\
    ps_pool s' = ps_pool s /\
    frames l (ps_heap s) (ps_heap s') /\
    ps_heap s' !! l = ps_heap s !! l /\
    (if truthy v then p = v
     else p = VRef (length (ps_heap s)) /\
          ps_heap s' !! length (ps_heap s) = Some (MkObj Plain [])).
Proof.
  intros Hl. unfold or_new. destruct (truthy v).
  - exists v, s. split; [reflexivity|]. split; [reflexivity|].
    split; [apply frames_refl|]. split; reflexivity.
  - eexists _, _. split; [reflexivity|]. cbn [ps_pool ps_heap].
    split; [reflexivity|]. split; [|split].
    + split; [rewrite length_app; lia|]. intros l' o _ H. now apply lookup_app_l_Some.
    + now rewrite lookup_app_l.
    + split; [reflexivity|]. rewrite lookup_app_r by lia.
      now rewrite Nat.sub_diag.
Qed.

Lemma p_alloc_spec (l : nat) (o : jsobj) (s : pool_state) :
  (l < length (ps_heap s))%nat ->
  exists s',
    p_alloc o s = (inr (VRef (length (ps_heap s))), s') /\
    ps_pool s' = ps_pool s /\
    frames l (ps_heap s) (ps_heap s') /\
    ps_heap s' !! l = ps_heap s !! l /\
    ps_heap s' !! length (ps_heap s) = Some o.
Proof.
  intros Hl. eexists. split; [reflexivity|]. cbn [ps_pool ps_heap].
  split; [reflexivity|]. split; [|split].
  - split; [rewrite length_app; lia|]. intros l' o' _ H. now apply lookup_app_l_Some.
  - now rewrite lookup_app_l.
  - rewrite lookup_app_r by lia. now rewrite Nat.sub_diag.
Qed.

Lemma or_fresh_later (old h h' : list jsobj) (l : nat) (wanted v : jsval) :
  (l < length old)%nat -> frames l h h' ->
  or_fresh_object old h wanted v -> or_fresh_object old h' wanted v.
Proof.
  intros Hl [_ Hkeep]. unfold or_fresh_object. destruct (truthy wanted); [auto|].
  intros (m & -> & Hm & Hobj). exists m. split; [reflexivity|]. split; [exact Hm|].
  apply Hkeep; [lia|exact Hobj].
Qed.

Lemma pop_snoc (rest : list jsval) (v : jsval) :
  last (rest ++ [v]) = Some v /\ removelast (rest ++ [v]) = rest.
Proof. split; [apply last_snoc|apply removelast_last]. Qed.

(** [acquire] on a pool whose last element is the object at [l]. *)
Lemma acquire_pooled (E : env) (req : request) (s : pool_state) (l : nat)
      (rest : list jsval) (o : jsobj) (entries : list (string * string)) :
  ps_pool s = rest ++ [VRef l] ->
  ps_heap s !! l = Some o ->
  url_searchParams E (or_string (req_url req) "/")
    ("http://" ++ or_string (req_host req) "localhost")%string = inr entries ->
  exists s' o',
    acquire E req s = (inr (VRef l), s') /\
    ps_pool s' = rest /\
    ps_heap s' !! l = Some o' /\
    holds_route_of E req (ps_heap s) (ps_heap s') o o' /\
    frames l (ps_heap s) (ps_heap s').
Proof.
  intros Hpool Hl Hurl.
  pose proof (lookup_lt_Some _ _ _ Hl) as Hlt.
  destruct (pop_snoc rest (VRef l)) as [Hlast Hremove].
  set (s0 := MkPool (ps_heap s) rest).
  assert (Hpop : p_pop s = (inr (Some (VRef l)), s0)).
  { unfold p_pop, s0. now rewrite Hpool, Hlast, Hremove. }
  (* params *)
  destruct (or_new_spec l (req_params req) s0 Hlt) as (p & s1 & Hp & Hpool1 & Hf1 & Hl1 & Hpv).
  cbn [ps_heap s0] in Hl1. rewrite Hl in Hl1.
  destruct (p_assign_spec l "params" p s1 o Hl1) as (s2 & Ha2 & Hpool2 & Hlen2 & Hl2 & Hf2).
  (* query *)
  assert (Hlt2 : (l < length (ps_heap s2))%nat) by (apply (lookup_lt_Some _ _ _ Hl2)).
  destruct (or_new_spec l (req_query req) s2 Hlt2) as (q & s3 & Hq & Hpool3 & Hf3 & Hl3 & Hqv).
  rewrite Hl2 in Hl3.
  destruct (p_assign_spec l "query" q s3 _ Hl3) as (s4 & Ha4 & Hpool4 & Hlen4 & Hl4 & Hf4).
  (* pathname *)
  destruct (p_assign_spec l "pathname" (VPrim (PStr (pathname_of req))) s4 _ Hl4)
    as (s5 & Ha5 & Hpool5 & Hlen5 & Hl5 & Hf5).
  (* searchParams *)
  assert (Hlt5 : (l < length (ps_heap s5))%nat) by (apply (lookup_lt_Some _ _ _ Hl5)).
  destruct (p_alloc_spec l (MkObj Plain (from_entries entries)) s5 Hlt5)
    as (s6 & Hal & Hpool6 & Hf6 & Hl6 & Hsp).
  rewrite Hl5 in Hl6.
  destruct (p_assign_spec l "searchParams" (VRef (length (ps_heap s5))) s6 _ Hl6)
    as (s7 & Ha7 & Hpool7 & Hlen7 & Hl7 & Hf7).
  exists s7. eexists. split.
  { unfold acquire.
    rewrite (p_bind_run _ _ _ _ _ Hpop). cbn [default].
    assert (Hobj : or_new (VRef l) s0 = (inr (VRef l), s0)) by reflexivity.
    rewrite (p_bind_run _ _ _ _ _ Hobj).
    rewrite (p_bind_run _ _ _ _ _ Hp), (p_bind_run _ _ _ _ _ Ha2).
    rewrite (p_bind_run _ _ _ _ _ Hq), (p_bind_run _ _ _ _ _ Ha4).
    rewrite (p_bind_run _ _ _ _ _ Ha5).
    rewrite Hurl.
    assert (Hset : p_settle (inr entries : exn + list (string * string)) s5 =
                   (inr entries, s5)) by reflexivity.
    rewrite (p_bind_run _ _ _ _ _ Hset).
    rewrite (p_bind_run _ _ _ _ _ Hal), (p_bind_run _ _ _ _ _ Ha7).
    reflexivity. }
  split; [rewrite Hpool7, Hpool6, Hpool5, Hpool4, Hpool3, Hpool2, Hpool1; reflexivity|].
  split; [exact Hl7|].
  assert (Hf37 : frames l (ps_heap s3) (ps_heap s7)).
  { eapply frames_trans; [exact Hf4|]. eapply frames_trans; [exact Hf5|].
    eapply frames_trans; [exact Hf6|exact Hf7]. }
  assert (Hf17 : frames l (ps_heap s1) (ps_heap s7)).
  { eapply frames_trans; [exact Hf2|]. eapply frames_trans; [exact Hf3|exact Hf37]. }
  assert (Hframes : frames l (ps_heap s) (ps_heap s7)).
  { eapply frames_trans; [exact Hf1|exact Hf17]. }
  assert (Hlen05 : (length (ps_heap s) <= length (ps_heap s5))%nat).
  { destruct Hf1 as [Hn1 _], Hf3 as [Hn3 _]. cbn [ps_heap s0] in Hn1. lia. }
  split; [|exact Hframes].
  unfold holds_route_of. cbn [with_props props is_array].
  split; [reflexivity|]. split.
  { rewrite obj_get_assign_ne by discriminate. apply obj_get_assign_eq. }
  split.
  { exists p. split.
    - rewrite !obj_get_assign_ne by discriminate. apply obj_get_assign_eq.
    - assert (H1 : or_fresh_object (ps_heap s) (ps_heap s1) (req_params req) p).
      { unfold or_fresh_object. destruct (truthy (req_params req)); [exact Hpv|].
        destruct Hpv as [-> Hobj]. cbn [ps_heap s0] in *.
        exists (length (ps_heap s)). split; [reflexivity|]. split; [lia|exact Hobj]. }
      exact (or_fresh_later _ _ _ l _ _ Hlt Hf17 H1). }
  split.
  { exists q. split.
    - rewrite !obj_get_assign_ne by discriminate. apply obj_get_assign_eq.
    - assert (H3 : or_fresh_object (ps_heap s) (ps_heap s3) (req_query req) q).
      { unfold or_fresh_object. destruct (truthy (req_query req)); [exact Hqv|].
        destruct Hqv as [-> Hobj].
        exists (length (ps_heap s2)). split; [reflexivity|]. split; [|exact Hobj].
        destruct Hf1 as [Hn1 _]. cbn [ps_heap s0] in Hn1. lia. }
      exact (or_fresh_later _ _ _ l _ _ Hlt Hf37 H3). }
  split.
  { exists (length (ps_heap s5)), entries. split; [exact Hurl|].
    split; [apply obj_get_assign_eq|]. split; [exact Hlen05|].
    destruct Hf7 as [_ Hkeep]. apply Hkeep; [lia|exact Hsp]. }
  intros k Hk. rewrite !not_elem_of_cons in Hk. destruct Hk as (H1 & H2 & H3 & H4 & _).
  now rewrite !obj_get_assign_ne by congruence.
Qed.

Lemma release_spec (s : pool_state) (l : nat) (o : jsobj) :
  ps_heap s !! l = Some o ->
  exists s1 o1,
    release (VRef l) s = (inr tt, s1) /\
    ps_pool s1 = ps_pool s ++ [VRef l] /\
    ps_heap s1 !! l = Some o1 /\
    is_array o1 = is_array o /\
    length (ps_heap s1) = length (ps_heap s) /\
    (forall k, k ∈ ROUTE_FIELDS -> obj_get (props o1) k = Some (VPrim PNull)) /\
    (forall k, k ∉ ROUTE_FIELDS -> obj_get (props o1) k = obj_get (props o) k) /\
    frames l (ps_heap s) (ps_heap s1).
Proof.
  intros Hl.
  destruct (p_assign_spec l "params" (VPrim PNull) s o Hl)
    as (s1 & Ha1 & Hp1 & Hn1 & Hl1 & Hf1).
  destruct (p_assign_spec l "query" (VPrim PNull) s1 _ Hl1)
    as (s2 & Ha2 & Hp2 & Hn2 & Hl2 & Hf2).
  destruct (p_assign_spec l "pathname" (VPrim PNull) s2 _ Hl2)
    as (s3 & Ha3 & Hp3 & Hn3 & Hl3 & Hf3).
  destruct (p_assign_spec l "searchParams" (VPrim PNull) s3 _ Hl3)
    as (s4 & Ha4 & Hp4 & Hn4 & Hl4 & Hf4).
  exists (MkPool (ps_heap s4) (ps_pool s4 ++ [VRef l])). eexists. split.
  { unfold release.
    rewrite (p_bind_run _ _ _ _ _ Ha1), (p_bind_run _ _ _ _ _ Ha2).
    rewrite (p_bind_run _ _ _ _ _ Ha3), (p_bind_run _ _ _ _ _ Ha4). reflexivity. }
  cbn [ps_pool ps_heap].
  split; [now rewrite Hp4, Hp3, Hp2, Hp1|]. split; [exact Hl4|].
  split; [reflexivity|]. split; [lia|].
  cbn [with_props props]. split; [|split].
  - intros k Hk. unfold ROUTE_FIELDS in Hk. rewrite !elem_of_cons in Hk.
    destruct Hk as [->|[->|[->|[->|Hk]]]]; [| | | |now apply elem_of_nil in Hk].
    + rewrite !obj_get_assign_ne by discriminate. apply obj_get_assign_eq.
    + rewrite !obj_get_assign_ne by discriminate. apply obj_get_assign_eq.
    + rewrite !obj_get_assign_ne by discriminate. apply obj_get_assign_eq.
    + apply obj_get_assign_eq.
  - intros k Hk. unfold ROUTE_FIELDS in Hk. rewrite !not_elem_of_cons in Hk.
    destruct Hk as (H1 & H2 & H3 & H4 & _).
    now rewrite !obj_get_assign_ne by congruence.
  - eapply frames_trans; [exact Hf1|]. eapply frames_trans; [exact Hf2|].
    eapply frames_trans; [exact Hf3|exact Hf4].
Qed.

(** X14.  An object that goes through the pool carries nothing over to
    the next request.  After [release(obj)] and [acquire(req)] the same
    object comes back and the pool is as it was before the release; its
    four route fields hold the data of the new request: the path name of
    the request, the request's [params] and [query] (or, for a falsy one,
    an empty object that did not exist before), and a new object with the
    entries of the query string; no field holds the [null] that [release]
    wrote or a value of the previous request.  Every other object of the
    heap, and every other field of the object, is as it was. *)
Theorem X14_pooled_object_carries_nothing_over
        (E : env) (req : request) (s : pool_state) (l : nat) (o : jsobj)
        (entries : list (string * string)) :
  ps_heap s !! l = Some o ->
  url_searchParams E (or_string (req_url req) "/")
    ("http://" ++ or_string (req_host req) "localhost")%string = inr entries ->
  exists s1 s2 o',
    release (VRef l) s = (inr tt, s1) /\
    acquire E req s1 = (inr (VRef l), s2) /\
    ps_pool s2 = ps_pool s /\
    ps_heap s2 !! l = Some o' /\
    holds_route_of E req (ps_heap s) (ps_heap s2) o o' /\
    frames l (ps_heap s) (ps_heap s2).
Proof.
  intros Hl Hurl.
  destruct (release_spec s l o Hl)
    as (s1 & o1 & Hrel & Hpool1 & Hl1 & Harr1 & Hlen1 & _ & Hother & Hf1).
  destruct (acquire_pooled E req s1 l (ps_pool s) o1 entries Hpool1 Hl1 Hurl)
    as (s2 & o' & Hacq & Hpool2 & Hl2 & Hroute & Hf2).
  exists s1, s2, o'. split; [exact Hrel|]. split; [exact Hacq|].
  split; [exact Hpool2|]. split; [exact Hl2|].
  split; [|eapply frames_trans; eassumption].
  destruct Hroute as (Harr & Hpath & (p & Hp & Hpv) & (q & Hq & Hqv) &
                      (sp & es & Hes & Hsp & Hsplen & Hspobj) & Hkeep).
  unfold holds_route_of. split; [congruence|]. split; [exact Hpath|].
  unfold or_fresh_object in *. rewrite Hlen1 in *.
  split; [exists p; split; [exact Hp|exact Hpv]|].
  split; [exists q; split; [exact Hq|exact Hqv]|].
  split; [exists sp, es; repeat split; assumption|].
  intros k Hk. rewrite (Hkeep k Hk). apply Hother. exact Hk.
Qed.

(** The object of a request for [/account/7] is released and serves a
    request for [/users?tab=1]. *)
Lemma X14_witness :
  exists s1 s2 o',
    release (VRef 1%nat) previous_route = (inr tt, s1) /\
    acquire tab_env users_request s1 = (inr (VRef 1%nat), s2) /\
    ps_pool s2 = [] /\
    ps_heap s2 !! 1%nat = Some o' /\
    holds_route_of tab_env users_request (ps_heap previous_route) (ps_heap s2)
      (MkObj Plain [("params"%string, VRef 0%nat);
                    ("query"%string, VPrim PNull);
                    ("pathname"%string, VPrim (PStr "/account/7"));
                    ("searchParams"%string, VPrim PNull)]) o' /\
    frames 1%nat (ps_heap previous_route) (ps_heap s2).
Proof.
  exact (X14_pooled_object_carries_nothing_over tab_env users_request previous_route
           1%nat _ [("tab", "1")]%string eq_refl eq_refl).
Defined.

(** *** The entries of the query string *)

Lemma last_value_from (entries : list (string * string)) (k x : string) :
  fold_left (fun acc kv => if String.eqb (fst kv) k then Some (snd kv) else acc)
            entries (Some x) =
  match last_value_of entries k with
  | Some v => Some v
  | None => Some x
  end.
Proof.
  unfold last_value_of. revert x.
  induction entries as [|[k0 v0] rest IH]; intros x; [reflexivity|].
  cbn [fold_left fst snd]. destruct (String.eqb k0 k).
  - rewrite (IH v0). now destruct (fold_left _ rest None).
  - apply IH.
Qed.

Lemma from_entries_get (entries : list (string * string)) (acc : list (string * jsval))
      (k : string) :
  obj_get (fold_left (fun acc kv => obj_assign acc (fst kv) (VPrim (PStr (snd kv))))
                     entries acc) k =
  match last_value_of entries k with
  | Some v => Some (VPrim (PStr v))
  | None => obj_get acc k
  end.
Proof.
  revert acc. induction entries as [|[k0 v0] rest IH]; intros acc; [reflexivity|].
  cbn [fold_left fst snd]. rewrite IH. unfold last_value_of at 2. cbn [fold_left fst snd].
  destruct (String.eqb k0 k) eqn:Hk.
  - apply String.eqb_eq in Hk as ->. rewrite last_value_from.
    destruct (last_value_of rest k); [reflexivity|]. apply obj_get_assign_eq.
  - fold (last_value_of rest k). destruct (last_value_of rest k); [reflexivity|].
    apply obj_get_assign_ne. intros ->. now rewrite String.eqb_refl in Hk.
Qed.

Lemma obj_set_keys (fields : list (string * jsval)) (k : string) (v : jsval) :
  map fst (obj_set fields k v) = map fst fields.
Proof.
  unfold obj_set. induction fields as [|[k0 v0] rest IH]; [reflexivity|].
  cbn [map fst]. rewrite IH. now destruct (String.eqb k0 k).
Qed.

Lemma existsb_key (fields : list (string * jsval)) (k : string) :
  existsb (fun kv => String.eqb (fst kv) k) fields = false -> k ∉ map fst fields.
Proof.
  induction fields as [|[k0 v0] rest IH]; [intros _; apply not_elem_of_nil|].
  cbn [existsb map fst]. intros H. apply orb_false_iff in H as [Hk Hrest].
  apply not_elem_of_cons. split; [|exact (IH Hrest)].
  intros ->. now rewrite String.eqb_refl in Hk.
Qed.

Lemma obj_assign_keys_distinct (fields : list (string * jsval)) (k : string) (v : jsval) :
  NoDup (map fst fields) -> NoDup (map fst (obj_assign fields k v)).
Proof.
  intros Hnd. unfold obj_assign. destruct (existsb _ fields) eqn:He.
  - now rewrite obj_set_keys.
  - rewrite map_app. apply NoDup_app. split; [exact Hnd|]. split.
    + intros x Hx Hin. cbn in Hin. apply list_elem_of_singleton in Hin as ->.
      exact (existsb_key fields k He Hx).
    + cbn. apply NoDup_singleton.
Qed.

Lemma from_entries_keys_distinct (entries : list (string * string))
      (acc : list (string * jsval)) :
  NoDup (map fst acc) ->
  NoDup (map fst (fold_left (fun acc kv => obj_assign acc (fst kv) (VPrim (PStr (snd kv))))
                            entries acc)).
Proof.
  revert acc. induction entries as [|[k0 v0] rest IH]; intros acc Hnd; [exact Hnd|].
  cbn [fold_left fst snd]. apply IH. now apply obj_assign_keys_distinct.
Qed.

Lemma or_string_not_empty (x fallback : string) :
  fallback <> EmptyString -> or_string x fallback <> EmptyString.
Proof. intros Hf. unfold or_string. now destruct x. Qed.

(** X15.  The route data of a request: [searchParams] is a new object
    that holds each parameter of the query string once, with the value of
    its last occurrence ([?a=1&a=3] gives [a: "3"]), and nothing else; and
    the path name is never empty. *)
Theorem X15_search_params_keep_last_value
        (E : env) (r : request) (st st' : state) (rd : route_data) :
  extractRouteParams E r st = (inr rd, st') ->
  exists entries l fields,
    url_searchParams E (or_string (req_url r) "/")
      ("http://" ++ or_string (req_host r) "localhost")%string = inr entries /\
    rd_searchParams rd = VRef l /\
    (length (heap st) <= l)%nat /\
    heap st' !! l = Some (MkObj Plain fields) /\
    NoDup (map fst fields) /\
    (forall k, obj_get fields k =
               match last_value_of entries k with
               | Some v => Some (VPrim (PStr v))
               | None => None
               end) /\
    rd_pathname rd <> EmptyString.
Proof.
  intros H. unfold extractRouteParams in H. cbv zeta in H.
  assert (Hgrow : forall v s x s1, or_empty_object v s = (inr x, s1) ->
                                   (length (heap s) <= length (heap s1))%nat).
  { intros v s x s1. unfold or_empty_object. destruct (truthy v).
    - intros [= _ <-]. lia.
    - intros [= _ <-]. cbn [heap with_heap]. rewrite length_app. lia. }
  step H; [discriminate H|]. step H; [discriminate H|]. step H; [discriminate H|].
  unfold settle in Hc1. injection Hc1 as Hurl <-.
  step H. finish H.
  eexists _, _, _. split; [exact Hurl|].
  cbn [rd_searchParams rd_pathname heap with_heap].
  split; [reflexivity|].
  split; [pose proof (Hgrow _ _ _ _ Hc); pose proof (Hgrow _ _ _ _ Hc0); lia|].
  split; [rewrite lookup_app_r by lia; now rewrite Nat.sub_diag|].
  split; [apply from_entries_keys_distinct; constructor|].
  split; [intros k; apply from_entries_get|].
  apply or_string_not_empty. discriminate.
Qed.

(** The query string [?a=1&b=2&a=3]. *)
Lemma X15_witness :
  let run := extractRouteParams repeated_env (plain_request "/list?a=1&b=2&a=3")
                                initial_state in
  exists rd, fst run = inr rd /\
             field (heap (snd run)) (rd_searchParams rd) "a" = Some (VPrim (PStr "3")) /\
             field (heap (snd run)) (rd_searchParams rd) "b" = Some (VPrim (PStr "2")).
Proof.
  cbv zeta.
  assert (Hrun :
    extractRouteParams repeated_env (plain_request "/list?a=1&b=2&a=3") initial_state =
    (inr (MkRoute (VRef 0%nat) (VRef 1%nat) "/list?a=1&b=2&a=3" (VRef 2%nat)),
     snd (extractRouteParams repeated_env (plain_request "/list?a=1&b=2&a=3")
                             initial_state))).
  { vm_compute. reflexivity. }
  destruct (X15_search_params_keep_last_value _ _ _ _ _ Hrun)
    as (entries & l & fields & Hurl & Hl & _ & Hobj & _ & Hget & _).
  exists (MkRoute (VRef 0%nat) (VRef 1%nat) "/list?a=1&b=2&a=3" (VRef 2%nat)).
  split; [rewrite Hrun; reflexivity|].
  injection Hurl as <-. cbn [rd_searchParams] in *. injection Hl as <-.
  unfold field. rewrite Hobj. cbn [props]. rewrite !Hget. split; reflexivity.
Defined.

End RoutePoolFacts.

(** ** From the server's payload to the hooks *)

Module HooksFacts.
Import Units Json Codec Parser CodecSpec CodecFacts Client Hooks.

Section Engines.
Context `{Engine}.




End Engines.

Import SmallEngine SmallEngineFacts.


End HooksFacts.

(** ** A redirect raised by the route handler *)

Module RedirectFacts.
Import Sanitize Metadata PageName Pipeline Scenario RedirectFilter.

Lemma catch_run (url : string) (code : Z) (st : state) :
  RedirectExceptionFilter_catch url code st =
  (inr tt,
   with_res (MkResponse code (<["Location"%string := url]> (headers (res st)))
                        (Some (code, EmptyString)))
            (with_trace (trace st ++ [EvStatus code; EvSetHeader "Location" url;
                                      EvEnd EmptyString]) st)).
Proof.
  unfold RedirectExceptionFilter_catch, res_status, res_setHeader, res_end, emit, modify,
    mbind, M_bind.
  cbn [with_trace with_res trace res headers statusCode sent clock next_id cache heap].
  rewrite <- !app_assoc. reflexivity.
Qed.

(** X16.  A redirect signal that the route handler throws ends as a
    redirect response and nothing else.  The interceptor lets the signal
    through as it is (302 when no status was given); the filter then
    sends an empty body with the status of the signal and adds the
    [Location] header with its url.  Between the call of the handler and
    the end of the response nothing is loaded or rendered, the caches are
    untouched, and no other header is set: a redirect response carries
    none of the security headers of a rendered page. *)
Theorem X16_handler_redirect_becomes_response
        (E : env) (ctx : exec_context) (url : string) (code : option Z) (st : state)
        (o : observable) :
  intercept E ctx = Returns o ->
  let status := default 302%Z code in
  let run := handle_request E ctx (inl (RedirectException_new url code)) st in
  let answer := RedirectExceptionFilter_catch url status (snd run) in
  fst run = Errors (RedirectException url status) /\
  fst answer = inr tt /\
  sent (res (snd answer)) = Some (status, EmptyString) /\
  headers (res (snd answer)) = <["Location"%string := url]> (headers (res st)) /\
  trace (snd answer) =
    trace st ++ [EvHandle; EvStatus status; EvSetHeader "Location" url; EvEnd EmptyString] /\
  cache (snd answer) = cache st.
Proof.
  intros Hi status run answer.
  assert (Hrun : run = (Errors (RedirectException url status),
                        with_trace (trace st ++ [EvHandle]) st)).
  { unfold run, handle_request. rewrite Hi. unfold subscribe, emit, modify.
    now destruct o. }
  unfold answer. rewrite Hrun. cbn [fst snd]. rewrite catch_run. cbn [fst snd].
  split; [reflexivity|]. split; [reflexivity|].
  cbn [with_trace with_res trace res headers sent cache].
  split; [reflexivity|]. split; [reflexivity|].
  split; [now rewrite <- app_assoc|reflexivity].
Qed.

(** A handler of the page [home] that redirects to [/login]. *)
Lemma X16_witness :
  let E := env_of_files [("/app/src/home.page.tsx"%string, simple_page "Home")] false in
  let ctx := page_context "/app/src" "home" false "/" in
  let run := handle_request E ctx (inl (RedirectException_new "/login" None)) initial_state in
  let answer := RedirectExceptionFilter_catch "/login" 302 (snd run) in
  fst run = Errors (RedirectException "/login" 302) /\
  fst answer = inr tt /\
  sent (res (snd answer)) = Some (302%Z, EmptyString) /\
  headers (res (snd answer)) = <["Location"%string := "/login"%string]> ∅ /\
  trace (snd answer) =
    [EvHandle; EvStatus 302; EvSetHeader "Location" "/login"; EvEnd EmptyString] /\
  cache (snd answer) = empty_caches.
Proof.
  exact (X16_handler_redirect_becomes_response
           (env_of_files [("/app/src/home.page.tsx"%string, simple_page "Home")] false)
           (page_context "/app/src" "home" false "/") "/login" None initial_state
           _ eq_refl).
Defined.

End RedirectFacts.

(** ** Sanitizing twice *)

Module SanitizeTwice.
Import Sanitize SanitizeFacts DataScenario.

(** X18.  Sanitizing is idempotent: on a well-formed store, sanitizing
    the result of [sanitizeInitialProps] once more gives a value that
    reads exactly as the first result, to any depth.  The second pass
    finds nothing left to remove in the levels the first pass cleaned. *)
Theorem X18_sanitizing_twice_changes_nothing (s : store) (data : jsval) :
  store_wf s -> val_ok s data ->
  let once := sanitizeInitialProps s data 0 in
  let twice := sanitizeInitialProps (fst once) (snd once) 0 in
  forall d, reify d (fst twice) (snd twice) = reify d (fst once) (snd once).
Proof.
  intros Hwf Hok once twice d.
  destruct (sanitize_levels_correct 11 s data Hwf Hok)
    as (ext & Hs & Hwf1 & Hok1 & Href1 & _).
  change (sanitize_levels 11 s data) with once in Hs, Hok1, Href1.
  rewrite <- Hs in Hwf1, Hok1, Href1.
  destruct (sanitize_levels_correct 11 (fst once) (snd once) Hwf1 Hok1)
    as (ext2 & Hs2 & _ & _ & Href2 & _).
  change (sanitize_levels 11 (fst once) (snd once)) with twice in Hs2, Href2.
  rewrite Hs2, Href2, Href1. apply spread_sanitize_idempotent.
Qed.

(** The example of the claim, sanitized twice. *)
Lemma X18_witness :
  store_wf password_store /\ val_ok password_store (VRef 1%nat) /\
  (forall d,
      reify d
        (fst (sanitizeInitialProps
                (fst (sanitizeInitialProps password_store (VRef 1%nat) 0))
                (snd (sanitizeInitialProps password_store (VRef 1%nat) 0)) 0))
        (snd (sanitizeInitialProps
                (fst (sanitizeInitialProps password_store (VRef 1%nat) 0))
                (snd (sanitizeInitialProps password_store (VRef 1%nat) 0)) 0))
      = reify d (fst (sanitizeInitialProps password_store (VRef 1%nat) 0))
                (snd (sanitizeInitialProps password_store (VRef 1%nat) 0))).
Proof.
  split; [exact DataClaims.password_store_wf|].
  split; [cbn; lia|].
  apply (X18_sanitizing_twice_changes_nothing password_store (VRef 1%nat)
           DataClaims.password_store_wf).
  cbn. lia.
Defined.

End SanitizeTwice.

(** ** What a navigation can publish *)

Module RouterFacts.
Import Units Json Parser Client.

Lemma take_until_spec (stop : N) (s body rest : ustring) :
  take_until stop s = (body, rest) ->
  s = body ++ rest /\ stop ∉ body.
Proof.
  revert body rest. induction s as [|c t IH]; intros body rest H.
  - injection H as <- <-. split; [reflexivity|apply not_elem_of_nil].
  - cbn [take_until] in H. destruct (c =? stop) eqn:Hc.
    + injection H as <- <-. split; [reflexivity|apply not_elem_of_nil].
    + destruct (take_until stop t) as [b r] eqn:Ht. injection H as <- <-.
      destruct (IH b r eq_refl) as [-> Hb]. split; [reflexivity|].
      apply not_elem_of_cons. split; [|exact Hb].
      intros ->. now rewrite N.eqb_refl in Hc.
Qed.

Lemma match_assignment_spec (name : ustring) (opening closing : N) (s m : ustring) :
  match_assignment name opening closing s = Some m ->
  m <> [] /\ closing ∉ m.
Proof.
  unfold match_assignment. intros H.
  destruct (strip_prefix name s) as [rest|]; [|discriminate].
  destruct (skip_spaces rest) as [|eq r1]; [discriminate|].
  destruct (eq =? 61); [|discriminate].
  destruct (skip_spaces r1) as [|o r2]; [discriminate|].
  destruct (o =? opening); [|discriminate].
  destruct (take_until closing r2) as [body after] eqn:Htake.
  destruct body as [|c body]; [discriminate|].
  destruct after as [|cl [|semi after]]; try discriminate.
  destruct ((cl =? closing) && (semi =? 59)); [|discriminate].
  injection H as <-. split; [discriminate|].
  exact (proj2 (take_until_spec closing r2 (c :: body) _ Htake)).
Qed.

Lemma search_spec (pattern : ustring -> option ustring) (s m : ustring) :
  search pattern s = Some m -> exists t, pattern t = Some m.
Proof.
  induction s as [|c t IH]; cbn [search].
  - destruct (pattern []) eqn:Hp; [intros [= <-]; eauto|discriminate].
  - destruct (pattern (c :: t)) eqn:Hp; [intros [= <-]; eauto|exact IH].
Qed.

Section Engines.
Context `{Engine}.

(** X20.  A navigation publishes all or nothing, and little.  Whatever
    [fetch] gives, [fetchAndRenderPage] either leaves the window as it is
    and dispatches no event, or writes [__INITIAL_PROPS__] and
    [__PAGE_NAME__] and dispatches one [nist:navigate] event with the same
    two values; [__NIST__] and the route globals are never written.  In
    the second case the props were parsed from a brace group of the
    document that holds no closing brace inside (so it ends at the first
    closing brace after its opening one) and is not empty, and the page
    name is not empty and holds no double quote. *)
Theorem X20_navigation_publishes_all_or_nothing
        (fetched : option fetch_response) (w : window) :
  fetchAndRenderPage fetched w = (w, []) \/
  exists body newProps pageName,
    body <> [] /\ (RBRACE ∉ body) /\
    JSON_parse (LBRACE :: body ++ [RBRACE]) = Some newProps /\
    pageName <> [] /\ (QUOTE ∉ pageName) /\
    fetchAndRenderPage fetched w =
    (MkWindow (__NIST__ w) (Some newProps) (Some (JStr pageName))
              (__ROUTE_PARAMS__ w) (__QUERY_PARAMS__ w) (__PATHNAME__ w),
     [NistNavigate newProps pageName]).
Proof.
  unfold fetchAndRenderPage.
  destruct fetched as [response|]; [|now left].
  destruct (ok response); cbn [negb]; [|now left].
  unfold propsMatch.
  destruct (search _ (text response)) as [body|] eqn:Hprops; [|now left].
  destruct (pageNameMatch (text response)) as [pageName|] eqn:Hname; [|now left].
  destruct (JSON_parse (LBRACE :: body ++ [RBRACE])) as [newProps|] eqn:Hparse; [|now left].
  right. exists body, newProps, pageName.
  destruct (search_spec _ _ _ Hprops) as (t1 & H1).
  destruct (match_assignment_spec _ _ _ _ _ H1) as [Hb1 Hb2].
  unfold pageNameMatch in Hname.
  destruct (search_spec _ _ _ Hname) as (t2 & H2).
  destruct (match_assignment_spec _ _ _ _ _ H2) as [Hn1 Hn2].
  repeat split; assumption.
Qed.

End Engines.

End RouterFacts.
